(** * PowerlinkBessRoi: the fuel-curve interpolator and the BESS ROI engine

    Shallow embedding of [app/lib/roi.ts], of the handler of
    [app/api/calc/route.ts] and of the form handlers and the chart data of
    the page.  A JavaScript [number] is an IEEE 754 binary64
    value; it is modelled by Rocq's primitive [float], whose operations are
    the same binary64 operations with round-to-nearest-even, so every
    rounding, overflow, underflow and NaN of the program is present in the
    model.  A [throw new Error(msg)] is a value [Throw e] of the result type,
    with one constructor of [Error] per message of the source. *)

From Stdlib Require Import Floats ZArith Zpower List Bool String Lia Setoid.
Import ListNotations.

#[local] Set Warnings "-inexact-float".
#[local] Open Scope float_scope.
#[local] Open Scope bool_scope.

(** ** Data model *)

Record RoiInputs := {
  gensetKVA : float;
  loadKVA : float;
  powerFactor : float;
  hoursPerDay : float;
  dieselPricePerL : float;
  bessSizeKWh : float;
  bessPricePerKWh : float;
  socMax : float;
  socMin : float
}.

Record RoiOutputs := {
  loadPct : float;
  loadKW : float;
  fuelLph : float;
  annualFuelOnlyLitres : float;
  annualFuelOnlyCost : float;
  dieselKWhPerL : float;
  dailyBESSEnergyKWh : float;
  fuelSavedPerDayLitres : float;
  annualFuelSavingsLitres : float;
  annualFuelSavingsCost : float;
  bessCyclesPerDay : float;
  capex : float;
  paybackYears : option float;        (* number | null *)
  simpleFiveYearROI : option float    (* number | null *)
}.

Record FuelCurvePoint := {
  kva : float;
  lph25 : float;
  lph50 : float;
  lph75 : float;
  lph100 : float
}.

Definition fuelCurveTable : list FuelCurvePoint := [
  {| kva := 10; lph25 := 0.9; lph50 := 1.2; lph75 := 1.7; lph100 := 2.1 |};
  {| kva := 15; lph25 := 1.3; lph50 := 1.8; lph75 := 2.6; lph100 := 3.2 |};
  {| kva := 20; lph25 := 2.3; lph50 := 3.4; lph75 := 4.9; lph100 := 6.1 |};
  {| kva := 30; lph25 := 4.0; lph50 := 5.7; lph75 := 7.6; lph100 := 8.4 |};
  {| kva := 40; lph25 := 4.9; lph50 := 6.1; lph75 := 9.1; lph100 := 11.0 |};
  {| kva := 50; lph25 := 6.1; lph50 := 8.7; lph75 := 12.1; lph100 := 15.1 |};
  {| kva := 60; lph25 := 7.3; lph50 := 10.5; lph75 := 14.1; lph100 := 15.9 |};
  {| kva := 75; lph25 := 6.8; lph50 := 11.0; lph75 := 14.4; lph100 := 18.2 |};
  {| kva := 100; lph25 := 9.1; lph50 := 12.9; lph75 := 17.4; lph100 := 23.1 |};
  {| kva := 125; lph25 := 9.8; lph50 := 15.5; lph75 := 22.0; lph100 := 28.0 |};
  {| kva := 150; lph25 := 11.7; lph50 := 18.9; lph75 := 26.9; lph100 := 34.4 |};
  {| kva := 180; lph25 := 13.6; lph50 := 22.3; lph75 := 31.8; lph100 := 41.3 |};
  {| kva := 200; lph25 := 15.5; lph50 := 25.7; lph75 := 36.7; lph100 := 48.1 |};
  {| kva := 250; lph25 := 17.8; lph50 := 29.1; lph75 := 41.6; lph100 := 54.5 |};
  {| kva := 300; lph25 := 21.6; lph50 := 36.0; lph75 := 51.5; lph100 := 68.1 |};
  {| kva := 350; lph25 := 25.7; lph50 := 42.8; lph75 := 60.9; lph100 := 81.4 |};
  {| kva := 400; lph25 := 29.9; lph50 := 49.6; lph75 := 70.8; lph100 := 95.0 |};
  {| kva := 500; lph25 := 33.7; lph50 := 56.4; lph75 := 80.6; lph100 := 108.3 |};
  {| kva := 600; lph25 := 41.6; lph50 := 70.0; lph75 := 99.9; lph100 := 135.1 |};
  {| kva := 800; lph25 := 61.7; lph50 := 79.3; lph75 := 119.1; lph100 := 161.0 |};
  {| kva := 1000; lph25 := 75.9; lph50 := 111.9; lph75 := 153.0; lph100 := 222.3 |};
  {| kva := 1250; lph25 := 81.8; lph50 := 137.7; lph75 := 197.2; lph100 := 269.1 |}
].

Definition gensetSizes : list float := map kva fuelCurveTable.

(** ** Errors

    One constructor per [throw] of [roi.ts]; the comment gives the message of
    the source.  The names are those of the specification's error taxonomy
    where it has one name per message. *)

Inductive Error :=
  | UnknownGensetRating (gensetKVA : float)
      (* `Fuel curve missing for ${gensetKVA} kVA` *)
  | InterpolationFailure        (* "Interpolation failed" *)
  | InvalidElectricalInputs     (* "Invalid genset, load or power factor" *)
  | InvalidSizingInputs         (* "Invalid hours per day or BESS sizing" *)
  | InvalidSocWindow            (* "Invalid SOC limits" *)
  | NoChargingHeadroom          (* "No headroom to charge BESS from genset" *)
  | BaselineFuelNonPositive     (* "Baseline fuel is non-positive" *)
  | FullLoadFuelNonPositive     (* "Full-load fuel is non-positive" *)
  | UsableEnergyNonPositive     (* "Usable BESS energy is non-positive" *)
  | NoSurplusPower              (* "No surplus power to charge BESS" *)
  | InvalidDutyCycle            (* "Invalid charge/discharge time" *)
  | StrategyDoesNotSaveFuel.
      (* "Full-load strategy does not save fuel for this case" *)

(** The text of [err.message]; [show] stands for JavaScript's conversion of a
    number to a string inside the template literal. *)
Definition message (show : float -> string) (e : Error) : string :=
  match e with
  | UnknownGensetRating k => "Fuel curve missing for " ++ show k ++ " kVA"
  | InterpolationFailure => "Interpolation failed"
  | InvalidElectricalInputs => "Invalid genset, load or power factor"
  | InvalidSizingInputs => "Invalid hours per day or BESS sizing"
  | InvalidSocWindow => "Invalid SOC limits"
  | NoChargingHeadroom => "No headroom to charge BESS from genset"
  | BaselineFuelNonPositive => "Baseline fuel is non-positive"
  | FullLoadFuelNonPositive => "Full-load fuel is non-positive"
  | UsableEnergyNonPositive => "Usable BESS energy is non-positive"
  | NoSurplusPower => "No surplus power to charge BESS"
  | InvalidDutyCycle => "Invalid charge/discharge time"
  | StrategyDoesNotSaveFuel =>
      "Full-load strategy does not save fuel for this case"
  end%string.

(** A call either returns a value or throws. *)
Inductive result (A : Type) : Type :=
  | Ok (a : A)
  | Throw (e : Error).
Arguments Ok {A} a.
Arguments Throw {A} e.

Definition bind {A B : Type} (r : result A) (k : A -> result B) : result B :=
  match r with
  | Ok a => k a
  | Throw e => Throw e
  end.

Notation "x <- r ;; k" := (bind r (fun x => k))
  (at level 61, r at next level, right associativity).

(** ** JavaScript's comparison operators on numbers

    [a <= b], [a < b] and [a === b] are [a <=? b], [a <? b] and [a =? b];
    the two below are the mirrored ones.  All of them are false as soon as an
    operand is NaN. *)
Definition geb (a b : float) : bool := b <=? a.   (* a >= b *)
Definition gtb (a b : float) : bool := b <? a.    (* a > b *)
Infix ">=?" := geb (at level 70, no associativity) : float_scope.
Infix ">?" := gtb (at level 70, no associativity) : float_scope.

(** [a[i]] on an array of numbers; past the end JavaScript gives [undefined],
    which behaves as NaN in the arithmetic and comparisons below. *)
Definition at_index (a : list float) (i : nat) : float := nth i a nan.

(** ** fuelLphInterpSimple *)

(** The [for (let i = 0; i < 3; i++)] loop from index [i] on, with [steps]
    iterations left, followed by the final [throw]. *)
Fixpoint interpLoop (x y : list float) (loadPct : float) (i steps : nat)
  : result float :=
  match steps with
  | O => Throw InterpolationFailure
  | S steps' =>
      if (loadPct >=? at_index x i) && (loadPct <=? at_index x (i + 1)) then
        let t := (loadPct - at_index x i) / (at_index x (i + 1) - at_index x i) in
        Ok (at_index y i + t * (at_index y (i + 1) - at_index y i))
      else interpLoop x y loadPct (S i) steps'
  end.

Definition fuelLphInterpSimple
  (gensetKVA loadPct : float) (table : list FuelCurvePoint) : result float :=
  match find (fun r => kva r =? gensetKVA) table with
  | None => Throw (UnknownGensetRating gensetKVA)
  | Some row =>
      let x := [0.25; 0.5; 0.75; 1.0] in
      let y := [lph25 row; lph50 row; lph75 row; lph100 row] in
      (* Clamp 0.25..1 *)
      if loadPct <=? at_index x 0 then Ok (at_index y 0)
      else if loadPct >=? at_index x 3 then Ok (at_index y 3)
      else (* Interpolate *) interpLoop x y loadPct 0 3
  end.

(** ** bessRoi *)

Definition bessRoi (inputs : RoiInputs) (table : list FuelCurvePoint)
  : result RoiOutputs :=
  let '(Build_RoiInputs gensetKVA loadKVA powerFactor hoursPerDay
          dieselPricePerL bessSizeKWh bessPricePerKWh socMax socMin) := inputs in
  (* Basic validation *)
  if (gensetKVA <=? 0) || (loadKVA <=? 0) || (powerFactor <=? 0)
  then Throw InvalidElectricalInputs else
  if (hoursPerDay <=? 0) || (bessSizeKWh <=? 0) || (bessPricePerKWh <=? 0)
  then Throw InvalidSizingInputs else
  if (socMax <=? socMin) || (socMax >? 1) || (socMin <? 0)
  then Throw InvalidSocWindow else
  let loadKW := loadKVA * powerFactor in
  let gensetKW := gensetKVA * powerFactor in
  if loadKW >=? gensetKW then Throw NoChargingHeadroom else
  let loadPct := loadKVA / gensetKVA in
  (* Baseline fuel *)
  fuelBase_Lph <- fuelLphInterpSimple gensetKVA loadPct table ;;
  if fuelBase_Lph <=? 0 then Throw BaselineFuelNonPositive else
  (* Full-load fuel (100%) *)
  fuelFull_Lph <- fuelLphInterpSimple gensetKVA 1 table ;;
  if fuelFull_Lph <=? 0 then Throw FullLoadFuelNonPositive else
  (* Usable BESS energy (SOC window) *)
  let E_batt_use := bessSizeKWh * (socMax - socMin) in
  if E_batt_use <=? 0 then Throw UsableEnergyNonPositive else
  (* Charging power (surplus) *)
  let P_ch := gensetKW - loadKW in
  if P_ch <=? 0 then Throw NoSurplusPower else
  let t_ch := E_batt_use / P_ch in
  let t_dis := E_batt_use / loadKW in
  if (t_ch <=? 0) || (t_dis <=? 0) then Throw InvalidDutyCycle else
  let T_cycle := t_ch + t_dis in
  let onFraction := t_ch / T_cycle in
  let gensetHoursPerDay := hoursPerDay * onFraction in
  (* Baseline fuel (no BESS) *)
  let fuelDay_base_L := fuelBase_Lph * hoursPerDay in
  let annualFuelOnlyLitres := fuelDay_base_L * 365 in
  let annualFuelOnlyCost := annualFuelOnlyLitres * dieselPricePerL in
  (* New fuel with full-load strategy *)
  let fuelDay_new_L := fuelFull_Lph * gensetHoursPerDay in
  let fuelSavedPerDay_L := fuelDay_base_L - fuelDay_new_L in
  if fuelSavedPerDay_L <=? 0 then Throw StrategyDoesNotSaveFuel else
  let annualFuelSavingsLitres := fuelSavedPerDay_L * 365 in
  let annualFuelSavingsCost := annualFuelSavingsLitres * dieselPricePerL in
  (* Diesel kWh per L at baseline operating point *)
  let dieselKWhPerL := loadKW / fuelBase_Lph in
  (* Daily BESS energy (from saved fuel) *)
  let dailyBESSEnergyKWh := fuelSavedPerDay_L * dieselKWhPerL in
  (* BESS cycles per day *)
  let headroomKW := gensetKW - loadKW in
  let bessCyclesPerDay :=
    if (headroomKW >? 0) && (bessSizeKWh >? 0) && (socMax >? socMin) then
      let denom := bessSizeKWh * (socMax - socMin) * (headroomKW + loadKW) in
      if negb (denom =? 0) then (hoursPerDay * headroomKW * loadKW) / denom
      else 0
    else 0 in
  (* Capex & ROI *)
  let capex := bessSizeKWh * bessPricePerKWh in
  let paybackYears :=
    if annualFuelSavingsCost >? 0 then Some (capex / annualFuelSavingsCost)
    else None in
  let totalSavings5y := annualFuelSavingsCost * 5 in
  let simpleFiveYearROI :=
    if capex >? 0 then Some (((totalSavings5y - capex) / capex) * 100)
    else None in
  Ok {| loadPct := loadPct;
        loadKW := loadKW;
        fuelLph := fuelBase_Lph;
        annualFuelOnlyLitres := annualFuelOnlyLitres;
        annualFuelOnlyCost := annualFuelOnlyCost;
        dieselKWhPerL := dieselKWhPerL;
        dailyBESSEnergyKWh := dailyBESSEnergyKWh;
        fuelSavedPerDayLitres := fuelSavedPerDay_L;
        annualFuelSavingsLitres := annualFuelSavingsLitres;
        annualFuelSavingsCost := annualFuelSavingsCost;
        bessCyclesPerDay := bessCyclesPerDay;
        capex := capex;
        paybackYears := paybackYears;
        simpleFiveYearROI := simpleFiveYearROI |}.

(** ** The field check of the route handler

    [POST] of [app/api/calc/route.ts] answers 400 unless every required field
    is a number ([typeof] ["number"]) that is not NaN; the fields here are
    numbers by their type, so the check is that none is NaN. *)
Definition requiredFields : list (RoiInputs -> float) :=
  [gensetKVA; loadKVA; powerFactor; hoursPerDay; dieselPricePerL;
   bessSizeKWh; bessPricePerKWh; socMax; socMin].

Definition fieldsAreNumbers (inputs : RoiInputs) : bool :=
  forallb (fun key => negb (is_nan (key inputs))) requiredFields.

(** ** The keys of [RoiInputs]

    [keyof RoiInputs] is the union of nine string literals; [keyName] is the
    string, [field key inputs] is [inputs[key]] and [withField key v prev] is
    [{ ...prev, [key]: v }]. *)
Inductive Key :=
  | GensetKVA | LoadKVA | PowerFactor | HoursPerDay | DieselPricePerL
  | BessSizeKWh | BessPricePerKWh | SocMax | SocMin.

Definition keyName (key : Key) : string :=
  match key with
  | GensetKVA => "gensetKVA"
  | LoadKVA => "loadKVA"
  | PowerFactor => "powerFactor"
  | HoursPerDay => "hoursPerDay"
  | DieselPricePerL => "dieselPricePerL"
  | BessSizeKWh => "bessSizeKWh"
  | BessPricePerKWh => "bessPricePerKWh"
  | SocMax => "socMax"
  | SocMin => "socMin"
  end.

Definition field (key : Key) : RoiInputs -> float :=
  match key with
  | GensetKVA => gensetKVA
  | LoadKVA => loadKVA
  | PowerFactor => powerFactor
  | HoursPerDay => hoursPerDay
  | DieselPricePerL => dieselPricePerL
  | BessSizeKWh => bessSizeKWh
  | BessPricePerKWh => bessPricePerKWh
  | SocMax => socMax
  | SocMin => socMin
  end.

Definition withField (key : Key) (v : float) (prev : RoiInputs) : RoiInputs :=
  let pick k := match key, k with
                | GensetKVA, GensetKVA | LoadKVA, LoadKVA
                | PowerFactor, PowerFactor | HoursPerDay, HoursPerDay
                | DieselPricePerL, DieselPricePerL | BessSizeKWh, BessSizeKWh
                | BessPricePerKWh, BessPricePerKWh | SocMax, SocMax
                | SocMin, SocMin => v
                | _, _ => field k prev
                end in
  {| gensetKVA := pick GensetKVA; loadKVA := pick LoadKVA;
     powerFactor := pick PowerFactor; hoursPerDay := pick HoursPerDay;
     dieselPricePerL := pick DieselPricePerL; bessSizeKWh := pick BessSizeKWh;
     bessPricePerKWh := pick BessPricePerKWh; socMax := pick SocMax;
     socMin := pick SocMin |}.

(** ** The route handler [POST] of [app/api/calc/route.ts] *)

Module Route.

(** A value of the parsed request body, as far as [typeof] and
    [Number.isNaN] tell values apart. *)
Inductive JsValue :=
  | JsUndefined               (* a property that is missing *)
  | JsNull
  | JsBoolean (b : bool)
  | JsNumber (n : float)
  | JsString (s : string)
  | JsObject.                 (* an object or an array *)

Definition typeof (v : JsValue) : string :=
  match v with
  | JsUndefined => "undefined"
  | JsNull | JsObject => "object"
  | JsBoolean _ => "boolean"
  | JsNumber _ => "number"
  | JsString _ => "string"
  end.

(** [Number.isNaN] does not convert its argument: it is false on what is
    not a number. *)
Definition Number_isNaN (v : JsValue) : bool :=
  match v with
  | JsNumber n => is_nan n
  | _ => false
  end.

(** What [await req.json()] and the property reads of the handler give: an
    error thrown inside the [try] (the body is not JSON, or it is [null] and
    has no properties), with its [message] if it has one; or the values
    [inputs[key]] of the nine keys. *)
Inductive Request :=
  | Throws (message : option string)
  | Body (inputs : Key -> JsValue).

(** The two shapes of the JSON reply, [{ success: true, result }] and
    [{ success: false, error }], and the response with its status. *)
Inductive Reply :=
  | Success (result : RoiOutputs)
  | Failure (error : string).

Record NextResponse := {
  body : Reply;
  status : nat
}.

Definition requiredFields : list Key :=
  [GensetKVA; LoadKVA; PowerFactor; HoursPerDay; DieselPricePerL;
   BessSizeKWh; BessPricePerKWh; SocMax; SocMin].

(** The loop [for (const key of requiredFields)] over the keys that are
    left: [Some] is the response it returns, [None] is its normal end. *)
Fixpoint checkFields (inputs : Key -> JsValue) (keys : list Key)
  : option NextResponse :=
  match keys with
  | [] => None
  | key :: rest =>
      if negb (typeof (inputs key) =? "number")%string
         || Number_isNaN (inputs key)
      then Some {| body := Failure ("Invalid or missing field: " ++ keyName key);
                   status := 400 |}
      else checkFields inputs rest
  end.

(** The number that [bessRoi] reads from a property of [inputs as RoiInputs];
    the cast checks nothing, and past the loop every property is a number. *)
Definition asNumber (v : JsValue) : float :=
  match v with
  | JsNumber n => n
  | _ => nan
  end.

Definition asRoiInputs (inputs : Key -> JsValue) : RoiInputs :=
  {| gensetKVA := asNumber (inputs GensetKVA);
     loadKVA := asNumber (inputs LoadKVA);
     powerFactor := asNumber (inputs PowerFactor);
     hoursPerDay := asNumber (inputs HoursPerDay);
     dieselPricePerL := asNumber (inputs DieselPricePerL);
     bessSizeKWh := asNumber (inputs BessSizeKWh);
     bessPricePerKWh := asNumber (inputs BessPricePerKWh);
     socMax := asNumber (inputs SocMax);
     socMin := asNumber (inputs SocMin) |}.

(** [POST]; [show] is the conversion of a number to a string in the message
    of the engine's "Fuel curve missing" error.  The [console.error] of the
    [catch] clause writes to the log only. *)
Definition POST (show : float -> string) (req : Request) : NextResponse :=
  match req with
  | Throws err =>
      {| body := Failure (match err with
                          | Some m => m
                          | None => "Unknown error"
                          end);
         status := 500 |}
  | Body inputs =>
      match checkFields inputs requiredFields with
      | Some response => response
      | None =>
          match bessRoi (asRoiInputs inputs) fuelCurveTable with
          | Ok result => {| body := Success result; status := 200 |}
          | Throw err =>
              {| body := Failure (message show err); status := 500 |}
          end
      end
  end.

End Route.

(** ** The form of [app/page.tsx]

    The state of the page that the handlers of the form write, and the
    handlers that do not wait for the network.  [value] is
    [Number(e.target.value)]. *)

Module Page.

Definition defaultInputs : RoiInputs :=
  {| gensetKVA := 125; loadKVA := 56; powerFactor := 0.8; hoursPerDay := 10;
     dieselPricePerL := 3; bessSizeKWh := 520; bessPricePerKWh := 650;
     socMax := 1; socMin := 0.2 |}.

Record State := {
  inputs : RoiInputs;
  results : option RoiOutputs;
  error : option string
}.

Definition initial : State :=
  {| inputs := defaultInputs; results := None; error := None |}.

Definition setInputs (update : RoiInputs -> RoiInputs) (st : State) : State :=
  {| inputs := update (inputs st); results := results st; error := error st |}.

Definition handleNumberChange (key : Key) (value : float) : State -> State :=
  setInputs (fun prev => withField key (if is_nan value then 0 else value) prev).

Definition handleGensetChange (value : float) : State -> State :=
  setInputs (fun prev => withField GensetKVA value prev).

Definition handleReset (st : State) : State :=
  {| inputs := defaultInputs; results := None; error := None |}.

(** The events of the form: a change of one of the eight number inputs, each
    wired to [handleNumberChange] with its own key; a change of the genset
    select, whose options are the [gensetSizes]; a click on the reset
    button. *)
Inductive Event :=
  | NumberChange (key : Key) (value : float)
  | GensetChange (value : float)
  | Reset.

Definition handle (ev : Event) : State -> State :=
  match ev with
  | NumberChange key value => handleNumberChange key value
  | GensetChange value => handleGensetChange value
  | Reset => handleReset
  end.

(** An event that the rendered form can raise. *)
Definition raisedByForm (ev : Event) : bool :=
  match ev with
  | NumberChange GensetKVA _ => false
  | NumberChange _ _ => true
  | GensetChange value => existsb (fun size => size =? value) gensetSizes
  | Reset => true
  end.

(** The state after a sequence of events, the first one first. *)
Definition run (events : list Event) (st : State) : State :=
  fold_left (fun s ev => handle ev s) events st.

End Page.

(** ** The charts of the page

    [ChartsSection] of the page derives the data of its two charts from a
    result; [Math.max] is the function of ECMAScript: NaN as soon as an
    argument is NaN, else the largest argument from -Infinity on, +0 being
    larger than -0. *)

Definition isPositiveZero (x : float) : bool :=
  match Prim2SF x with S754_zero false => true | _ => false end.

Definition isNegativeZero (x : float) : bool :=
  match Prim2SF x with S754_zero true => true | _ => false end.

Definition max_step (highest number : float) : float :=
  if isPositiveZero number && isNegativeZero highest then 0
  else if highest <? number then number else highest.

Definition Math_max (args : list float) : float :=
  if existsb is_nan args then nan else fold_left max_step args neg_infinity.

Module Charts.

Record PieDatum := { name : string; value : float }.

Record BarDatum := { barName : string; Baseline : float; WithBESS : float }.

Definition costWithBess (results : RoiOutputs) : float :=
  let baselineCost := annualFuelOnlyCost results in
  let savings := annualFuelSavingsCost results in
  Math_max [baselineCost - savings; 0].

Definition pieData (results : RoiOutputs) : list PieDatum :=
  [ {| name := "Fuel cost with BESS"; value := costWithBess results |};
    {| name := "Fuel savings"; value := annualFuelSavingsCost results |} ].

Definition barData (results : RoiOutputs) : list BarDatum :=
  [ {| barName := "Annual fuel cost";
       Baseline := annualFuelOnlyCost results;
       WithBESS := costWithBess results |} ].

End Charts.

(** ** Vocabulary of the claims *)

(** The four validation gates, in the order of the specification. *)
Definition electricalInvalid (i : RoiInputs) : bool :=
  (gensetKVA i <=? 0) || (loadKVA i <=? 0) || (powerFactor i <=? 0).

Definition sizingInvalid (i : RoiInputs) : bool :=
  (hoursPerDay i <=? 0) || (bessSizeKWh i <=? 0) || (bessPricePerKWh i <=? 0).

Definition socWindowInvalid (i : RoiInputs) : bool :=
  (socMax i <=? socMin i) || (socMax i >? 1) || (socMin i <? 0).

(** The derived powers and the usable energy (specification 4.2). *)
Definition loadPowerKW (i : RoiInputs) : float := loadKVA i * powerFactor i.
Definition gensetPowerKW (i : RoiInputs) : float :=
  gensetKVA i * powerFactor i.
Definition usableEnergyKWh (i : RoiInputs) : float :=
  bessSizeKWh i * (socMax i - socMin i).
Definition surplusPowerKW (i : RoiInputs) : float :=
  gensetPowerKW i - loadPowerKW i.

Definition noHeadroom (i : RoiInputs) : bool :=
  loadPowerKW i >=? gensetPowerKW i.

(** The breakpoints [x] and the samples [y] of a row, as the interpolator
    lists them, and the value it interpolates in the bracket from breakpoint
    [j] to breakpoint [j + 1]. *)
Definition breakpoints : list float := [0.25; 0.5; 0.75; 1.0].

Definition samples (row : FuelCurvePoint) : list float :=
  [lph25 row; lph50 row; lph75 row; lph100 row].

Definition interpolated (x y : list float) (p : float) (j : nat) : float :=
  let t := (p - at_index x j) / (at_index x (j + 1) - at_index x j) in
  at_index y j + t * (at_index y (j + 1) - at_index y j).

(** [ratingPresent table k]: some row's key is [===] to [k]. *)
Definition ratingPresent (table : list FuelCurvePoint) (k : float) : bool :=
  existsb (fun r => kva r =? k) table.

(** The data invariant of the fuel curve table: every key is a number and no
    two rows have [===] keys. *)
Fixpoint ratingsUnique (table : list FuelCurvePoint) : bool :=
  match table with
  | [] => true
  | r :: rest =>
      (kva r =? kva r)
      && forallb (fun r' => negb (kva r =? kva r')) rest
      && ratingsUnique rest
  end.

(** The same record with another diesel price. *)
Definition withDieselPrice (p : float) (i : RoiInputs) : RoiInputs :=
  {| gensetKVA := gensetKVA i; loadKVA := loadKVA i;
     powerFactor := powerFactor i; hoursPerDay := hoursPerDay i;
     dieselPricePerL := p;
     bessSizeKWh := bessSizeKWh i; bessPricePerKWh := bessPricePerKWh i;
     socMax := socMax i; socMin := socMin i |}.

(** The collapsed form of the battery cycles per day, following the words of
    the specification (4.2): 0 if the surplus power is <= 0; otherwise
    hoursPerDay x surplusPowerKW x loadPowerKW / (usableEnergyKWh x
    gensetPowerKW), a zero denominator giving 0 cycles. *)
Definition cyclesPerDayCollapsed (i : RoiInputs) : float :=
  if surplusPowerKW i <=? 0 then 0
  else
    let denom := usableEnergyKWh i * gensetPowerKW i in
    if denom =? 0 then 0
    else (hoursPerDay i * surplusPowerKW i * loadPowerKW i) / denom.

(** A value that is a number other than 0 and -0. *)
Definition nonzeroNumber (x : float) : bool :=
  negb (is_nan x) && negb (is_zero x).

(** *** Further vocabulary *)

(** A number > 0 that is not +Infinity. *)
Definition finitePositive (x : float) : bool := (0 <? x) && (x <? infinity).

(** A row whose four samples are finite and > 0 and rise with the load, each
    increment [y[j + 1] - y[j]], as the interpolator computes it, being finite
    and > 0 too. *)
Definition rowRising (row : FuelCurvePoint) : bool :=
  forallb finitePositive (samples row)
  && forallb finitePositive
       [lph50 row - lph25 row; lph75 row - lph50 row; lph100 row - lph75 row].

(** A bracket whose interpolation does not pass the next sample at its upper
    breakpoint (in binary64, [y[j] + 1 * (y[j + 1] - y[j])] need not be
    [y[j + 1]]), and a row whose three brackets are so. *)
Definition bracketClosed (x y : list float) (j : nat) : bool :=
  interpolated x y (at_index x (j + 1)) j <=? at_index y (j + 1).

Definition rowClosed (row : FuelCurvePoint) : bool :=
  forallb (bracketClosed breakpoints (samples row)) [0; 1; 2]%nat.

(** The same record with other prices of the diesel and of the battery. *)
Definition withPrices (diesel battery : float) (i : RoiInputs) : RoiInputs :=
  withField BessPricePerKWh battery (withField DieselPricePerL diesel i).

(** The output fields that are no amounts of money. *)
Definition physicalOutputs (r : RoiOutputs) : list float :=
  [loadPct r; loadKW r; fuelLph r; annualFuelOnlyLitres r; dieselKWhPerL r;
   dailyBESSEnergyKWh r; fuelSavedPerDayLitres r; annualFuelSavingsLitres r;
   bessCyclesPerDay r].

(** The four validation gates let the input through. *)
Definition gatesPass (i : RoiInputs) : bool :=
  negb (electricalInvalid i) && negb (sizingInvalid i)
  && negb (socWindowInvalid i) && negb (noHeadroom i).

(** The charge and discharge times of the duty cycle. *)
Definition chargeHours (i : RoiInputs) : float :=
  usableEnergyKWh i / surplusPowerKW i.
Definition dischargeHours (i : RoiInputs) : float :=
  usableEnergyKWh i / loadPowerKW i.

(** The errors that [bessRoi] can throw on a table of rising rows when no
    input is NaN. *)
Definition reachableErrors (i : RoiInputs) : list Error :=
  [InvalidElectricalInputs; InvalidSizingInputs; InvalidSocWindow;
   NoChargingHeadroom; UnknownGensetRating (gensetKVA i);
   UsableEnergyNonPositive; InvalidDutyCycle; StrategyDoesNotSaveFuel].

(** A property of the request body that the route handler rejects: it is
    not a number, or it is NaN. *)
Definition invalidField (v : Route.JsValue) : bool :=
  match v with
  | Route.JsNumber n => is_nan n
  | _ => true
  end.

(** The body whose nine properties are the fields of [i]. *)
Definition bodyOf (i : RoiInputs) : Key -> Route.JsValue :=
  fun key => Route.JsNumber (field key i).

(** What the form keeps true of its inputs: none is NaN, and the genset
    rating is one of the built-in table. *)
Definition formInvariant (st : Page.State) : Prop :=
  fieldsAreNumbers (Page.inputs st) = true /\
  ratingPresent fuelCurveTable (gensetKVA (Page.inputs st)) = true.

(** *** Inputs used by the examples *)

(** End-to-end scenario A of the specification. *)
Definition scenarioA : RoiInputs :=
  {| gensetKVA := 125; loadKVA := 56; powerFactor := 0.8; hoursPerDay := 10;
     dieselPricePerL := 3; bessSizeKWh := 520; bessPricePerKWh := 650;
     socMax := 1; socMin := 0.2 |}.

(** Scenario A with free diesel. *)
Definition scenarioFreeDiesel : RoiInputs := withDieselPrice 0 scenarioA.

(** A 180 kVA genset at power factor 0.7 carrying 22 kVA. *)
Definition scenario180 : RoiInputs :=
  {| gensetKVA := 180; loadKVA := 22; powerFactor := 0.7; hoursPerDay := 10;
     dieselPricePerL := 3; bessSizeKWh := 520; bessPricePerKWh := 650;
     socMax := 1; socMin := 0.2 |}.

(** Scenario A with a battery size and price so small that their product
    underflows. *)
Definition scenarioTinyBattery : RoiInputs :=
  {| gensetKVA := 125; loadKVA := 56; powerFactor := 0.8; hoursPerDay := 10;
     dieselPricePerL := 3; bessSizeKWh := 1e-200; bessPricePerKWh := 1e-200;
     socMax := 1; socMin := 0.2 |}.

(** Scenario A with free diesel and so many hours that the annual savings
    overflow. *)
Definition scenarioHugeHours : RoiInputs :=
  {| gensetKVA := 125; loadKVA := 56; powerFactor := 0.8; hoursPerDay := 1e306;
     dieselPricePerL := 0; bessSizeKWh := 520; bessPricePerKWh := 650;
     socMax := 1; socMin := 0.2 |}.

(** Scenario A with a battery size and a power factor so small that the
    denominator of the cycles formula underflows. *)
Definition scenarioTinyPower : RoiInputs :=
  {| gensetKVA := 125; loadKVA := 56; powerFactor := 1e-200; hoursPerDay := 10;
     dieselPricePerL := 3; bessSizeKWh := 1e-200; bessPricePerKWh := 650;
     socMax := 1; socMin := 0.2 |}.

(** Scenario A with so many hours that the daily fuel volumes overflow. *)
Definition scenarioEndlessHours : RoiInputs :=
  {| gensetKVA := 125; loadKVA := 56; powerFactor := 0.8; hoursPerDay := 1e308;
     dieselPricePerL := 3; bessSizeKWh := 520; bessPricePerKWh := 650;
     socMax := 1; socMin := 0.2 |}.

(** Scenario A with a battery size that is NaN, which no gate rejects (the
    route handler does). *)
Definition scenarioNaNBattery : RoiInputs :=
  {| gensetKVA := 125; loadKVA := 56; powerFactor := 0.8; hoursPerDay := 10;
     dieselPricePerL := 3; bessSizeKWh := nan; bessPricePerKWh := 650;
     socMax := 1; socMin := 0.2 |}.

(** A 1000 kVA genset at 75 % load: its fuel curve is below the line from
    the origin to the full-load sample there. *)
Definition scenarioNoSaving : RoiInputs :=
  {| gensetKVA := 1000; loadKVA := 750; powerFactor := 0.8; hoursPerDay := 10;
     dieselPricePerL := 3; bessSizeKWh := 520; bessPricePerKWh := 650;
     socMax := 1; socMin := 0.2 |}.

(** Scenario A with a battery size and an SOC window so small that their
    product underflows. *)
Definition scenarioTinyWindow : RoiInputs :=
  {| gensetKVA := 125; loadKVA := 56; powerFactor := 0.8; hoursPerDay := 10;
     dieselPricePerL := 3; bessSizeKWh := 1e-200; bessPricePerKWh := 650;
     socMax := 1e-200; socMin := 0 |}.

(** Scenario A with the least battery size > 0: the charge time
    underflows. *)
Definition scenarioTinyEnergy : RoiInputs :=
  {| gensetKVA := 125; loadKVA := 56; powerFactor := 0.8; hoursPerDay := 10;
     dieselPricePerL := 3; bessSizeKWh := 5e-324; bessPricePerKWh := 650;
     socMax := 1; socMin := 0 |}.

(** A session with the form: a number input is cleared, another genset is
    selected, the form is reset, and the lower SOC limit is edited. *)
Definition sessionEvents : list Page.Event :=
  [Page.NumberChange LoadKVA nan; Page.GensetChange 250; Page.Reset;
   Page.NumberChange SocMin 0.1].

(** A one-row table whose samples are one-decimal numbers. *)
Definition smallGensetTable : list FuelCurvePoint :=
  [ {| kva := 8; lph25 := 0.6; lph50 := 1.7; lph75 := 3.9; lph100 := 5.2 |} ].

(** ** Sign classes of binary64 values, on their specification *)

(** NaN, or the sign bit is clear: +0, a positive number, +Infinity. *)
Definition sf_plus (x : spec_float) : bool :=
  match x with
  | S754_nan => true
  | S754_zero s | S754_infinity s | S754_finite s _ _ => negb s
  end.

Definition plus (x : float) : bool := sf_plus (Prim2SF x).

(** A number > 0, or +Infinity. *)
Definition sf_positive (x : spec_float) : bool :=
  match x with
  | S754_finite false _ _ | S754_infinity false => true
  | _ => false
  end.

(** ** Rounding, on the specification

    [SpecFloat] rounds a mantissa and the location of what was cut off; the
    definitions below say what comes out, for a quotient of integers. *)

Section RoundedQuotients.

#[local] Open Scope Z_scope.

(** The location of the remainder [r] of a division by [D]. *)
Definition loc_of (r D : Z) : location :=
  if r =? 0 then loc_Exact else loc_Inexact (2 * r ?= D).

(** [mrs] holds the quotient of [N] by [D] and the location of the
    remainder. *)
Definition located (N D : Z) (mrs : shr_record) : Prop :=
  shr_m mrs = N / D /\ loc_of_shr_record mrs = loc_of (N mod D) D.

(** The quotient of [N] by [D], rounded to the nearest integer, ties to
    even. *)
Definition rne (N D : Z) : Z :=
  match 2 * (N mod D) ?= D with
  | Lt => N / D
  | Eq => if Z.even (N / D) then N / D else N / D + 1
  | Gt => N / D + 1
  end.

(** The double that [binary_round_aux] returns for the quotient of [N] by
    [D] at the exponent [e]. *)
Definition round_pos (N D e : Z) : spec_float :=
  let fe := fexp prec emax (Zdigits2 (N / D) + e) in
  let q := rne N (D * 2 ^ (fe - e)) in
  if q =? 2 ^ prec then
    if fe + 1 <=? emax - prec
    then S754_finite false (Z.to_pos (2 ^ (prec - 1))) (fe + 1)
    else S754_infinity false
  else
    match q with
    | Z.pos p =>
        if fe <=? emax - prec then S754_finite false p fe
        else S754_infinity false
    | _ => S754_zero false
    end.

(** 0, -0, a number > 0, or +Infinity. *)
Definition sf_nonneg (x : spec_float) : bool :=
  match x with
  | S754_zero _ | S754_finite false _ _ | S754_infinity false => true
  | _ => false
  end.

(** The double 1. *)
Definition sf_one : spec_float := S754_finite false 4503599627370496 (-52).

(** The place of a double in the order of the numbers, on a scale that makes
    every finite double an integer. *)
Definition sf_rank (x : spec_float) : Z :=
  match x with
  | S754_zero _ | S754_nan => 0
  | S754_infinity s => cond_Zopp s (2 ^ 2100)
  | S754_finite s m e => cond_Zopp s (Z.pos m * 2 ^ (e + 1074))
  end.

Definition rank (x : float) : Z := sf_rank (Prim2SF x).

End RoundedQuotients.

(** * Facts on binary64 values

    The standard library specifies the primitive operations by the functions
    of [SpecFloat] on [spec_float] ([FloatAxioms]); the facts below are proved
    on that specification and carried to [float] through [Prim2SF]. *)

Create HintDb binary64.

Module Binary64.

(** ** Comparison, on the specification *)

Lemma SFcompare_antisym x y :
  SFcompare y x =
  match SFcompare x y with Some c => Some (CompOpp c) | None => None end.
Proof.
  destruct x as [sx|sx| |sx mx ex], y as [sy|sy| |sy my ey]; simpl;
    try reflexivity;
    try (destruct sx; reflexivity); try (destruct sy; reflexivity);
    try (destruct sx, sy; reflexivity).
  f_equal.
  destruct sx, sy; try reflexivity.
  all: rewrite (Z.compare_antisym ex ey);
    destruct (Z.compare_spec ex ey); simpl; try reflexivity.
  all: change (Pos.compare_cont Eq ?a ?b) with (Pos.compare a b).
  all: rewrite (Pos.compare_antisym mx my); try reflexivity.
Qed.

Lemma SFcompare_refl x : x <> S754_nan -> SFcompare x x = Some Eq.
Proof.
  destruct x as [s|s| |s m e]; simpl; intros H;
    try reflexivity; try congruence.
  - destruct s; reflexivity.
  - change (Pos.compare_cont Eq m m) with (Pos.compare m m).
    rewrite Z.compare_refl, Pos.compare_refl. destruct s; reflexivity.
Qed.

Lemma SFcompare_None x y :
  SFcompare x y = None <-> x = S754_nan \/ y = S754_nan.
Proof.
  destruct x as [sx|sx| |sx mx ex], y as [sy|sy| |sy my ey]; simpl;
    split; intros H; try discriminate; auto;
    destruct H; discriminate.
Qed.

(** Case analysis on every comparison of exponents and mantissas in sight. *)
Ltac cmp_cases :=
  repeat match goal with
  | |- context [Pos.compare_cont Eq ?a ?b] =>
      change (Pos.compare_cont Eq a b) with (Pos.compare a b)
  | H : context [Pos.compare_cont Eq ?a ?b] |- _ =>
      change (Pos.compare_cont Eq a b) with (Pos.compare a b) in H
  end;
  repeat match goal with
  | |- context [Z.compare ?a ?b] => destruct (Z.compare_spec a b)
  | H : context [Z.compare ?a ?b] |- _ => destruct (Z.compare_spec a b)
  | |- context [Pos.compare ?a ?b] => destruct (Pos.compare_spec a b)
  | H : context [Pos.compare ?a ?b] |- _ => destruct (Pos.compare_spec a b)
  end.

Lemma SFleb_trans x y z :
  SFleb x y = true -> SFleb y z = true -> SFleb x z = true.
Proof.
  unfold SFleb.
  destruct x as [sx|sx| |sx mx ex], y as [sy|sy| |sy my ey],
           z as [sz|sz| |sz mz ez]; simpl;
    try discriminate; try reflexivity;
    try (destruct sx; simpl; try discriminate; try reflexivity);
    try (destruct sy; simpl; try discriminate; try reflexivity);
    try (destruct sz; simpl; try discriminate; try reflexivity).
  all: cmp_cases; simpl; intros; try discriminate; try reflexivity; try lia.
Qed.

(** ** Comparison of numbers *)

Lemma is_nan_spec x : is_nan x = false <-> Prim2SF x <> S754_nan.
Proof.
  unfold is_nan. rewrite FloatAxioms.eqb_spec. unfold SFeqb. split.
  - intros H E. rewrite E in H. discriminate.
  - intros H. rewrite SFcompare_refl by assumption. reflexivity.
Qed.

(** A comparison that holds has numbers on both sides. *)
Lemma ltb_numbers x y :
  (x <? y) = true -> is_nan x = false /\ is_nan y = false.
Proof.
  rewrite FloatAxioms.ltb_spec, !is_nan_spec. unfold SFltb. intros H.
  split; intros E; rewrite E in H; simpl in H; try discriminate.
  destruct (Prim2SF x); discriminate.
Qed.

Lemma leb_numbers x y :
  (x <=? y) = true -> is_nan x = false /\ is_nan y = false.
Proof.
  rewrite FloatAxioms.leb_spec, !is_nan_spec. unfold SFleb. intros H.
  split; intros E; rewrite E in H; simpl in H; try discriminate.
  destruct (Prim2SF x); discriminate.
Qed.

Lemma eqb_numbers x y :
  (x =? y) = true -> is_nan x = false /\ is_nan y = false.
Proof.
  rewrite FloatAxioms.eqb_spec, !is_nan_spec. unfold SFeqb. intros H.
  split; intros E; rewrite E in H; simpl in H; try discriminate.
  destruct (Prim2SF x); discriminate.
Qed.

Lemma ltb_leb x y : (x <? y) = true -> (x <=? y) = true.
Proof.
  rewrite FloatAxioms.ltb_spec, FloatAxioms.leb_spec. unfold SFltb, SFleb.
  destruct (SFcompare _ _) as [[]|]; congruence.
Qed.

Lemma leb_trans x y z :
  (x <=? y) = true -> (y <=? z) = true -> (x <=? z) = true.
Proof. rewrite !FloatAxioms.leb_spec. apply SFleb_trans. Qed.

(** The order is total on numbers. *)
Lemma leb_total x y :
  is_nan x = false -> is_nan y = false ->
  (x <=? y) = false -> (y <? x) = true.
Proof.
  rewrite !is_nan_spec, FloatAxioms.leb_spec, FloatAxioms.ltb_spec.
  unfold SFleb, SFltb.
  intros Hx Hy. rewrite (SFcompare_antisym (Prim2SF x) (Prim2SF y)).
  destruct (SFcompare (Prim2SF x) (Prim2SF y)) as [[]|] eqn:E; simpl;
    try congruence.
  apply SFcompare_None in E. tauto.
Qed.

Lemma eqb_not_gtb x y : (x =? y) = true -> (y <? x) = false.
Proof.
  rewrite FloatAxioms.eqb_spec, FloatAxioms.ltb_spec. unfold SFeqb, SFltb.
  rewrite (SFcompare_antisym (Prim2SF x) (Prim2SF y)).
  destruct (SFcompare (Prim2SF x) (Prim2SF y)) as [[]|]; simpl; congruence.
Qed.

Lemma leb_not_gtb x y : (x <=? y) = true -> (y <? x) = false.
Proof.
  rewrite FloatAxioms.leb_spec, FloatAxioms.ltb_spec. unfold SFleb, SFltb.
  rewrite (SFcompare_antisym (Prim2SF x) (Prim2SF y)).
  destruct (SFcompare (Prim2SF x) (Prim2SF y)) as [[]|]; simpl; congruence.
Qed.

(** [===] is equality, except between 0 and -0. *)
Lemma eqb_eq x y : (x =? y) = true -> is_zero y = false -> x = y.
Proof.
  unfold is_zero. rewrite !FloatAxioms.eqb_spec.
  change (Prim2SF zero) with (S754_zero false).
  unfold SFeqb. intros E NZ. apply Prim2SF_inj. revert E NZ.
  destruct (Prim2SF x) as [sx|sx| |sx mx ex],
           (Prim2SF y) as [sy|sy| |sy my ey]; simpl;
    try discriminate;
    try (destruct sx; discriminate); try (destruct sy; discriminate).
  - destruct sx, sy; try discriminate; reflexivity.
  - destruct sx, sy; try discriminate; cmp_cases; try discriminate;
      intros _ _; subst; reflexivity.
Qed.

(** A NaN operand compares false. *)
Lemma nan_leb_l x y : is_nan x = true -> (x <=? y) = false.
Proof.
  intros N. destruct (x <=? y) eqn:L; [|reflexivity].
  apply leb_numbers in L. destruct L; congruence.
Qed.

Lemma nan_leb_r x y : is_nan y = true -> (x <=? y) = false.
Proof.
  intros N. destruct (x <=? y) eqn:L; [|reflexivity].
  apply leb_numbers in L. destruct L; congruence.
Qed.

(** ** Signs *)

Lemma Prim2SF_0 : Prim2SF 0 = S754_zero false.
Proof. reflexivity. Qed.

(** Case analysis on the class and the sign of [x]. *)
Ltac sign_cases x :=
  destruct (Prim2SF x) as [[]|[]| |[] ? ?]; simpl;
  try reflexivity; try discriminate; try congruence.

Lemma not_leb0_plus x : (x <=? 0) = false -> plus x = true.
Proof.
  unfold plus. rewrite FloatAxioms.leb_spec, Prim2SF_0. unfold SFleb.
  sign_cases x.
Qed.

Lemma gtb0_plus x : (0 <? x) = true -> plus x = true.
Proof.
  unfold plus. rewrite FloatAxioms.ltb_spec, Prim2SF_0. unfold SFltb.
  sign_cases x.
Qed.

Lemma plus_not_neg x : plus x = true -> (x <? 0) = false.
Proof.
  unfold plus. rewrite FloatAxioms.ltb_spec, Prim2SF_0. unfold SFltb.
  sign_cases x.
Qed.

Lemma plus_gtb0 x :
  plus x = true -> nonzeroNumber x = true -> (0 <? x) = true.
Proof.
  unfold plus, nonzeroNumber, is_zero, is_nan.
  rewrite !FloatAxioms.eqb_spec, FloatAxioms.ltb_spec, Prim2SF_0.
  unfold SFltb, SFeqb.
  sign_cases x.
Qed.

Lemma plus_geb0 x : plus x = true -> is_nan x = false -> (0 <=? x) = true.
Proof.
  unfold plus. rewrite is_nan_spec, FloatAxioms.leb_spec, Prim2SF_0.
  unfold SFleb.
  sign_cases x.
Qed.

(** 0 and -0 are <= every number that is not negative. *)
Lemma zero_leb_plus x y :
  is_zero x = true -> plus y = true -> is_nan y = false -> (x <=? y) = true.
Proof.
  unfold is_zero, plus.
  rewrite is_nan_spec, FloatAxioms.eqb_spec, FloatAxioms.leb_spec.
  change (Prim2SF zero) with (S754_zero false).
  unfold SFeqb, SFleb.
  sign_cases x; sign_cases y.
Qed.

(** Rounding keeps the sign it is given. *)
Lemma binary_round_aux_sign s m e l :
  match binary_round_aux prec emax s m e l with
  | S754_nan => True
  | S754_zero s' | S754_infinity s' | S754_finite s' _ _ => s' = s
  end.
Proof.
  unfold binary_round_aux.
  destruct (shr_fexp prec emax m e l) as [mrs' e'].
  destruct (shr_fexp prec emax _ e' loc_Exact) as [mrs'' e''].
  destruct (shr_m mrs''); [reflexivity | | exact I].
  destruct (Z.leb e'' (emax - prec)); reflexivity.
Qed.

Ltac round_sign :=
  match goal with
  | |- context [binary_round_aux prec emax ?s ?m ?e ?l] =>
      let H := fresh in
      pose proof (binary_round_aux_sign s m e l) as H;
      destruct (binary_round_aux prec emax s m e l); simpl in *; subst;
      try reflexivity; try discriminate
  end.

Lemma mul_plus x y : plus x = true -> plus y = true -> plus (x * y) = true.
Proof.
  unfold plus. rewrite mul_spec. unfold SF64mul, SFmul.
  sign_cases x; sign_cases y.
  intros _ _. round_sign.
Qed.

Lemma div_plus x y : plus x = true -> plus y = true -> plus (x / y) = true.
Proof.
  unfold plus. rewrite div_spec. unfold SF64div, SFdiv.
  sign_cases x; sign_cases y.
  intros _ _.
  destruct (SFdiv_core_binary prec emax _ _ _ _) as [[mz ez] lz].
  round_sign.
Qed.

Lemma add_plus x y : plus x = true -> plus y = true -> plus (x + y) = true.
Proof.
  unfold plus. rewrite add_spec. unfold SF64add, SFadd.
  sign_cases x; sign_cases y.
  intros _ _. unfold binary_round.
  destruct (shl_align _ _ _) as [mz ez]. round_sign.
Qed.

(** The product of a value that is not < 0 and a value <= 0 is never > 0. *)
Lemma mul_plus_nonpos x p :
  plus x = true -> (p <=? 0) = true -> (0 <? x * p) = false.
Proof.
  unfold plus.
  rewrite FloatAxioms.leb_spec, FloatAxioms.ltb_spec, mul_spec, Prim2SF_0.
  unfold SFleb, SFltb, SF64mul, SFmul.
  sign_cases x; sign_cases p.
  intros _ _. round_sign.
Qed.

#[global] Hint Resolve not_leb0_plus gtb0_plus mul_plus div_plus add_plus
  : binary64.

(** ** Operations that give numbers *)

Lemma add_numbers x y :
  is_nan (x + y) = false -> is_nan x = false /\ is_nan y = false.
Proof.
  rewrite !is_nan_spec, add_spec. unfold SF64add, SFadd. intros H.
  split; intros E; rewrite E in H; apply H; [reflexivity|].
  destruct (Prim2SF x); reflexivity.
Qed.

Lemma sub_nan x y :
  is_nan x = true \/ is_nan y = true -> is_nan (x - y) = true.
Proof.
  intros N. destruct (is_nan (x - y)) eqn:S; [reflexivity|exfalso].
  revert S N. rewrite is_nan_spec, sub_spec. unfold SF64sub, SFsub.
  intros S [N|N]; apply not_false_iff_true in N; apply N, is_nan_spec;
    intros E; rewrite E in S; apply S; [reflexivity|].
  destruct (Prim2SF x); reflexivity.
Qed.

Section Rounding.

#[local] Open Scope Z_scope.

(** *** Shifting a mantissa right *)

Lemma shr_1_nonneg mrs : 0 <= shr_m mrs -> 0 <= shr_m (shr_1 mrs).
Proof.
  destruct mrs as [m r s]. destruct m as [|[p|p|]|[p|p|]]; simpl; lia.
Qed.

Lemma iter_pos_shr_1_nonneg p mrs :
  0 <= shr_m mrs -> 0 <= shr_m (SpecFloat.iter_pos shr_1 p mrs).
Proof.
  revert mrs. induction p as [p IH|p IH|]; intros mrs H; simpl.
  - apply IH, IH, shr_1_nonneg, H.
  - apply IH, IH, H.
  - apply shr_1_nonneg, H.
Qed.

Lemma shr_1_div2 mrs : 0 <= shr_m mrs -> shr_m (shr_1 mrs) = shr_m mrs / 2.
Proof.
  intros H. rewrite <- Z.div2_div.
  destruct mrs as [m r s]. destruct m as [|[p|p|]|p]; simpl in *;
    try reflexivity; lia.
Qed.

Lemma iter_pos_shr_1_div p mrs :
  0 <= shr_m mrs ->
  shr_m (SpecFloat.iter_pos shr_1 p mrs) = shr_m mrs / 2 ^ Zpos p.
Proof.
  revert mrs.
  induction p as [p IH|p IH|]; intros mrs H; simpl SpecFloat.iter_pos.
  - rewrite IH, IH, shr_1_div2
      by auto using iter_pos_shr_1_nonneg, shr_1_nonneg.
    rewrite !Z.div_div by lia.
    f_equal. rewrite Pos2Z.inj_xI.
    replace (2 * Zpos p + 1) with (1 + Zpos p + Zpos p) by lia.
    rewrite !Z.pow_add_r, Z.pow_1_r by lia. ring.
  - rewrite IH, IH by auto using iter_pos_shr_1_nonneg.
    rewrite !Z.div_div by lia.
    f_equal. change (Z.pos p~0) with (2 * Z.pos p).
    replace (2 * Zpos p) with (Zpos p + Zpos p) by lia.
    rewrite !Z.pow_add_r by lia. ring.
  - rewrite shr_1_div2 by assumption. reflexivity.
Qed.

Lemma shr_fexp_nonneg m e l :
  0 <= m -> 0 <= shr_m (fst (shr_fexp prec emax m e l)).
Proof.
  intros H. unfold shr_fexp, shr.
  assert (R : 0 <= shr_m (shr_record_of_loc m l))
    by (destruct l as [|[]]; exact H).
  destruct (_ - e); simpl; auto using iter_pos_shr_1_nonneg.
Qed.

(** *** The number of digits of a mantissa *)

Lemma digits2_size m : digits2_pos m = Pos.size m.
Proof. induction m; simpl; congruence. Qed.

Lemma digits2_upper m : Zpos m < 2 ^ Zpos (digits2_pos m).
Proof.
  rewrite digits2_size. pose proof (Pos.size_gt m) as H.
  apply Pos2Z.pos_lt_pos in H. rewrite Pos2Z.inj_pow in H. exact H.
Qed.

Lemma digits2_lower m : 2 ^ (Zpos (digits2_pos m) - 1) <= Zpos m.
Proof.
  rewrite digits2_size. pose proof (Pos.size_le m) as H.
  apply Pos2Z.pos_le_pos in H. rewrite Pos2Z.inj_pow in H.
  change (Z.pos m~0) with (2 * Z.pos m) in H.
  replace (Zpos (Pos.size m)) with (1 + (Zpos (Pos.size m) - 1)) in H by lia.
  rewrite Z.pow_add_r, Z.pow_1_r in H by lia. lia.
Qed.

(** *** Rounding *)

(** Rounding a mantissa that is not negative gives a number. *)
Lemma binary_round_aux_number s m e l :
  0 <= m -> binary_round_aux prec emax s m e l <> S754_nan.
Proof.
  intros H. unfold binary_round_aux.
  pose proof (shr_fexp_nonneg m e l H) as H1.
  destruct (shr_fexp prec emax m e l) as [mrs' e']. simpl in H1.
  assert (H2 : 0 <= round_nearest_even (shr_m mrs')
                      (loc_of_shr_record mrs')).
  { unfold round_nearest_even.
    destruct (loc_of_shr_record mrs') as [|[]]; try destruct (Z.even _); lia. }
  pose proof (shr_fexp_nonneg _ e' loc_Exact H2) as H3.
  destruct (shr_fexp prec emax _ e' loc_Exact) as [mrs'' e'']. simpl in H3.
  destruct (shr_m mrs''); [discriminate| |lia].
  destruct (Z.leb _ _); discriminate.
Qed.

(** At an exponent that is not below the least one, the shift keeps some
    digit of a mantissa > 0. *)
Lemma shr_fexp_pos m e l :
  0 < m -> emin <= e ->
  0 < shr_m (fst (shr_fexp prec emax m e l)) /\
  emin <= snd (shr_fexp prec emax m e l).
Proof.
  intros Hm He. destruct m as [|mp|mp]; try lia.
  unfold shr_fexp, shr, fexp, Zdigits2.
  assert (R : shr_m (shr_record_of_loc (Z.pos mp) l) = Z.pos mp)
    by (destruct l as [|[]]; reflexivity).
  pose proof (digits2_lower mp) as Lower.
  unfold SpecFloat.emin, prec, emax in *.
  destruct (Z.max _ _ - e) as [|n|n] eqn:N; cbn [fst snd]; try lia.
  rewrite iter_pos_shr_1_div by lia. rewrite R. split; [|lia].
  apply Z.div_str_pos. split; [apply Z.pow_pos_nonneg; lia|].
  apply Z.le_trans with (2 := Lower). apply Z.pow_le_mono_r; lia.
Qed.

(** So rounding it gives a number > 0, or +Infinity. *)
Lemma binary_round_aux_pos m e l :
  0 < m -> emin <= e ->
  sf_positive (binary_round_aux prec emax false m e l) = true.
Proof.
  intros Hm He. unfold binary_round_aux.
  destruct (shr_fexp_pos m e l Hm He) as [H1 E1].
  destruct (shr_fexp prec emax m e l) as [mrs' e']. cbn [fst snd] in *.
  assert (H2 : 0 < round_nearest_even (shr_m mrs') (loc_of_shr_record mrs')).
  { unfold round_nearest_even.
    destruct (loc_of_shr_record mrs') as [|[]]; try destruct (Z.even _); lia. }
  destruct (shr_fexp_pos _ e' loc_Exact H2 E1) as [H3 _].
  destruct (shr_fexp prec emax _ e' loc_Exact) as [mrs'' e'']. cbn [fst] in H3.
  destruct (shr_m mrs''); try lia.
  destruct (Z.leb _ _); reflexivity.
Qed.

Lemma shl_align_spec m e e' :
  e' <= e -> Z.pos (fst (shl_align m e e')) = Z.pos m * 2 ^ (e - e').
Proof.
  intros H. unfold shl_align.
  destruct (e' - e) as [|d|d] eqn:D; cbn [fst]; try lia.
  - replace (e - e') with 0 by lia. lia.
  - replace (e - e') with (Z.pos d) by lia.
    change (Pos.iter xO m d) with (shift_pos d m).
    rewrite shift_pos_correct. change (Z.pow_pos 2 d) with (2 ^ Z.pos d). ring.
Qed.

Lemma binary_round_pos m e :
  emin <= e -> sf_positive (binary_round prec emax false m e) = true.
Proof.
  intros He. unfold binary_round.
  destruct (shl_align m e _) as [mz ez] eqn:A.
  apply binary_round_aux_pos; [lia|].
  unfold shl_align in A.
  destruct (_ - e) eqn:D; injection A as <- <-; try lia.
  unfold fexp. lia.
Qed.

(** *** Subtraction *)

(** A valid finite value: its exponent and the size of its mantissa. *)
Lemma valid_finite s m e :
  valid_binary (S754_finite s m e) = true ->
  emin <= e /\ Z.pos m < 2 ^ prec /\ (emin < e -> 2 ^ (prec - 1) <= Z.pos m).
Proof.
  unfold valid_binary, bounded, canonical_mantissa, fexp.
  intros V. apply andb_prop in V as [C _]. apply Z.eqb_eq in C.
  pose proof (digits2_upper m) as U. pose proof (digits2_lower m) as L.
  unfold SpecFloat.emin, prec, emax in *.
  split; [lia|]. split.
  - apply Z.lt_le_trans with (1 := U). apply Z.pow_le_mono_r; lia.
  - intros E. replace (Z.pos (digits2_pos m)) with 53 in L by lia. exact L.
Qed.

(** Between valid values of one sign, the larger exponent wins. *)
Lemma larger_exponent m e m' e' :
  Z.pos m < 2 ^ prec -> 2 ^ (prec - 1) <= Z.pos m' -> e < e' ->
  Z.pos m < Z.pos m' * 2 ^ (e' - e).
Proof.
  intros U L E.
  assert (P : 2 ^ 1 <= 2 ^ (e' - e)) by (apply Z.pow_le_mono_r; lia).
  unfold prec in *. change (2 ^ 53) with (2 ^ 52 * 2 ^ 1) in U.
  change (2 ^ (53 - 1)) with (2 ^ 52) in L. nia.
Qed.

(** The difference of two valid values, the larger first, is > 0: it is
    the rounding of an integer > 0 at an exponent that is not below the least
    one. *)
Lemma SFsub_lt_positive x y :
  valid_binary x = true -> valid_binary y = true ->
  SFltb x y = true -> sf_positive (SF64sub y x) = true.
Proof.
  unfold SFltb, SF64sub, SFsub.
  destruct x as [[]|[]| |sx mx ex], y as [[]|[]| |sy my ey];
    try (intros _ _; simpl; try discriminate; try reflexivity;
         try (destruct sx; discriminate || reflexivity);
         try (destruct sy; discriminate || reflexivity); fail).
  intros Vx Vy.
  destruct (valid_finite _ _ _ Vx) as (Ex & Ux & Lx).
  destruct (valid_finite _ _ _ Vy) as (Ey & Uy & Ly).
  cbn [SFcompare]. intros Lt. cbv zeta.
  match goal with
  | |- context [binary_normalize _ _ ?d ?e _] => set (diff := d); set (ez := e)
  end.
  assert (D : 0 < diff).
  { subst diff. rewrite !shl_align_spec by (subst ez; lia).
    destruct sx, sy; cbn [cond_Zopp]; try discriminate; try lia.
    - (* both negative: the exponent of [x] is the larger one *)
      destruct (Z.compare_spec ex ey) as [E|E|E]; try discriminate.
      + subst ey.
        change (Pos.compare_cont Eq mx my) with (Pos.compare mx my) in Lt.
        destruct (Pos.compare_spec mx my); try discriminate.
        subst ez. rewrite Z.min_id, Z.sub_diag. lia.
      + subst ez. rewrite Z.min_l, Z.sub_diag by lia.
        pose proof (larger_exponent my ey mx ex Uy (Lx ltac:(lia)) E). lia.
    - (* both positive: the exponent of [y] is the larger one *)
      destruct (Z.compare_spec ex ey) as [E|E|E]; try discriminate.
      + subst ey.
        change (Pos.compare_cont Eq mx my) with (Pos.compare mx my) in Lt.
        destruct (Pos.compare_spec mx my); try discriminate.
        subst ez. rewrite Z.min_id, Z.sub_diag. lia.
      + subst ez. rewrite Z.min_r, Z.sub_diag by lia.
        pose proof (larger_exponent mx ex my ey Ux (Ly ltac:(lia)) E). lia. }
  unfold binary_normalize. destruct diff; try lia.
  apply binary_round_pos. subst ez. lia.
Qed.

End Rounding.

(** The product of two numbers > 0 is a number. *)
Lemma mul_pos_number x y :
  (0 <? x) = true -> (0 <? y) = true -> is_nan (x * y) = false.
Proof.
  rewrite is_nan_spec, !FloatAxioms.ltb_spec, mul_spec, Prim2SF_0.
  unfold SFltb, SF64mul, SFmul.
  sign_cases x; sign_cases y.
  intros _ _. apply binary_round_aux_number. lia.
Qed.

(** The difference of two numbers, the larger first, is > 0: there is no
    underflow to 0 in a subtraction. *)
Lemma sub_gt0 x y : (x <? y) = true -> (0 <? y - x) = true.
Proof.
  rewrite !FloatAxioms.ltb_spec, sub_spec. intros Lt.
  pose proof (SFsub_lt_positive _ _ (Prim2SF_valid x) (Prim2SF_valid y) Lt)
    as P.
  rewrite Prim2SF_0.
  destruct (SF64sub _ _) as [[]|[]| |[] ? ?]; try discriminate; reflexivity.
Qed.

(** Hence [y - x <= 0] is false whenever [y <= x] is. *)
Lemma sub_not_leb0 x y : (y <=? x) = false -> (y - x <=? 0) = false.
Proof.
  intros G.
  destruct (is_nan x) eqn:Nx; [apply nan_leb_l, sub_nan; auto|].
  destruct (is_nan y) eqn:Ny; [apply nan_leb_l, sub_nan; auto|].
  apply leb_total in G; [|assumption|assumption].
  apply sub_gt0 in G.
  destruct (y - x <=? 0) eqn:L; [|reflexivity].
  apply leb_not_gtb in L. congruence.
Qed.

(** ** Values > 0 *)

Lemma gtb_not_leb x y : (x <? y) = true -> (y <=? x) = false.
Proof.
  intros Lt. destruct (y <=? x) eqn:Le; [|reflexivity].
  apply leb_not_gtb in Le. congruence.
Qed.

Lemma positive_gtb0 x : sf_positive (Prim2SF x) = true <-> (0 <? x) = true.
Proof.
  rewrite FloatAxioms.ltb_spec, Prim2SF_0. unfold SFltb.
  destruct (Prim2SF x) as [[]|[]| |[] ? ?]; simpl; split; congruence.
Qed.

Lemma ltb_infinity_finite c :
  (c <? infinity) = true -> Prim2SF c <> S754_infinity false.
Proof.
  rewrite FloatAxioms.ltb_spec. unfold SFltb. intros L E. rewrite E in L.
  discriminate L.
Qed.

(** A value that is neither negative nor > 0 is 0. *)
Lemma plus_leb0_zero x : plus x = true -> (x <=? 0) = true -> is_zero x = true.
Proof.
  unfold plus, is_zero. rewrite FloatAxioms.leb_spec, FloatAxioms.eqb_spec.
  change (Prim2SF zero) with (S754_zero false). rewrite Prim2SF_0.
  unfold SFleb, SFeqb.
  sign_cases x.
Qed.

(** The sum of a number > 0 and a number that is not negative is > 0: the
    sum of two mantissas > 0 is rounded at an exponent that is not below the
    least one. *)
Lemma SFadd_positive x y :
  valid_binary x = true -> valid_binary y = true ->
  sf_positive x = true -> sf_plus y = true -> y <> S754_nan ->
  sf_positive (SF64add x y) = true.
Proof.
  unfold SF64add, SFadd. intros Vx Vy.
  destruct x as [[]|[]| |[] mx ex], y as [[]|[]| |[] my ey];
    cbn [sf_positive sf_plus negb cond_Zopp];
    try discriminate; try reflexivity; try congruence.
  intros _ _ _. cbv zeta. cbn [Z.add binary_normalize].
  destruct (valid_finite _ _ _ Vx) as (Ex & _).
  destruct (valid_finite _ _ _ Vy) as (Ey & _).
  apply binary_round_pos. lia.
Qed.

Lemma add_pos x y :
  (0 <? x) = true -> plus y = true -> is_nan y = false ->
  (0 <? x + y) = true.
Proof.
  rewrite <- !positive_gtb0, is_nan_spec, add_spec. unfold plus.
  intros. apply SFadd_positive; auto using Prim2SF_valid.
Qed.

(** The quotient of two mantissas > 0 is not negative. *)
Lemma SFdiv_core_nonneg m1 e1 m2 e2 :
  (0 <= fst (fst (SFdiv_core_binary prec emax (Z.pos m1) e1 (Z.pos m2) e2)))%Z.
Proof.
  unfold SFdiv_core_binary.
  match goal with
  | |- context [Z.div_eucl ?a ?b] =>
      pose proof (Z.div_eucl_eq a b ltac:(lia)) as E;
      pose proof (Z.mod_pos_bound a b ltac:(lia)) as B;
      assert (A : (0 <= a)%Z)
  end.
  { destruct (_ - _ - _)%Z; try lia. apply Z.shiftl_nonneg. lia. }
  unfold Z.modulo in B.
  destruct (Z.div_eucl _ _) as [q r]. cbn [fst]. nia.
Qed.

(** The quotient of two numbers > 0 is NaN only for Infinity / Infinity. *)
Lemma div_number x y :
  (0 <? x) = true -> (0 <? y) = true -> is_nan (x / y) = true ->
  Prim2SF x = S754_infinity false /\ Prim2SF y = S754_infinity false.
Proof.
  rewrite <- !positive_gtb0. intros Px Py N.
  destruct (Prim2SF x) as [[]|[]| |[] mx ex] eqn:Ex,
           (Prim2SF y) as [[]|[]| |[] my ey] eqn:Ey;
    try discriminate; auto; exfalso;
    apply not_false_iff_true in N; apply N; apply is_nan_spec;
    rewrite div_spec, Ex, Ey; unfold SF64div, SFdiv; try discriminate.
  pose proof (SFdiv_core_nonneg mx ex my ey) as Q.
  destruct (SFdiv_core_binary _ _ _ _ _ _) as [[mz ez] lz].
  apply binary_round_aux_number. exact Q.
Qed.

Lemma div_pos_finite x c :
  (0 <? x) = true -> finitePositive c = true -> is_nan (x / c) = false.
Proof.
  unfold finitePositive. intros Px Pc. apply andb_prop in Pc as [Pc Fc].
  destruct (is_nan (x / c)) eqn:N; [exfalso|reflexivity].
  destruct (div_number x c Px Pc N) as [_ E].
  exact (ltb_infinity_finite c Fc E).
Qed.

(** The product of a number that is not negative and a finite number > 0 is
    a number. *)
Lemma mul_plus_finite t d :
  plus t = true -> is_nan t = false -> finitePositive d = true ->
  is_nan (t * d) = false.
Proof.
  unfold finitePositive, plus. intros Pt Nt Pd.
  apply andb_prop in Pd as [Pd Fd].
  apply ltb_infinity_finite in Fd. apply positive_gtb0 in Pd.
  revert Pt Nt Pd Fd. rewrite !is_nan_spec, mul_spec. unfold SF64mul, SFmul.
  destruct (Prim2SF t) as [[]|[]| |[] mt et],
           (Prim2SF d) as [[]|[]| |[] md ed];
    simpl; try discriminate; try congruence.
  intros _ _ _ _. apply binary_round_aux_number. lia.
Qed.

Lemma mul_infinity x y :
  Prim2SF x = S754_infinity false -> (0 <? y) = true ->
  Prim2SF (x * y) = S754_infinity false.
Proof.
  rewrite <- positive_gtb0, mul_spec. intros ->. unfold SF64mul, SFmul.
  destruct (Prim2SF y) as [[]|[]| |[] my ey]; simpl; try discriminate;
    reflexivity.
Qed.

(** The product of two values that are not < 0, the first one not -0
    either, is not < 0. *)
Lemma mul_plus_not_neg x p :
  plus x = true -> (p <? 0) = false -> (x * p <? 0) = false.
Proof.
  unfold plus.
  rewrite !FloatAxioms.ltb_spec, mul_spec, Prim2SF_0.
  unfold SFltb, SF64mul, SFmul.
  sign_cases x; sign_cases p.
  intros _ _. round_sign.
Qed.

(** ** Monotone rounding

    Every operation on doubles > 0 rounds an exact quotient of integers; the
    rounding is monotone, and so are the operations. *)

Section Monotone.

#[local] Open Scope Z_scope.

(** A quotient and the location of its remainder, and what a shift by one
    bit makes of them: the quotient by twice the divisor. *)
Lemma located_of_loc N D :
  located N D (shr_record_of_loc (N / D) (loc_of (N mod D) D)).
Proof.
  split.
  - destruct (loc_of _ _) as [|[]]; reflexivity.
  - destruct (loc_of _ _) as [|[]]; reflexivity.
Qed.

Lemma shr_1_located N D mrs :
  0 < D -> 0 <= N -> located N D mrs -> located N (2 * D) (shr_1 mrs).
Proof.
  intros HD HN [Hm Hl].
  pose proof (Z.div_mod N D ltac:(lia)) as E.
  pose proof (Z.mod_pos_bound N D HD) as B.
  assert (Q : 0 <= N / D) by (apply Z.div_pos; lia).
  assert (Ediv : N / (2 * D) = N / D / 2)
    by (rewrite Z.mul_comm, Z.div_div by lia; reflexivity).
  assert (Emod : N mod (2 * D) = N mod D + D * ((N / D) mod 2))
    by (rewrite (Z.mul_comm 2 D); apply Z.rem_mul_r; lia).
  unfold located. rewrite Ediv, Emod.
  set (q := N / D) in *. set (r := N mod D) in *.
  destruct mrs as [m rb sb]. cbn [shr_m] in Hm. subst m.
  unfold loc_of in *.
  assert (Hs : (rb || sb)%bool = negb (r =? 0)).
  { revert Hl. cbn [loc_of_shr_record].
    destruct (Z.eqb_spec r 0), rb, sb; try discriminate; reflexivity. }
  cbn [shr_1]. rewrite Hs.
  destruct q as [|[p|p|]|p]; try lia; cbn [shr_m loc_of_shr_record].
  - (* 0 *)
    change (0 / 2) with 0. change (0 mod 2) with 0.
    rewrite Z.mul_0_r, Z.add_0_r.
    split; [reflexivity|].
    destruct (Z.eqb_spec r 0); cbn [negb]; [reflexivity|].
    f_equal. symmetry. apply Z.compare_lt_iff. lia.
  - (* 2p+1 *)
    rewrite Pos2Z.inj_xI.
    replace ((2 * Z.pos p + 1) / 2) with (Z.pos p)
      by (apply Z.div_unique with 1; lia).
    replace ((2 * Z.pos p + 1) mod 2) with 1
      by (apply Z.mod_unique with (Z.pos p); lia).
    split; [reflexivity|].
    destruct (Z.eqb_spec (r + D * 1) 0); [lia|].
    destruct (Z.eqb_spec r 0); cbn [negb]; f_equal; symmetry.
    + apply Z.compare_eq_iff. lia.
    + apply Z.compare_gt_iff. lia.
  - (* 2p *)
    rewrite Pos2Z.inj_xO.
    replace (2 * Z.pos p / 2) with (Z.pos p)
      by (apply Z.div_unique with 0; lia).
    replace ((2 * Z.pos p) mod 2) with 0
      by (apply Z.mod_unique with (Z.pos p); lia).
    rewrite Z.mul_0_r, Z.add_0_r.
    split; [reflexivity|].
    destruct (Z.eqb_spec r 0); cbn [negb]; [reflexivity|].
    f_equal. symmetry. apply Z.compare_lt_iff. lia.
  - (* 1 *)
    change (1 / 2) with 0. change (1 mod 2) with 1.
    split; [reflexivity|].
    destruct (Z.eqb_spec (r + D * 1) 0); [lia|].
    destruct (Z.eqb_spec r 0); cbn [negb]; f_equal; symmetry.
    + apply Z.compare_eq_iff. lia.
    + apply Z.compare_gt_iff. lia.
Qed.

Lemma iter_pos_located p N D mrs :
  0 < D -> 0 <= N -> located N D mrs ->
  located N (D * 2 ^ Zpos p) (SpecFloat.iter_pos shr_1 p mrs).
Proof.
  revert D mrs.
  induction p as [p IH|p IH|]; intros D mrs HD HN L; simpl SpecFloat.iter_pos.
  - apply shr_1_located in L; [|lia|lia].
    apply IH in L; [|lia|lia]. apply IH in L; [|nia|lia].
    replace (D * 2 ^ Z.pos p~1) with (2 * D * 2 ^ Z.pos p * 2 ^ Z.pos p);
      [exact L|].
    rewrite Pos2Z.inj_xI.
    replace (2 * Zpos p + 1) with (1 + Zpos p + Zpos p) by lia.
    rewrite !Z.pow_add_r, Z.pow_1_r by lia. ring.
  - apply IH in L; [|lia|lia]. apply IH in L; [|nia|lia].
    replace (D * 2 ^ Z.pos p~0) with (D * 2 ^ Z.pos p * 2 ^ Z.pos p);
      [exact L|].
    change (Z.pos p~0) with (2 * Z.pos p).
    replace (2 * Zpos p) with (Zpos p + Zpos p) by lia.
    rewrite !Z.pow_add_r by lia. ring.
  - apply shr_1_located in L; [|lia|lia].
    replace (D * 2 ^ 1) with (2 * D) by lia. exact L.
Qed.

(** ** Rounding a quotient to the nearest integer, ties to even *)

(** [round_nearest_even] on a located quotient. *)
Lemma round_located N D mrs :
  0 < D -> located N D mrs ->
  round_nearest_even (shr_m mrs) (loc_of_shr_record mrs) = rne N D.
Proof.
  intros HD [-> ->]. unfold loc_of, rne.
  destruct (Z.eqb_spec (N mod D) 0) as [E|E].
  - rewrite E. cbn [round_nearest_even].
    destruct (Z.compare_spec (2 * 0) D); try lia; reflexivity.
  - cbn [round_nearest_even]. destruct (2 * (N mod D) ?= D); reflexivity.
Qed.

Lemma rne_bounds N D : 0 < D -> N / D <= rne N D <= N / D + 1.
Proof.
  intros HD. unfold rne.
  destruct (_ ?= _); try destruct (Z.even _); lia.
Qed.

Lemma rne_exact N D : 0 < D -> N mod D = 0 -> rne N D = N / D.
Proof.
  intros HD E. unfold rne. rewrite E.
  destruct (Z.compare_spec (2 * 0) D); try lia; reflexivity.
Qed.

Lemma div_le_cross N1 D1 N2 D2 :
  0 < D1 -> 0 < D2 -> 0 <= N1 -> N1 * D2 <= N2 * D1 -> N1 / D1 <= N2 / D2.
Proof.
  intros H1 H2 HN H.
  pose proof (Z.div_mod N1 D1 ltac:(lia)) as E1.
  pose proof (Z.mod_pos_bound N1 D1 H1) as B1.
  pose proof (Z.div_mod N2 D2 ltac:(lia)) as E2.
  pose proof (Z.mod_pos_bound N2 D2 H2) as B2.
  set (q1 := N1 / D1) in *. set (q2 := N2 / D2) in *.
  set (r1 := N1 mod D1) in *. set (r2 := N2 mod D2) in *.
  destruct (Z.le_gt_cases q1 q2) as [L|L]; [exact L|exfalso].
  assert (q2 + 1 <= q1) by lia.
  assert (N2 < (q2 + 1) * D2) by lia.
  assert (q1 * D1 <= N1) by lia.
  assert (N2 * D1 < (q2 + 1) * D2 * D1) by nia.
  assert ((q2 + 1) * D2 * D1 <= q1 * D1 * D2) by nia.
  assert (q1 * D1 * D2 <= N1 * D2) by nia.
  lia.
Qed.

Lemma rne_mono N1 D1 N2 D2 :
  0 < D1 -> 0 < D2 -> 0 <= N1 -> N1 * D2 <= N2 * D1 ->
  rne N1 D1 <= rne N2 D2.
Proof.
  intros H1 H2 HN H.
  pose proof (div_le_cross N1 D1 N2 D2 H1 H2 HN H) as Q.
  pose proof (rne_bounds N1 D1 H1) as B1.
  pose proof (rne_bounds N2 D2 H2) as B2.
  destruct (Z.eq_dec (N1 / D1) (N2 / D2)) as [E|E]; [|lia].
  pose proof (Z.div_mod N1 D1 ltac:(lia)) as E1.
  pose proof (Z.mod_pos_bound N1 D1 H1) as M1.
  pose proof (Z.div_mod N2 D2 ltac:(lia)) as E2.
  pose proof (Z.mod_pos_bound N2 D2 H2) as M2.
  unfold rne in *. rewrite <- E in *.
  set (q := N1 / D1) in *.
  set (r1 := N1 mod D1) in *. set (r2 := N2 mod D2) in *.
  assert (R : r1 * D2 <= r2 * D1) by nia.
  destruct (Z.compare_spec (2 * r1) D1) as [C1|C1|C1],
           (Z.compare_spec (2 * r2) D2) as [C2|C2|C2];
    try destruct (Z.even q); try lia; exfalso; nia.
Qed.

Lemma rne_scale N D c : 0 < D -> 0 < c -> rne (N * c) (D * c) = rne N D.
Proof.
  intros HD Hc. unfold rne.
  rewrite Z.div_mul_cancel_r by lia.
  rewrite Z.mul_mod_distr_r by lia.
  replace (2 * (N mod D * c)) with (2 * (N mod D) * c) by ring.
  rewrite (Z.mul_comm _ c), (Z.mul_comm D c).
  rewrite <- Zmult_compare_compat_l by lia. reflexivity.
Qed.

(** ** What [binary_round_aux] computes *)

Lemma Zdigits2_bounds m :
  0 < m -> 2 ^ (Zdigits2 m - 1) <= m < 2 ^ Zdigits2 m.
Proof.
  destruct m as [|p|p]; try lia. intros _. cbn [Zdigits2].
  split; [apply digits2_lower | apply digits2_upper].
Qed.

Lemma Zdigits2_nonneg m : 0 <= Zdigits2 m.
Proof. destruct m; simpl; lia. Qed.

Lemma Zdigits2_le m k : 0 <= k -> 0 <= m < 2 ^ k -> Zdigits2 m <= k.
Proof.
  intros Hk [H0 H]. destruct (Z.eq_dec m 0) as [->|NZ]; [simpl; lia|].
  destruct (Zdigits2_bounds m ltac:(lia)) as [L _].
  destruct (Z.le_gt_cases (Zdigits2 m) k) as [|G]; [assumption|exfalso].
  assert (2 ^ k <= 2 ^ (Zdigits2 m - 1)) by (apply Z.pow_le_mono_r; lia).
  lia.
Qed.

Lemma Zdigits2_ge m k : 0 <= k -> 2 ^ k <= m -> k + 1 <= Zdigits2 m.
Proof.
  intros Hk H.
  assert (0 < 2 ^ k) by (apply Z.pow_pos_nonneg; lia).
  destruct (Zdigits2_bounds m ltac:(lia)) as [_ U].
  destruct (Z.le_gt_cases (k + 1) (Zdigits2 m)) as [|G]; [assumption|exfalso].
  assert (2 ^ Zdigits2 m <= 2 ^ k).
  { apply Z.pow_le_mono_r; [lia|]. lia. }
  lia.
Qed.

Lemma Zdigits2_mono m1 m2 : 0 <= m1 <= m2 -> Zdigits2 m1 <= Zdigits2 m2.
Proof.
  intros [H0 H]. destruct (Z.eq_dec m1 0) as [->|NZ].
  - apply Zdigits2_nonneg.
  - destruct (Zdigits2_bounds m1 ltac:(lia)) as [L _].
    pose proof (Zdigits2_nonneg m1).
    assert (1 <= Zdigits2 m1).
    { destruct m1; simpl in *; lia. }
    pose proof (Zdigits2_ge m2 (Zdigits2 m1 - 1) ltac:(lia) ltac:(lia)). lia.
Qed.

Lemma shr_fexp_located N D e :
  0 < D -> 0 <= N ->
  e <= fexp prec emax (Zdigits2 (N / D) + e) ->
  snd (shr_fexp prec emax (N / D) e (loc_of (N mod D) D))
    = fexp prec emax (Zdigits2 (N / D) + e) /\
  located N (D * 2 ^ (fexp prec emax (Zdigits2 (N / D) + e) - e))
    (fst (shr_fexp prec emax (N / D) e (loc_of (N mod D) D))).
Proof.
  intros HD HN C. unfold shr_fexp, shr.
  pose proof (located_of_loc N D) as L.
  set (fe := fexp prec emax (Zdigits2 (N / D) + e)) in *.
  destruct (fe - e) as [|n|n] eqn:Hn; cbn [fst snd]; try lia.
  - split; [lia|]. rewrite Z.mul_1_r. exact L.
  - split; [lia|]. apply iter_pos_located; assumption.
Qed.

(** The shifted mantissa has at most [prec] digits, and exactly [prec] of
    them above the least exponent. *)
Lemma shifted_mantissa N D e :
  0 < D -> 0 <= N ->
  let fe := fexp prec emax (Zdigits2 (N / D) + e) in
  e <= fe ->
  0 <= N / (D * 2 ^ (fe - e)) < 2 ^ prec /\
  (emin < fe -> 2 ^ (prec - 1) <= N / (D * 2 ^ (fe - e))).
Proof.
  intros HD HN fe C.
  assert (P : 0 < 2 ^ (fe - e)) by (apply Z.pow_pos_nonneg; lia).
  rewrite <- Z.div_div by lia.
  set (m := N / D) in *.
  assert (Hm : 0 <= m) by (apply Z.div_pos; lia).
  pose proof (Zdigits2_nonneg m) as Dn.
  unfold fexp, SpecFloat.emin, prec, emax in *.
  split; [split|].
  - apply Z.div_pos; lia.
  - apply Z.div_lt_upper_bound; [lia|].
    destruct (Z.eq_dec m 0) as [->|NZ]; [lia|].
    destruct (Zdigits2_bounds m ltac:(lia)) as [_ U].
    apply Z.lt_le_trans with (1 := U).
    rewrite <- Z.pow_add_r by lia. apply Z.pow_le_mono_r; lia.
  - intros Hfe.
    destruct (Z.eq_dec m 0) as [E|NZ].
    { exfalso. subst fe. rewrite E in *. simpl in *. lia. }
    destruct (Zdigits2_bounds m ltac:(lia)) as [L _].
    apply Z.div_le_lower_bound; [lia|].
    apply Z.le_trans with (2 := L).
    rewrite <- Z.pow_add_r by lia. apply Z.pow_le_mono_r; lia.
Qed.

(** The second shift renormalises a mantissa that the rounding has carried
    to [2 ^ prec], and only that one. *)
Lemma shr_fexp_carry q fe :
  emin <= fe -> 0 <= q <= 2 ^ prec ->
  shr_fexp prec emax q fe loc_Exact =
  if q =? 2 ^ prec
  then ({| shr_m := 2 ^ (prec - 1); shr_r := false; shr_s := false |}, fe + 1)
  else ({| shr_m := q; shr_r := false; shr_s := false |}, fe).
Proof.
  intros Hfe [H0 Hq]. unfold shr_fexp, shr.
  destruct (Z.eqb_spec q (2 ^ prec)) as [->|NE].
  - change (Zdigits2 (2 ^ prec)) with 54.
    unfold fexp, SpecFloat.emin, prec, emax in *.
    replace (Z.max (54 + fe - 53) (3 - 1024 - 53) - fe) with 1 by lia.
    reflexivity.
  - assert (Dq : Zdigits2 q <= prec)
      by (apply Zdigits2_le; unfold prec in *; lia).
    unfold fexp, SpecFloat.emin, prec, emax in *.
    destruct (Z.max _ _ - fe) eqn:S; try lia; reflexivity.
Qed.

Lemma fexp_ge_emin k : emin <= fexp prec emax k.
Proof. unfold fexp, SpecFloat.emin. lia. Qed.

Lemma binary_round_aux_spec N D e :
  0 < D -> 0 <= N ->
  e <= fexp prec emax (Zdigits2 (N / D) + e) ->
  binary_round_aux prec emax false (N / D) e (loc_of (N mod D) D)
  = round_pos N D e.
Proof.
  intros HD HN C. unfold binary_round_aux, round_pos.
  destruct (shr_fexp_located N D e HD HN C) as [Efe L].
  destruct (shifted_mantissa N D e HD HN C) as [[M0 M] _].
  set (fe := fexp prec emax (Zdigits2 (N / D) + e)) in *.
  destruct (shr_fexp prec emax (N / D) e _) as [mrs' e']. cbn [fst snd] in *.
  subst e'.
  assert (P : 0 < D * 2 ^ (fe - e))
    by (apply Z.mul_pos_pos; [lia|apply Z.pow_pos_nonneg; lia]).
  rewrite (round_located _ _ _ P L).
  pose proof (rne_bounds N (D * 2 ^ (fe - e)) P) as B.
  set (q := rne N (D * 2 ^ (fe - e))) in *.
  rewrite shr_fexp_carry by (try apply fexp_ge_emin; lia).
  destruct (Z.eqb_spec q (2 ^ prec)) as [E|NE]; cbn [shr_m].
  - reflexivity.
  - destruct q; try lia; reflexivity.
Qed.

(** ** Rounding is monotone *)

Lemma fexp_mono a b : a <= b -> fexp prec emax a <= fexp prec emax b.
Proof. unfold fexp. lia. Qed.

Lemma round_pos_mono N1 D1 N2 D2 e :
  0 < D1 -> 0 < D2 -> 0 <= N1 -> 0 <= N2 ->
  e <= fexp prec emax (Zdigits2 (N1 / D1) + e) ->
  e <= fexp prec emax (Zdigits2 (N2 / D2) + e) ->
  N1 * D2 <= N2 * D1 ->
  SFleb (round_pos N1 D1 e) (round_pos N2 D2 e) = true.
Proof.
  intros H1 H2 HN1 HN2 C1 C2 H.
  pose proof (div_le_cross N1 D1 N2 D2 H1 H2 HN1 H) as Q.
  assert (Q0 : 0 <= N1 / D1) by (apply Z.div_pos; lia).
  pose proof (Zdigits2_mono _ _ (conj Q0 Q)) as Dg.
  destruct (shifted_mantissa N1 D1 e H1 HN1 C1) as [[M10 M1] _].
  destruct (shifted_mantissa N2 D2 e H2 HN2 C2) as [[M20 M2] Normal2].
  unfold round_pos.
  set (fe1 := fexp prec emax (Zdigits2 (N1 / D1) + e)) in *.
  set (fe2 := fexp prec emax (Zdigits2 (N2 / D2) + e)) in *.
  assert (Fe : fe1 <= fe2) by (apply fexp_mono; lia).
  pose proof (fexp_ge_emin (Zdigits2 (N1 / D1) + e)) as Emin1. fold fe1 in Emin1.
  assert (P1 : 0 < D1 * 2 ^ (fe1 - e))
    by (apply Z.mul_pos_pos; [lia|apply Z.pow_pos_nonneg; lia]).
  assert (P2 : 0 < D2 * 2 ^ (fe2 - e))
    by (apply Z.mul_pos_pos; [lia|apply Z.pow_pos_nonneg; lia]).
  pose proof (rne_bounds N1 _ P1) as B1.
  pose proof (rne_bounds N2 _ P2) as B2.
  assert (Qle : fe1 = fe2 ->
                rne N1 (D1 * 2 ^ (fe1 - e)) <= rne N2 (D2 * 2 ^ (fe2 - e))).
  { intros E. rewrite <- E in *.
    apply rne_mono; try assumption.
    assert (0 < 2 ^ (fe1 - e)) by (apply Z.pow_pos_nonneg; lia).
    nia. }
  set (q1 := rne N1 _) in *. set (q2 := rne N2 _) in *.
  assert (T : 0 < 2 ^ (prec - 1) < 2 ^ prec) by (split; reflexivity).
  assert (Normal : fe1 < fe2 -> 2 ^ (prec - 1) <= q2) by (intros; lia).
  unfold SFleb.
  destruct (Z.eqb_spec q1 (2 ^ prec)) as [E1|NE1],
           (Z.eqb_spec q2 (2 ^ prec)) as [E2|NE2].
  - destruct (Z.leb_spec (fe1 + 1) (emax - prec)),
             (Z.leb_spec (fe2 + 1) (emax - prec));
      cbn [SFcompare]; try reflexivity; try lia.
    destruct (Z.compare_spec (fe1 + 1) (fe2 + 1)); try lia; reflexivity.
  - destruct (Z.eq_dec fe1 fe2) as [E|NE]; [specialize (Qle E); lia|].
    destruct q2 as [|p2|p2]; try lia.
    destruct (Z.leb_spec (fe1 + 1) (emax - prec)),
             (Z.leb_spec fe2 (emax - prec));
      cbn [SFcompare]; try reflexivity; try lia.
    destruct (Z.compare_spec (fe1 + 1) fe2); try lia; try reflexivity.
    change (Pos.compare_cont Eq ?a ?b) with (Pos.compare a b).
    destruct (Pos.compare_spec (Z.to_pos (2 ^ (prec - 1))) p2) as [Ec|Lc|Gc];
      try reflexivity.
    exfalso. specialize (Normal ltac:(lia)).
    apply Pos2Z.pos_lt_pos in Gc. rewrite Z2Pos.id in Gc by reflexivity.
    lia.
  - destruct q1 as [|p1|p1]; try lia;
      destruct (Z.leb_spec (fe2 + 1) (emax - prec));
      try destruct (Z.leb_spec fe1 (emax - prec));
      cbn [SFcompare]; try reflexivity; try lia.
    destruct (Z.compare_spec fe1 (fe2 + 1)); try lia; reflexivity.
  - destruct q1 as [|p1|p1]; try lia; destruct q2 as [|p2|p2]; try lia;
      try destruct (Z.leb_spec fe1 (emax - prec));
      try destruct (Z.leb_spec fe2 (emax - prec));
      cbn [SFcompare]; try reflexivity; try lia.
    destruct (Z.compare_spec fe1 fe2); try lia; try reflexivity.
    change (Pos.compare_cont Eq ?a ?b) with (Pos.compare a b).
    destruct (Pos.compare_spec p1 p2) as [Ec|Lc|Gc]; try reflexivity.
    exfalso. specialize (Qle ltac:(lia)).
    apply Pos2Z.pos_lt_pos in Gc. lia.
Qed.

(** The same quotient at a lower exponent. *)
Lemma fexp_rescale N D e j :
  0 < D -> 0 <= N -> 0 <= j ->
  e <= fexp prec emax (Zdigits2 (N / D) + e) ->
  fexp prec emax (Zdigits2 (N * 2 ^ j / D) + (e - j))
  = fexp prec emax (Zdigits2 (N / D) + e).
Proof.
  intros HD HN Hj C.
  assert (Pj : 0 < 2 ^ j) by (apply Z.pow_pos_nonneg; lia).
  pose proof (Z.div_mod N D ltac:(lia)) as E.
  pose proof (Z.mod_pos_bound N D HD) as B.
  set (m := N / D) in *.
  assert (Hm : 0 <= m) by (apply Z.div_pos; lia).
  assert (Lo : m * 2 ^ j <= N * 2 ^ j / D)
    by (apply Z.div_le_lower_bound; nia).
  assert (Hi : N * 2 ^ j / D < (m + 1) * 2 ^ j)
    by (apply Z.div_lt_upper_bound; nia).
  destruct (Z.eq_dec m 0) as [Z0|NZ].
  - rewrite Z0 in *. cbn [Zdigits2] in *.
    assert (Dg : Zdigits2 (N * 2 ^ j / D) <= j)
      by (apply Zdigits2_le; lia).
    pose proof (Zdigits2_nonneg (N * 2 ^ j / D)).
    unfold fexp, SpecFloat.emin, prec, emax in *. lia.
  - destruct (Zdigits2_bounds m ltac:(lia)) as [L U].
    assert (D1 : 1 <= Zdigits2 m) by (destruct m; simpl in *; lia).
    assert (Dg : Zdigits2 (N * 2 ^ j / D) = Zdigits2 m + j).
    { apply Z.le_antisymm.
      - apply Zdigits2_le; [lia|]. split; [lia|].
        rewrite Z.pow_add_r by lia. nia.
      - replace (Zdigits2 m + j) with (Zdigits2 m - 1 + j + 1) by lia.
        apply Zdigits2_ge; [lia|].
        rewrite Z.pow_add_r by lia. nia. }
    rewrite Dg. f_equal. lia.
Qed.

Lemma round_pos_rescale N D e j :
  0 < D -> 0 <= N -> 0 <= j ->
  e <= fexp prec emax (Zdigits2 (N / D) + e) ->
  round_pos (N * 2 ^ j) D (e - j) = round_pos N D e.
Proof.
  intros HD HN Hj C. unfold round_pos.
  rewrite (fexp_rescale N D e j HD HN Hj C).
  set (fe := fexp prec emax (Zdigits2 (N / D) + e)) in *.
  replace (D * 2 ^ (fe - (e - j))) with (D * 2 ^ (fe - e) * 2 ^ j).
  2: { replace (fe - (e - j)) with (fe - e + j) by lia.
       rewrite Z.pow_add_r by lia. ring. }
  rewrite rne_scale;
    [reflexivity
    |apply Z.mul_pos_pos; [lia|apply Z.pow_pos_nonneg; lia]
    |apply Z.pow_pos_nonneg; lia].
Qed.

(** Rounding is monotone: the quotients [N1 / D1] at the exponent [e1] and
    [N2 / D2] at [e2], in this order, are rounded to doubles in this
    order. *)
Lemma round_pos_le N1 D1 e1 N2 D2 e2 :
  0 < D1 -> 0 < D2 -> 0 <= N1 -> 0 <= N2 ->
  e1 <= fexp prec emax (Zdigits2 (N1 / D1) + e1) ->
  e2 <= fexp prec emax (Zdigits2 (N2 / D2) + e2) ->
  N1 * 2 ^ (e1 - Z.min e1 e2) * D2 <= N2 * 2 ^ (e2 - Z.min e1 e2) * D1 ->
  SFleb (round_pos N1 D1 e1) (round_pos N2 D2 e2) = true.
Proof.
  intros H1 H2 HN1 HN2 C1 C2 H.
  set (k := Z.min e1 e2) in *.
  rewrite <- (round_pos_rescale N1 D1 e1 (e1 - k)) by lia.
  rewrite <- (round_pos_rescale N2 D2 e2 (e2 - k)) by lia.
  replace (e1 - (e1 - k)) with k by lia.
  replace (e2 - (e2 - k)) with k by lia.
  assert (P1 : 0 < 2 ^ (e1 - k)) by (apply Z.pow_pos_nonneg; lia).
  assert (P2 : 0 < 2 ^ (e2 - k)) by (apply Z.pow_pos_nonneg; lia).
  apply round_pos_mono; try assumption; try nia.
  - rewrite <- (fexp_rescale N1 D1 e1 (e1 - k)) in C1 by lia.
    replace (e1 - (e1 - k)) with k in C1 by lia. lia.
  - rewrite <- (fexp_rescale N2 D2 e2 (e2 - k)) in C2 by lia.
    replace (e2 - (e2 - k)) with k in C2 by lia. lia.
Qed.

(** ** The doubles as rounded quotients *)

Lemma binary_round_aux_exact m e :
  0 <= m -> e <= fexp prec emax (Zdigits2 m + e) ->
  binary_round_aux prec emax false m e loc_Exact = round_pos m 1 e.
Proof.
  intros Hm C.
  pose proof (binary_round_aux_spec m 1 e ltac:(lia) Hm) as S.
  rewrite Z.div_1_r, Z.mod_1_r in S. exact (S C).
Qed.

(** A valid double is its own rounding. *)
Lemma canonical_exponent m e :
  valid_binary (S754_finite false m e) = true ->
  fexp prec emax (Zdigits2 (Z.pos m) + e) = e /\ e <= emax - prec.
Proof.
  unfold valid_binary, bounded, canonical_mantissa. intros V.
  apply andb_prop in V as [C B]. apply Z.eqb_eq in C. apply Z.leb_le in B.
  split; [exact C | exact B].
Qed.

Lemma round_pos_valid m e :
  valid_binary (S754_finite false m e) = true ->
  round_pos (Z.pos m) 1 e = S754_finite false m e.
Proof.
  intros V. destruct (canonical_exponent m e V) as [C B].
  destruct (valid_finite _ _ _ V) as (_ & U & _).
  unfold round_pos. rewrite Z.div_1_r, C, Z.sub_diag.
  change (1 * 2 ^ 0) with 1.
  rewrite rne_exact by (try apply Z.mod_1_r; lia). rewrite Z.div_1_r.
  destruct (Z.eqb_spec (Z.pos m) (2 ^ prec)) as [E|_]; [lia|].
  destruct (Z.leb_spec e (emax - prec)); [reflexivity|lia].
Qed.

(** The order of two valid doubles > 0, on their mantissas. *)
Lemma SFleb_cross m1 e1 m2 e2 :
  valid_binary (S754_finite false m1 e1) = true ->
  valid_binary (S754_finite false m2 e2) = true ->
  SFleb (S754_finite false m1 e1) (S754_finite false m2 e2) = true ->
  Z.pos m1 * 2 ^ (e1 - Z.min e1 e2) <= Z.pos m2 * 2 ^ (e2 - Z.min e1 e2).
Proof.
  intros V1 V2.
  destruct (valid_finite _ _ _ V1) as (E1 & U1 & L1).
  destruct (valid_finite _ _ _ V2) as (E2 & U2 & L2).
  unfold SFleb. cbn [SFcompare].
  destruct (Z.compare_spec e1 e2) as [E|E|E]; try discriminate.
  - subst e2. rewrite Z.min_id, Z.sub_diag.
    change (Pos.compare_cont Eq m1 m2) with (Pos.compare m1 m2).
    destruct (Pos.compare_spec m1 m2); try discriminate; lia.
  - intros _. rewrite Z.min_l, Z.sub_diag by lia.
    pose proof (larger_exponent m1 e1 m2 e2 U1 (L2 ltac:(lia)) E). lia.
Qed.

(** The digits of a product. *)
Lemma Zdigits2_mul a b :
  0 < a -> 0 < b -> Zdigits2 a + Zdigits2 b - 1 <= Zdigits2 (a * b).
Proof.
  intros Ha Hb.
  destruct (Zdigits2_bounds a Ha) as [La _].
  destruct (Zdigits2_bounds b Hb) as [Lb _].
  assert (1 <= Zdigits2 a) by (destruct a; simpl in *; lia).
  assert (1 <= Zdigits2 b) by (destruct b; simpl in *; lia).
  replace (Zdigits2 a + Zdigits2 b - 1)
    with (Zdigits2 a - 1 + (Zdigits2 b - 1) + 1) by lia.
  apply Zdigits2_ge; [lia|].
  rewrite Z.pow_add_r by lia.
  assert (0 < 2 ^ (Zdigits2 a - 1)) by (apply Z.pow_pos_nonneg; lia).
  assert (0 < 2 ^ (Zdigits2 b - 1)) by (apply Z.pow_pos_nonneg; lia).
  nia.
Qed.

(** The product of two valid doubles > 0. *)
Lemma SFmul_finite mx ex my ey :
  valid_binary (S754_finite false mx ex) = true ->
  valid_binary (S754_finite false my ey) = true ->
  SF64mul (S754_finite false mx ex) (S754_finite false my ey)
  = round_pos (Z.pos mx * Z.pos my) 1 (ex + ey) /\
  ex + ey <= fexp prec emax (Zdigits2 (Z.pos mx * Z.pos my / 1) + (ex + ey)).
Proof.
  intros Vx Vy.
  destruct (valid_finite _ _ _ Vx) as (Ex & Ux & Lx).
  destruct (valid_finite _ _ _ Vy) as (Ey & Uy & Ly).
  assert (C : ex + ey
              <= fexp prec emax (Zdigits2 (Z.pos mx * Z.pos my) + (ex + ey))).
  { pose proof (Zdigits2_mul (Z.pos mx) (Z.pos my) ltac:(lia) ltac:(lia)) as M.
    assert (1 <= Zdigits2 (Z.pos mx)) by (simpl; lia).
    assert (1 <= Zdigits2 (Z.pos my)) by (simpl; lia).
    assert (Nx : emin < ex -> prec <= Zdigits2 (Z.pos mx)).
    { intros H'. specialize (Lx H').
      pose proof (Zdigits2_ge (Z.pos mx) (prec - 1)
                    ltac:(unfold prec; lia) Lx). lia. }
    assert (Ny : emin < ey -> prec <= Zdigits2 (Z.pos my)).
    { intros H'. specialize (Ly H').
      pose proof (Zdigits2_ge (Z.pos my) (prec - 1)
                    ltac:(unfold prec; lia) Ly). lia. }
    unfold fexp, SpecFloat.emin, prec, emax in *. lia. }
  split; [|rewrite Z.div_1_r; exact C].
  unfold SF64mul, SFmul. cbn [xorb].
  rewrite Pos2Z.inj_mul. apply binary_round_aux_exact; [lia|exact C].
Qed.

(** ** Monotone operations on doubles *)

Lemma round_pos_nonneg N D e : sf_nonneg (round_pos N D e) = true.
Proof.
  unfold round_pos.
  destruct (_ =? _); [destruct (_ <=? _); reflexivity|].
  destruct (rne _ _); try reflexivity.
  destruct (_ <=? _); reflexivity.
Qed.

Lemma SFleb_zero_nonneg s x :
  sf_nonneg x = true -> SFleb (S754_zero s) x = true.
Proof. destruct x as [[]|[]| |[] m e]; try discriminate; reflexivity. Qed.

Lemma SFleb_nonneg_infinity x :
  sf_nonneg x = true -> SFleb x (S754_infinity false) = true.
Proof. destruct x as [[]|[]| |[] m e]; try discriminate; reflexivity. Qed.

(** Multiplying two numbers that are not negative by a finite number > 0
    keeps their order. *)
Lemma SFmul_mono a b mc ec :
  valid_binary a = true -> valid_binary b = true ->
  valid_binary (S754_finite false mc ec) = true ->
  sf_nonneg a = true -> sf_nonneg b = true -> SFleb a b = true ->
  SFleb (SF64mul a (S754_finite false mc ec))
        (SF64mul b (S754_finite false mc ec)) = true.
Proof.
  intros Va Vb Vc Pa Pb Le.
  destruct a as [sa|[]| |[] ma ea]; try discriminate Pa;
    destruct b as [sb|[]| |[] mb eb]; try discriminate Pb;
    try discriminate Le; try reflexivity.
  - (* 0 and a number *)
    destruct (SFmul_finite mb eb mc ec Vb Vc) as [-> _].
    apply SFleb_zero_nonneg, round_pos_nonneg.
  - (* a number and Infinity *)
    destruct (SFmul_finite ma ea mc ec Va Vc) as [-> _].
    apply SFleb_nonneg_infinity, round_pos_nonneg.
  - (* two numbers *)
    destruct (SFmul_finite ma ea mc ec Va Vc) as [-> Ca].
    destruct (SFmul_finite mb eb mc ec Vb Vc) as [-> Cb].
    pose proof (SFleb_cross _ _ _ _ Va Vb Le) as X.
    apply round_pos_le; try lia; try assumption.
    replace (Z.min (ea + ec) (eb + ec)) with (Z.min ea eb + ec) by lia.
    replace (ea + ec - (Z.min ea eb + ec)) with (ea - Z.min ea eb) by lia.
    replace (eb + ec - (Z.min ea eb + ec)) with (eb - Z.min ea eb) by lia.
    nia.
Qed.

Lemma pow2_split a b K :
  K <= b -> b <= a -> 2 ^ (a - K) = 2 ^ (a - b) * 2 ^ (b - K).
Proof.
  intros H1 H2. rewrite <- Z.pow_add_r by lia. f_equal. lia.
Qed.

Lemma pow2_pos a : 0 <= a -> 0 < 2 ^ a.
Proof. intros. apply Z.pow_pos_nonneg; lia. Qed.

(** The same comparisons at any lower scale [K]. *)
Lemma round_pos_le_at K N1 D1 e1 N2 D2 e2 :
  0 < D1 -> 0 < D2 -> 0 <= N1 -> 0 <= N2 ->
  e1 <= fexp prec emax (Zdigits2 (N1 / D1) + e1) ->
  e2 <= fexp prec emax (Zdigits2 (N2 / D2) + e2) ->
  K <= e1 -> K <= e2 ->
  N1 * 2 ^ (e1 - K) * D2 <= N2 * 2 ^ (e2 - K) * D1 ->
  SFleb (round_pos N1 D1 e1) (round_pos N2 D2 e2) = true.
Proof.
  intros H1 H2 HN1 HN2 C1 C2 K1 K2 H.
  apply round_pos_le; try assumption.
  rewrite (pow2_split e1 (Z.min e1 e2) K) in H by lia.
  rewrite (pow2_split e2 (Z.min e1 e2) K) in H by lia.
  pose proof (pow2_pos (Z.min e1 e2 - K) ltac:(lia)) as P.
  pose proof (pow2_pos (e1 - Z.min e1 e2) ltac:(lia)) as P1.
  pose proof (pow2_pos (e2 - Z.min e1 e2) ltac:(lia)) as P2.
  set (c := 2 ^ (Z.min e1 e2 - K)) in *.
  set (a1 := 2 ^ (e1 - Z.min e1 e2)) in *.
  set (a2 := 2 ^ (e2 - Z.min e1 e2)) in *.
  assert (H' : (N1 * a1 * D2) * c <= (N2 * a2 * D1) * c) by nia.
  apply Z.mul_le_mono_pos_r in H'; [exact H' | exact P].
Qed.

Lemma SFleb_cross_at K m1 e1 m2 e2 :
  valid_binary (S754_finite false m1 e1) = true ->
  valid_binary (S754_finite false m2 e2) = true ->
  SFleb (S754_finite false m1 e1) (S754_finite false m2 e2) = true ->
  K <= e1 -> K <= e2 ->
  Z.pos m1 * 2 ^ (e1 - K) <= Z.pos m2 * 2 ^ (e2 - K).
Proof.
  intros V1 V2 Le K1 K2.
  pose proof (SFleb_cross _ _ _ _ V1 V2 Le) as X.
  rewrite (pow2_split e1 (Z.min e1 e2) K) by lia.
  rewrite (pow2_split e2 (Z.min e1 e2) K) by lia.
  pose proof (pow2_pos (Z.min e1 e2 - K) ltac:(lia)) as P.
  nia.
Qed.

(** [binary_round] aligns the mantissa before it rounds. *)
Lemma Zdigits2_shift m j :
  0 < m -> 0 <= j -> Zdigits2 (m * 2 ^ j) = Zdigits2 m + j.
Proof.
  intros Hm Hj.
  destruct (Zdigits2_bounds m Hm) as [L U].
  assert (1 <= Zdigits2 m) by (destruct m; simpl in *; lia).
  pose proof (pow2_pos j Hj) as P.
  apply Z.le_antisymm.
  - apply Zdigits2_le; [lia|]. split; [nia|].
    rewrite Z.pow_add_r by lia. nia.
  - replace (Zdigits2 m + j) with (Zdigits2 m - 1 + j + 1) by lia.
    apply Zdigits2_ge; [lia|]. rewrite Z.pow_add_r by lia. nia.
Qed.

Lemma binary_round_spec m e :
  exists N k,
    binary_round prec emax false m e = round_pos N 1 k /\
    k <= e /\ N = Z.pos m * 2 ^ (e - k) /\
    k <= fexp prec emax (Zdigits2 (N / 1) + k).
Proof.
  unfold binary_round.
  set (fe := fexp prec emax (Z.pos (digits2_pos m) + e)).
  change (Z.pos (digits2_pos m)) with (Zdigits2 (Z.pos m)) in fe.
  unfold shl_align.
  destruct (fe - e) as [|d|d] eqn:Hd.
  - exists (Z.pos m), e. rewrite Z.sub_diag, Z.mul_1_r, Z.div_1_r.
    assert (C : e <= fexp prec emax (Zdigits2 (Z.pos m) + e)) by (fold fe; lia).
    repeat split; try lia. apply binary_round_aux_exact; [lia|exact C].
  - exists (Z.pos m), e. rewrite Z.sub_diag, Z.mul_1_r, Z.div_1_r.
    assert (C : e <= fexp prec emax (Zdigits2 (Z.pos m) + e)) by (fold fe; lia).
    repeat split; try lia. apply binary_round_aux_exact; [lia|exact C].
  - exists (Z.pos m * 2 ^ (e - fe)), fe. rewrite Z.div_1_r.
    assert (J : 0 <= e - fe) by lia.
    assert (C : fe <= fexp prec emax
                        (Zdigits2 (Z.pos m * 2 ^ (e - fe)) + fe)).
    { rewrite Zdigits2_shift by lia.
      replace (Zdigits2 (Z.pos m) + (e - fe) + fe)
        with (Zdigits2 (Z.pos m) + e) by lia.
      fold fe. lia. }
    repeat split; try lia.
    change (Pos.iter xO m d) with (shift_pos d m).
    rewrite shift_pos_correct. change (Z.pow_pos 2 d) with (2 ^ Z.pos d).
    replace (Z.pos d) with (e - fe) by lia.
    rewrite Z.mul_comm. apply binary_round_aux_exact; [|exact C].
    pose proof (pow2_pos (e - fe) J). nia.
Qed.

(** The sum of two valid doubles > 0. *)
Lemma SFadd_finite mx ex my ey :
  exists N k,
    SF64add (S754_finite false mx ex) (S754_finite false my ey)
    = round_pos N 1 k /\
    k <= ex /\ k <= ey /\
    N = Z.pos mx * 2 ^ (ex - k) + Z.pos my * 2 ^ (ey - k) /\
    k <= fexp prec emax (Zdigits2 (N / 1) + k).
Proof.
  unfold SF64add, SFadd. cbv zeta. cbn [cond_Zopp].
  set (ez := Z.min ex ey).
  pose proof (shl_align_spec mx ex ez ltac:(lia)) as Sx.
  pose proof (shl_align_spec my ey ez ltac:(lia)) as Sy.
  destruct (shl_align mx ex ez) as [mx' ex'].
  destruct (shl_align my ey ez) as [my' ey']. cbn [fst] in *.
  cbn [Z.add binary_normalize].
  destruct (binary_round_spec (mx' + my') ez) as (N & k & R & Hk & HN & C).
  exists N, k. split; [exact R|]. split; [lia|]. split; [lia|].
  split; [|exact C].
  rewrite HN, Pos2Z.inj_add, Sx, Sy.
  rewrite (pow2_split ex ez k), (pow2_split ey ez k) by lia. ring.
Qed.

Lemma SFleb_refl x : x <> S754_nan -> SFleb x x = true.
Proof. intros H. unfold SFleb. rewrite SFcompare_refl by assumption. reflexivity. Qed.

(** Adding two numbers that are not negative to a finite number > 0 keeps
    their order. *)
Lemma SFadd_mono mc ec u1 u2 :
  valid_binary (S754_finite false mc ec) = true ->
  valid_binary u1 = true -> valid_binary u2 = true ->
  sf_nonneg u1 = true -> sf_nonneg u2 = true -> SFleb u1 u2 = true ->
  SFleb (SF64add (S754_finite false mc ec) u1)
        (SF64add (S754_finite false mc ec) u2) = true.
Proof.
  intros Vc V1 V2 P1 P2 Le.
  destruct u1 as [s1|[]| |[] m1 e1]; try discriminate P1;
    destruct u2 as [s2|[]| |[] m2 e2]; try discriminate P2;
    try discriminate Le; try reflexivity.
  - (* 0 and 0 *)
    apply SFleb_refl. discriminate.
  - (* 0 and a number *)
    destruct (SFadd_finite mc ec m2 e2) as (N & k & -> & Kc & K2 & HN & C).
    change (SF64add (S754_finite false mc ec) (S754_zero s1))
      with (S754_finite false mc ec).
    rewrite <- (round_pos_valid mc ec Vc).
    destruct (canonical_exponent mc ec Vc) as [Cc _].
    pose proof (pow2_pos (ec - k) ltac:(lia)).
    pose proof (pow2_pos (e2 - k) ltac:(lia)).
    apply (round_pos_le_at k);
      [lia | lia | lia | nia | rewrite Z.div_1_r, Cc; lia | exact C
      | lia | lia |].
    rewrite HN, Z.sub_diag. nia.
  - (* a number and Infinity *)
    destruct (SFadd_finite mc ec m1 e1) as (N & k & -> & _).
    apply SFleb_nonneg_infinity, round_pos_nonneg.
  - (* two numbers *)
    destruct (SFadd_finite mc ec m1 e1) as (N1 & k1 & -> & Kc1 & K1 & HN1 & C1).
    destruct (SFadd_finite mc ec m2 e2) as (N2 & k2 & -> & Kc2 & K2 & HN2 & C2).
    set (K := Z.min k1 k2).
    pose proof (SFleb_cross_at K _ _ _ _ V1 V2 Le ltac:(lia) ltac:(lia)) as X.
    pose proof (pow2_pos (ec - k1) ltac:(lia)).
    pose proof (pow2_pos (e1 - k1) ltac:(lia)).
    pose proof (pow2_pos (ec - k2) ltac:(lia)).
    pose proof (pow2_pos (e2 - k2) ltac:(lia)).
    apply (round_pos_le_at K);
      [lia | lia | nia | nia | exact C1 | exact C2 | lia | lia |].
    rewrite HN1, HN2, !Z.mul_1_r, !Z.mul_add_distr_r, <- !Z.mul_assoc.
    rewrite <- (pow2_split ec k1 K), <- (pow2_split e1 k1 K) by lia.
    rewrite <- (pow2_split ec k2 K), <- (pow2_split e2 k2 K) by lia.
    lia.
Qed.

(** The difference of two valid doubles > 0. *)
Lemma SFsub_finite mp ep mc ec :
  match Z.pos mp * 2 ^ (ep - Z.min ep ec) - Z.pos mc * 2 ^ (ec - Z.min ep ec)
  with
  | 0 =>
      SF64sub (S754_finite false mp ep) (S754_finite false mc ec)
      = S754_zero false
  | Z.pos _ =>
      exists N k,
        SF64sub (S754_finite false mp ep) (S754_finite false mc ec)
        = round_pos N 1 k /\
        k <= ep /\ k <= ec /\
        N = Z.pos mp * 2 ^ (ep - k) - Z.pos mc * 2 ^ (ec - k) /\
        0 < N /\
        k <= fexp prec emax (Zdigits2 (N / 1) + k)
  | Z.neg _ =>
      match SF64sub (S754_finite false mp ep) (S754_finite false mc ec) with
      | S754_nan => False
      | S754_zero s | S754_infinity s | S754_finite s _ _ => s = true
      end
  end.
Proof.
  unfold SF64sub, SFsub. cbv zeta. cbn [cond_Zopp].
  set (ez := Z.min ep ec).
  pose proof (shl_align_spec mp ep ez ltac:(lia)) as Sp.
  pose proof (shl_align_spec mc ec ez ltac:(lia)) as Sc.
  destruct (shl_align mp ep ez) as [mp' ep'].
  destruct (shl_align mc ec ez) as [mc' ec']. cbn [fst] in *.
  rewrite <- Sp, <- Sc.
  destruct (Z.pos mp' - Z.pos mc') as [|d|d] eqn:Hd; cbn [binary_normalize].
  - reflexivity.
  - destruct (binary_round_spec d ez) as (N & k & R & Hk & HN & C).
    exists N, k. split; [exact R|]. split; [lia|]. split; [lia|].
    pose proof (pow2_pos (ez - k) ltac:(lia)) as P.
    split; [|split; [nia | exact C]].
    rewrite HN, <- Hd, Sp, Sc.
    rewrite (pow2_split ep ez k), (pow2_split ec ez k) by lia. ring.
  - unfold binary_round. destruct (shl_align d ez _) as [mz ez'].
    pose proof (binary_round_aux_sign true (Z.pos mz) ez' loc_Exact) as S.
    pose proof (binary_round_aux_number true (Z.pos mz) ez' loc_Exact
                  ltac:(lia)) as NN.
    destruct (binary_round_aux _ _ _ _ _ _); try exact S. apply NN. reflexivity.
Qed.

(** Subtracting a number from two numbers that are not below it. *)
Lemma SFsub_mono mc ec p1 p2 :
  valid_binary (S754_finite false mc ec) = true ->
  valid_binary p1 = true -> valid_binary p2 = true ->
  SFleb (S754_finite false mc ec) p1 = true -> SFleb p1 p2 = true ->
  sf_nonneg (SF64sub p1 (S754_finite false mc ec)) = true /\
  sf_nonneg (SF64sub p2 (S754_finite false mc ec)) = true /\
  SFleb (SF64sub p1 (S754_finite false mc ec))
        (SF64sub p2 (S754_finite false mc ec)) = true.
Proof.
  intros Vc V1 V2 L1 L2.
  destruct p1 as [[]|[]| |[] m1 e1]; try discriminate L1;
    destruct p2 as [[]|[]| |[] m2 e2]; try discriminate L2;
    try (repeat split; reflexivity).
  - (* a number and Infinity *)
    pose proof (SFleb_cross _ _ _ _ Vc V1 L1) as X1.
    pose proof (SFsub_finite m1 e1 mc ec) as S1.
    rewrite (Z.min_comm e1 ec) in S1.
    destruct (Z.pos m1 * _ - _) as [|d|d] eqn:Hd; try lia.
    + rewrite S1. repeat split; reflexivity.
    + destruct S1 as (N & k & -> & _).
      pose proof (round_pos_nonneg N 1 k) as NN.
      repeat split; try assumption.
      apply SFleb_nonneg_infinity, NN.
  - (* two numbers *)
    assert (Lc : SFleb (S754_finite false mc ec) (S754_finite false m2 e2)
                 = true) by (eapply SFleb_trans; eassumption).
    pose proof (SFleb_cross _ _ _ _ Vc V1 L1) as X1.
    pose proof (SFleb_cross _ _ _ _ Vc V2 Lc) as X2.
    pose proof (SFsub_finite m1 e1 mc ec) as S1.
    pose proof (SFsub_finite m2 e2 mc ec) as S2.
    rewrite (Z.min_comm e1 ec) in S1. rewrite (Z.min_comm e2 ec) in S2.
    destruct (Z.pos m1 * _ - _) as [|d1|d1] eqn:Hd1; try lia;
      destruct (Z.pos m2 * _ - _) as [|d2|d2] eqn:Hd2; try lia.
    + rewrite S1, S2. repeat split; reflexivity.
    + rewrite S1. destruct S2 as (N & k & -> & _).
      pose proof (round_pos_nonneg N 1 k) as NN.
      repeat split; try assumption. apply SFleb_zero_nonneg, NN.
    + (* the first difference is > 0, the second one is 0 *)
      exfalso.
      set (K := Z.min (Z.min ec e1) (Z.min ec e2)).
      pose proof (SFleb_cross_at K _ _ _ _ V1 V2 L2 ltac:(lia) ltac:(lia)) as X.
      pose proof (pow2_pos (Z.min ec e1 - K) ltac:(lia)) as Q1.
      pose proof (pow2_pos (Z.min ec e2 - K) ltac:(lia)) as Q2.
      assert (A1 : Z.pos mc * 2 ^ (ec - K) < Z.pos m1 * 2 ^ (e1 - K)).
      { rewrite (pow2_split ec (Z.min ec e1) K),
          (pow2_split e1 (Z.min ec e1) K) by lia. nia. }
      assert (A2 : Z.pos m2 * 2 ^ (e2 - K) = Z.pos mc * 2 ^ (ec - K)).
      { rewrite (pow2_split ec (Z.min ec e2) K),
          (pow2_split e2 (Z.min ec e2) K) by lia. nia. }
      lia.
    + destruct S1 as (N1 & k1 & -> & Kp1 & Kc1 & HN1 & P1 & C1).
      destruct S2 as (N2 & k2 & -> & Kp2 & Kc2 & HN2 & P2 & C2).
      split; [apply round_pos_nonneg|]. split; [apply round_pos_nonneg|].
      set (K := Z.min k1 k2).
      pose proof (SFleb_cross_at K _ _ _ _ V1 V2 L2 ltac:(lia) ltac:(lia)) as X.
      apply (round_pos_le_at K);
        [lia | lia | lia | lia | exact C1 | exact C2 | lia | lia |].
      rewrite HN1, HN2, !Z.mul_1_r, !Z.mul_sub_distr_r, <- !Z.mul_assoc.
      rewrite <- (pow2_split ec k1 K), <- (pow2_split e1 k1 K) by lia.
      rewrite <- (pow2_split ec k2 K), <- (pow2_split e2 k2 K) by lia.
      lia.
Qed.

(** Subtracting a number that is not negative does not increase a
    number. *)
Lemma SFsub_le a b :
  valid_binary a = true -> valid_binary b = true ->
  sf_nonneg a = true -> sf_nonneg b = true ->
  SF64sub a b <> S754_nan -> SFleb (SF64sub a b) a = true.
Proof.
  intros Va Vb Pa Pb NN.
  destruct a as [[]|[]| |[] ma ea]; try discriminate Pa;
    destruct b as [[]|[]| |[] mb eb]; try discriminate Pb;
    try reflexivity; try (elim NN; reflexivity);
    try (apply SFleb_refl; discriminate).
  (* two numbers *)
  pose proof (SFsub_finite ma ea mb eb) as S.
  destruct (Z.pos ma * _ - _) as [|d|d].
  - rewrite S. reflexivity.
  - destruct S as (N & k & -> & Ka & Kb & HN & P & C).
    rewrite <- (round_pos_valid ma ea Va).
    destruct (canonical_exponent ma ea Va) as [Ca _].
    pose proof (pow2_pos (eb - k) ltac:(lia)).
    apply (round_pos_le_at k);
      [lia | lia | lia | lia | exact C | rewrite Z.div_1_r, Ca; lia
      | lia | lia |].
    rewrite HN, Z.sub_diag. nia.
  - destruct (SF64sub _ _) as [[]|[]| |[] m e]; try discriminate S;
      try contradiction; reflexivity.
Qed.

(** ** Division *)

Lemma new_location_loc_of D r :
  0 < D -> 0 <= r -> new_location D r = loc_of r D.
Proof.
  intros HD Hr. unfold new_location, new_location_even, new_location_odd, loc_of.
  destruct (Z.even D) eqn:Ev; [reflexivity|].
  destruct (Z.eqb_spec r 0); [reflexivity|]. f_equal.
  assert (Od : Z.odd D = true) by (rewrite <- Z.negb_even, Ev; reflexivity).
  apply Z.odd_spec in Od as [h Hh].
  destruct (Z.compare_spec (2 * r + 1) D), (Z.compare_spec (2 * r) D);
    try reflexivity; lia.
Qed.

(** The quotient of two valid doubles > 0. *)
Lemma SFdiv_finite mx ex my ey :
  valid_binary (S754_finite false mx ex) = true ->
  valid_binary (S754_finite false my ey) = true ->
  exists s k,
    SF64div (S754_finite false mx ex) (S754_finite false my ey)
    = round_pos (Z.pos mx * 2 ^ s) (Z.pos my) k /\
    0 <= s /\ s + k = ex - ey /\
    k <= fexp prec emax (Zdigits2 (Z.pos mx * 2 ^ s / Z.pos my) + k).
Proof.
  intros Vx Vy.
  unfold SF64div, SFdiv. cbn [xorb]. unfold SFdiv_core_binary.
  set (d1 := Zdigits2 (Z.pos mx)). set (d2 := Zdigits2 (Z.pos my)).
  set (k := Z.min (fexp prec emax (d1 + ex - (d2 + ey))) (ex - ey)).
  set (s := ex - ey - k).
  assert (Hs : 0 <= s) by (subst s k; lia).
  assert (Em : match s with
               | 0 => Z.pos mx
               | Z.pos _ => Z.shiftl (Z.pos mx) s
               | Z.neg _ => 0
               end = Z.pos mx * 2 ^ s).
  { destruct s as [|p|p] eqn:Es; try lia.
    rewrite Z.shiftl_mul_pow2 by lia. reflexivity. }
  rewrite Em. set (N := Z.pos mx * 2 ^ s) in *.
  pose proof (pow2_pos s Hs) as Ps.
  pose proof (Z.div_mod N (Z.pos my) ltac:(lia)) as E.
  pose proof (Z.mod_pos_bound N (Z.pos my) ltac:(lia)) as B.
  unfold Z.div, Z.modulo in E, B.
  destruct (Z.div_eucl N (Z.pos my)) as [q r] eqn:DE.
  assert (Eq : q = N / Z.pos my) by (unfold Z.div; rewrite DE; reflexivity).
  assert (Er : r = N mod Z.pos my)
    by (unfold Z.modulo; rewrite DE; reflexivity).
  exists s, k.
  assert (C : k <= fexp prec emax (Zdigits2 (N / Z.pos my) + k)).
  { rewrite <- Eq.
    destruct (Zdigits2_bounds (Z.pos mx) ltac:(lia)) as [L1 U1].
    destruct (Zdigits2_bounds (Z.pos my) ltac:(lia)) as [L2 U2].
    fold d1 in L1, U1. fold d2 in L2, U2.
    assert (1 <= d1) by (subst d1; simpl; lia).
    assert (1 <= d2) by (subst d2; simpl; lia).
    pose proof (Zdigits2_nonneg q) as Dq.
    (* the quotient has at least d1 + s - d2 digits *)
    assert (G : d1 + s - d2 <= Zdigits2 q).
    { destruct (Z.le_gt_cases (d1 + s - d2) 0) as [|Pos]; [lia|].
      replace (d1 + s - d2) with (d1 + s - d2 - 1 + 1) by lia.
      apply Zdigits2_ge; [lia|].
      rewrite Eq. apply Z.div_le_lower_bound; [lia|].
      apply Z.le_trans with (2 ^ d2 * 2 ^ (d1 + s - d2 - 1)).
      - apply Z.mul_le_mono_nonneg_r; [apply Z.pow_nonneg; lia | lia].
      - rewrite <- Z.pow_add_r by lia.
        replace (d2 + (d1 + s - d2 - 1)) with (d1 - 1 + s) by lia.
        rewrite Z.pow_add_r by lia. subst N. nia. }
    assert (F : fexp prec emax (d1 + ex - (d2 + ey))
                <= fexp prec emax (Zdigits2 q + k))
      by (apply fexp_mono; lia).
    lia. }
  split; [|split; [exact Hs|split; [lia|exact C]]].
  rewrite new_location_loc_of by lia.
  rewrite Eq, Er. apply binary_round_aux_spec; try lia. exact C.
Qed.

(** Dividing two numbers that are not negative by a finite number > 0 keeps
    their sign and their order. *)
Lemma SFdiv_nonneg a mc ec :
  valid_binary a = true -> valid_binary (S754_finite false mc ec) = true ->
  sf_nonneg a = true ->
  sf_nonneg (SF64div a (S754_finite false mc ec)) = true.
Proof.
  intros Va Vc Pa.
  destruct a as [[]|[]| |[] ma ea]; try discriminate Pa; try reflexivity.
  destruct (SFdiv_finite ma ea mc ec Va Vc) as (s & k & -> & _).
  apply round_pos_nonneg.
Qed.

Lemma SFdiv_mono a1 a2 mc ec :
  valid_binary a1 = true -> valid_binary a2 = true ->
  valid_binary (S754_finite false mc ec) = true ->
  sf_nonneg a1 = true -> sf_nonneg a2 = true -> SFleb a1 a2 = true ->
  SFleb (SF64div a1 (S754_finite false mc ec))
        (SF64div a2 (S754_finite false mc ec)) = true.
Proof.
  intros V1 V2 Vc P1 P2 Le.
  destruct a1 as [[]|[]| |[] m1 e1]; try discriminate P1;
    destruct a2 as [[]|[]| |[] m2 e2]; try discriminate P2;
    try discriminate Le; try reflexivity.
  - destruct (SFdiv_finite m2 e2 mc ec V2 Vc) as (s & k & -> & _).
    apply SFleb_zero_nonneg, round_pos_nonneg.
  - destruct (SFdiv_finite m2 e2 mc ec V2 Vc) as (s & k & -> & _).
    apply SFleb_zero_nonneg, round_pos_nonneg.
  - destruct (SFdiv_finite m1 e1 mc ec V1 Vc) as (s & k & -> & _).
    apply SFleb_nonneg_infinity, round_pos_nonneg.
  - destruct (SFdiv_finite m1 e1 mc ec V1 Vc) as (s1 & k1 & -> & S1 & E1 & C1).
    destruct (SFdiv_finite m2 e2 mc ec V2 Vc) as (s2 & k2 & -> & S2 & E2 & C2).
    set (K := Z.min k1 k2).
    pose proof (SFleb_cross_at (K + ec) _ _ _ _ V1 V2 Le
                  ltac:(lia) ltac:(lia)) as X.
    pose proof (pow2_pos s1 S1). pose proof (pow2_pos s2 S2).
    apply (round_pos_le_at K);
      [lia | lia | nia | nia | exact C1 | exact C2 | lia | lia |].
    replace (e1 - (K + ec)) with (s1 + (k1 - K)) in X by lia.
    replace (e2 - (K + ec)) with (s2 + (k2 - K)) in X by lia.
    rewrite !Z.pow_add_r in X by lia. nia.
Qed.

(** A finite number > 0 divided by a number that is not below it is at
    most 1. *)
Lemma SFdiv_le_one ma ea b :
  valid_binary (S754_finite false ma ea) = true -> valid_binary b = true ->
  SFleb (S754_finite false ma ea) b = true ->
  SFleb (SF64div (S754_finite false ma ea) b) sf_one = true.
Proof.
  intros Va Vb Le.
  destruct b as [[]|[]| |[] mb eb]; try discriminate Le; try reflexivity.
  destruct (SFdiv_finite ma ea mb eb Va Vb) as (s & k & -> & S & E & C).
  assert (V1 : valid_binary sf_one = true) by reflexivity.
  unfold sf_one in *. rewrite <- (round_pos_valid _ _ V1).
  set (K := Z.min k (-52)).
  pose proof (SFleb_cross_at (K + eb) _ _ _ _ Va Vb Le
                ltac:(lia) ltac:(lia)) as X.
  pose proof (pow2_pos s S).
  apply (round_pos_le_at K);
    [lia | lia | nia | lia | exact C | reflexivity | lia | lia |].
  replace (ea - (K + eb)) with (s + (k - K)) in X by lia.
  replace (eb - (K + eb)) with (- K) in X by lia.
  rewrite Z.pow_add_r in X by lia.
  change (Z.pos 4503599627370496) with (2 ^ 52).
  rewrite Z.mul_1_r, <- Z.pow_add_r by lia.
  replace (52 + (-52 - K)) with (- K) by lia. nia.
Qed.

(** Dividing by the larger number gives the smaller quotient. *)
Lemma SFdiv_antimono ma ea c1 c2 :
  valid_binary (S754_finite false ma ea) = true ->
  valid_binary c1 = true -> valid_binary c2 = true ->
  sf_positive c1 = true -> SFleb c1 c2 = true ->
  SFleb (SF64div (S754_finite false ma ea) c2)
        (SF64div (S754_finite false ma ea) c1) = true.
Proof.
  intros Va V1 V2 P1 Le.
  destruct c1 as [[]|[]| |[] m1 e1]; try discriminate P1;
    destruct c2 as [[]|[]| |[] m2 e2]; try discriminate Le;
    try reflexivity.
  - destruct (SFdiv_finite ma ea m1 e1 Va V1) as (s & k & -> & _).
    apply SFleb_zero_nonneg, round_pos_nonneg.
  - destruct (SFdiv_finite ma ea m1 e1 Va V1) as (s1 & k1 & -> & S1 & E1 & C1).
    destruct (SFdiv_finite ma ea m2 e2 Va V2) as (s2 & k2 & -> & S2 & E2 & C2).
    set (K' := Z.min e1 e2).
    set (K := Z.min (Z.min k1 k2) (ea - e1 - e2 + K')).
    pose proof (SFleb_cross_at K' _ _ _ _ V1 V2 Le
                  ltac:(lia) ltac:(lia)) as X.
    pose proof (pow2_pos s1 S1). pose proof (pow2_pos s2 S2).
    apply (round_pos_le_at K);
      [lia | lia | nia | nia | exact C2 | exact C1 | lia | lia |].
    set (M := ea - e1 - e2 + K' - K).
    assert (A2 : 2 ^ s2 * 2 ^ (k2 - K) = 2 ^ M * 2 ^ (e1 - K'))
      by (rewrite <- !Z.pow_add_r by lia; f_equal; lia).
    assert (A1 : 2 ^ s1 * 2 ^ (k1 - K) = 2 ^ M * 2 ^ (e2 - K'))
      by (rewrite <- !Z.pow_add_r by lia; f_equal; lia).
    pose proof (pow2_pos M ltac:(lia)) as PM.
    replace (Z.pos ma * 2 ^ s2 * 2 ^ (k2 - K) * Z.pos m1)
      with (Z.pos ma * 2 ^ M * (Z.pos m1 * 2 ^ (e1 - K')))
      by (rewrite <- (Z.mul_assoc (Z.pos ma) (2 ^ s2)), A2; ring).
    replace (Z.pos ma * 2 ^ s1 * 2 ^ (k1 - K) * Z.pos m2)
      with (Z.pos ma * 2 ^ M * (Z.pos m2 * 2 ^ (e2 - K')))
      by (rewrite <- (Z.mul_assoc (Z.pos ma) (2 ^ s1)), A1; ring).
    apply Z.mul_le_mono_nonneg_l; [lia | exact X].
Qed.

Lemma round_pos_plus N D e : sf_plus (round_pos N D e) = true.
Proof.
  unfold round_pos.
  destruct (_ =? _); [destruct (_ <=? _); reflexivity|].
  destruct (rne _ _); try reflexivity.
  destruct (_ <=? _); reflexivity.
Qed.

(** A difference whose first operand has its sign bit clear and whose second
    operand is finite, not negative and not above the first: a number whose
    sign bit is clear. *)
Lemma SFsub_plus a b :
  valid_binary a = true -> valid_binary b = true ->
  sf_plus a = true -> sf_nonneg b = true -> b <> S754_infinity false ->
  SFleb b a = true ->
  sf_plus (SF64sub a b) = true /\ SF64sub a b <> S754_nan.
Proof.
  intros Va Vb Pa Pb Fb Le.
  destruct a as [[]|[]| |[] ma ea]; try discriminate Pa;
    try discriminate Le;
    destruct b as [sb|[]| |[] mb eb]; try discriminate Pb;
    try discriminate Le; try congruence;
    try (split; [reflexivity | discriminate]).
  - destruct sb; split; reflexivity || discriminate.
  - pose proof (SFleb_cross _ _ _ _ Vb Va Le) as X.
    pose proof (SFsub_finite ma ea mb eb) as S.
    rewrite (Z.min_comm ea eb) in S.
    destruct (Z.pos ma * _ - _) as [|d|d] eqn:Hd; try lia.
    + rewrite S. split; [reflexivity | discriminate].
    + destruct S as (N & k & -> & _). split; [apply round_pos_plus|].
      unfold round_pos. intros E.
      destruct (_ =? _) in E; [destruct (_ <=? _) in E; discriminate E|].
      destruct (rne _ _); try discriminate E.
      destruct (_ <=? _) in E; discriminate E.
Qed.

End Monotone.

(** ** The order of the numbers *)

Section Rank.
#[local] Open Scope Z_scope.

(** The rank of a finite double lies strictly between 0 and the rank of
    Infinity. *)
Lemma rank_finite s m e :
  valid_binary (S754_finite s m e) = true ->
  0 < Z.pos m * 2 ^ (e + 1074) < 2 ^ 2100.
Proof.
  intros V. destruct (valid_finite _ _ _ V) as (E & U & _).
  unfold valid_binary, bounded in V. apply andb_prop in V as [_ B].
  apply Z.leb_le in B. assert (E' : -1074 <= e) by exact E.
  assert (B' : e <= 971) by exact B. assert (U' : Z.pos m < 2 ^ 53) by exact U.
  pose proof (pow2_pos (e + 1074) ltac:(lia)) as P.
  assert (Q : 2 ^ (e + 1074) <= 2 ^ 2045) by (apply Z.pow_le_mono_r; lia).
  split; [lia|].
  change (2 ^ 2100) with (2 ^ 53 * 2 ^ 2045 * 2 ^ 2).
  pose proof (pow2_pos 2045 ltac:(lia)). nia.
Qed.

Lemma rank_cross m1 e1 m2 e2 :
  valid_binary (S754_finite false m1 e1) = true ->
  valid_binary (S754_finite false m2 e2) = true ->
  match e1 ?= e2 with
  | Eq => Pos.compare m1 m2
  | Lt => Lt
  | Gt => Gt
  end = (Z.pos m1 * 2 ^ (e1 + 1074) ?= Z.pos m2 * 2 ^ (e2 + 1074)).
Proof.
  intros V1 V2.
  destruct (valid_finite _ _ _ V1) as (E1 & U1 & L1).
  destruct (valid_finite _ _ _ V2) as (E2 & U2 & L2).
  assert (E1' : -1074 <= e1) by exact E1.
  assert (E2' : -1074 <= e2) by exact E2.
  assert (L1' : -1074 < e1 -> 2 ^ (prec - 1) <= Z.pos m1) by exact L1.
  assert (L2' : -1074 < e2 -> 2 ^ (prec - 1) <= Z.pos m2) by exact L2.
  clear E1 E2 L1 L2.
  symmetry.
  destruct (Z.compare_spec e1 e2) as [E|E|E].
  - subst e2. pose proof (pow2_pos (e1 + 1074) ltac:(lia)) as P.
    destruct (Pos.compare_spec m1 m2) as [C|C|C].
    + subst. apply Z.compare_refl.
    + apply Z.compare_lt_iff. apply Z.mul_lt_mono_pos_r; [exact P|].
      apply Pos2Z.pos_lt_pos. exact C.
    + apply Z.compare_gt_iff. apply Z.mul_lt_mono_pos_r; [exact P|].
      apply Pos2Z.pos_lt_pos. exact C.
  - apply Z.compare_lt_iff.
    pose proof (larger_exponent m1 e1 m2 e2 U1 (L2' ltac:(lia)) E) as X.
    replace (e2 + 1074) with ((e2 - e1) + (e1 + 1074)) by lia.
    rewrite (Z.pow_add_r 2 (e2 - e1) (e1 + 1074)) by lia.
    pose proof (pow2_pos (e1 + 1074) ltac:(lia)) as P. nia.
  - apply Z.compare_gt_iff.
    pose proof (larger_exponent m2 e2 m1 e1 U2 (L1' ltac:(lia)) E) as X.
    replace (e1 + 1074) with ((e1 - e2) + (e2 + 1074)) by lia.
    rewrite (Z.pow_add_r 2 (e1 - e2) (e2 + 1074)) by lia.
    pose proof (pow2_pos (e2 + 1074) ltac:(lia)) as P. nia.
Qed.

(** The comparison of two numbers is the comparison of their ranks. *)
Lemma SFcompare_rank x y :
  valid_binary x = true -> valid_binary y = true ->
  x <> S754_nan -> y <> S754_nan ->
  SFcompare x y = Some (sf_rank x ?= sf_rank y).
Proof.
  intros Vx Vy Nx Ny.
  destruct x as [sx|sx| |sx mx ex]; try congruence;
    destruct y as [sy|sy| |sy my ey]; try congruence;
    try pose proof (rank_finite _ _ _ Vx) as Rx;
    try pose proof (rank_finite _ _ _ Vy) as Ry;
    cbn [SFcompare sf_rank]; f_equal; symmetry;
    try destruct sx; try destruct sy; cbn [cond_Zopp]; try reflexivity;
    try match goal with
        | |- (_ ?= _) = Lt => apply Z.compare_lt_iff; lia
        | |- (_ ?= _) = Gt => apply Z.compare_gt_iff; lia
        end.
  - pose proof (rank_cross my ey mx ex Vy Vx) as X.
    rewrite Z.compare_opp, <- X. rewrite (Z.compare_antisym ex ey).
    change (Pos.compare_cont Eq mx my) with (Pos.compare mx my).
    rewrite (Pos.compare_antisym mx my).
    destruct (ex ?= ey); reflexivity.
  - rewrite <- (rank_cross mx ex my ey Vx Vy). reflexivity.
Qed.

End Rank.

Lemma leb_rank x y :
  is_nan x = false -> is_nan y = false ->
  (x <=? y) = (rank x <=? rank y)%Z.
Proof.
  rewrite !is_nan_spec, FloatAxioms.leb_spec. intros Nx Ny. unfold SFleb, rank.
  rewrite (SFcompare_rank _ _ (Prim2SF_valid x) (Prim2SF_valid y) Nx Ny).
  unfold Z.leb. destruct (_ ?= _)%Z; reflexivity.
Qed.

Lemma ltb_rank x y :
  is_nan x = false -> is_nan y = false ->
  (x <? y) = (rank x <? rank y)%Z.
Proof.
  rewrite !is_nan_spec, FloatAxioms.ltb_spec. intros Nx Ny. unfold SFltb, rank.
  rewrite (SFcompare_rank _ _ (Prim2SF_valid x) (Prim2SF_valid y) Nx Ny).
  unfold Z.ltb. destruct (_ ?= _)%Z; reflexivity.
Qed.

(** ** Monotone arithmetic *)

(** The operations on [float], for operands that are not negative. *)

Lemma sf_nonneg_le a b :
  sf_nonneg a = true -> SFleb a b = true -> sf_nonneg b = true.
Proof.
  destruct a as [[]|[]| |[] ma ea]; try discriminate;
    destruct b as [[]|[]| |[] mb eb]; try discriminate; reflexivity.
Qed.

Lemma nonneg_leb0 a : sf_nonneg (Prim2SF a) = true <-> (0 <=? a) = true.
Proof.
  rewrite FloatAxioms.leb_spec, Prim2SF_0. unfold SFleb.
  destruct (Prim2SF a) as [[]|[]| |[] ? ?]; simpl; split; congruence.
Qed.

Lemma finitePositive_finite c :
  finitePositive c = true -> exists m e, Prim2SF c = S754_finite false m e.
Proof.
  unfold finitePositive. intros F. apply andb_prop in F as [P F].
  apply positive_gtb0 in P. apply ltb_infinity_finite in F.
  destruct (Prim2SF c) as [[]|[]| |[] m e]; try discriminate; try congruence.
  eauto.
Qed.

Ltac finite_positive c F m e E :=
  let V := fresh "V" in
  pose proof (Prim2SF_valid c) as V;
  destruct (finitePositive_finite c F) as (m & e & E);
  rewrite E in V.

Lemma mul_le_mono a b c :
  (0 <=? a) = true -> (a <=? b) = true -> finitePositive c = true ->
  (0 <=? a * c) = true /\ (a * c <=? b * c) = true.
Proof.
  intros Pa Le Fc. finite_positive c Fc m e E.
  apply nonneg_leb0 in Pa. rewrite FloatAxioms.leb_spec in Le.
  pose proof (sf_nonneg_le _ _ Pa Le) as Pb.
  rewrite <- nonneg_leb0, FloatAxioms.leb_spec, !mul_spec, E.
  split.
  - pose proof (Prim2SF_valid a) as Va.
    destruct (Prim2SF a) as [[]|[]| |[] ma ea]; try discriminate Pa;
      try reflexivity.
    destruct (SFmul_finite ma ea m e Va V) as [-> _].
    apply round_pos_nonneg.
  - apply SFmul_mono; auto using Prim2SF_valid.
Qed.

Lemma add_le_mono c u1 u2 :
  finitePositive c = true -> (0 <=? u1) = true -> (u1 <=? u2) = true ->
  (c + u1 <=? c + u2) = true.
Proof.
  intros Fc P1 Le. finite_positive c Fc m e E.
  apply nonneg_leb0 in P1. rewrite FloatAxioms.leb_spec in Le.
  pose proof (sf_nonneg_le _ _ P1 Le) as P2.
  rewrite FloatAxioms.leb_spec, !add_spec, E.
  apply SFadd_mono; auto using Prim2SF_valid.
Qed.

Lemma sub_le_mono c p1 p2 :
  finitePositive c = true -> (c <=? p1) = true -> (p1 <=? p2) = true ->
  (0 <=? p1 - c) = true /\ (p1 - c <=? p2 - c) = true.
Proof.
  intros Fc L1 Le. finite_positive c Fc m e E.
  rewrite FloatAxioms.leb_spec in L1, Le. rewrite E in L1.
  rewrite <- nonneg_leb0, FloatAxioms.leb_spec, !sub_spec, E.
  destruct (SFsub_mono m e _ _ V (Prim2SF_valid p1) (Prim2SF_valid p2) L1 Le)
    as (N1 & _ & M).
  split; assumption.
Qed.

Lemma div_le_mono a1 a2 c :
  (0 <=? a1) = true -> (a1 <=? a2) = true -> finitePositive c = true ->
  (0 <=? a1 / c) = true /\ (a1 / c <=? a2 / c) = true.
Proof.
  intros P1 Le Fc. finite_positive c Fc m e E.
  apply nonneg_leb0 in P1. rewrite FloatAxioms.leb_spec in Le.
  pose proof (sf_nonneg_le _ _ P1 Le) as P2.
  rewrite <- nonneg_leb0, FloatAxioms.leb_spec, !div_spec, E.
  split.
  - apply SFdiv_nonneg; auto using Prim2SF_valid.
  - apply SFdiv_mono; auto using Prim2SF_valid.
Qed.

Lemma div_le_one a b :
  (0 <=? a) = true -> (a <? infinity) = true -> (0 <? b) = true ->
  (a <=? b) = true -> (a / b <=? 1) = true.
Proof.
  intros Pa Fa Pb Le.
  apply nonneg_leb0 in Pa. apply ltb_infinity_finite in Fa.
  apply positive_gtb0 in Pb.
  rewrite FloatAxioms.leb_spec in Le |- *. rewrite div_spec.
  pose proof (Prim2SF_valid a) as Va. pose proof (Prim2SF_valid b) as Vb.
  change (Prim2SF 1) with sf_one.
  destruct (Prim2SF a) as [sa|[]| |[] ma ea]; try discriminate Pa;
    try congruence.
  - destruct (Prim2SF b) as [[]|[]| |[] mb eb]; try discriminate Pb;
      destruct sa; reflexivity.
  - apply SFdiv_le_one; assumption.
Qed.

Lemma sub_le a b :
  (0 <=? a) = true -> (0 <=? b) = true -> is_nan (a - b) = false ->
  (a - b <=? a) = true.
Proof.
  intros Pa Pb N.
  apply nonneg_leb0 in Pa, Pb. apply is_nan_spec in N.
  rewrite sub_spec in N. rewrite FloatAxioms.leb_spec, sub_spec.
  apply SFsub_le; auto using Prim2SF_valid.
Qed.

(** Adding 0 to a finite number > 0 gives that number. *)
Lemma add_zero_r c : finitePositive c = true -> c + 0 = c.
Proof.
  intros Fc. finite_positive c Fc m e E.
  apply Prim2SF_inj. rewrite add_spec, E, Prim2SF_0. reflexivity.
Qed.

(** Dividing a finite number that is not negative by the larger of two
    numbers > 0 gives the smaller quotient. *)
Lemma div_le_antimono a c1 c2 :
  (0 <=? a) = true -> (a <? infinity) = true ->
  (0 <? c1) = true -> (c1 <=? c2) = true ->
  (a / c2 <=? a / c1) = true.
Proof.
  intros Pa Fa P1 Le.
  apply nonneg_leb0 in Pa. apply ltb_infinity_finite in Fa.
  apply positive_gtb0 in P1.
  rewrite FloatAxioms.leb_spec in Le |- *. rewrite !div_spec.
  pose proof (Prim2SF_valid a) as Va.
  destruct (Prim2SF a) as [sa|[]| |[] ma ea]; try discriminate Pa;
    try congruence.
  - revert P1 Le.
    destruct (Prim2SF c1) as [[]|[]| |[] m1 e1]; try discriminate;
      destruct (Prim2SF c2) as [[]|[]| |[] m2 e2]; try discriminate;
      destruct sa; reflexivity.
  - apply SFdiv_antimono; auto using Prim2SF_valid.
Qed.

(** Division by a number > 0, +Infinity included, is monotone on the
    numbers that are not negative, as long as the larger quotient is a
    number. *)
Lemma div_le_mono_pos a1 a2 c :
  (0 <=? a1) = true -> (a1 <=? a2) = true -> (0 <? c) = true ->
  is_nan (a2 / c) = false -> (a1 / c <=? a2 / c) = true.
Proof.
  intros P1 Le Pc N.
  destruct (c <? infinity) eqn:Fc.
  { apply div_le_mono; [exact P1 | exact Le |].
    unfold finitePositive. rewrite Pc, Fc. reflexivity. }
  revert N. apply positive_gtb0 in Pc. apply nonneg_leb0 in P1.
  revert Fc Le.
  rewrite is_nan_spec, FloatAxioms.ltb_spec, !FloatAxioms.leb_spec, !div_spec.
  change (Prim2SF infinity) with (S754_infinity false).
  destruct (Prim2SF c) as [[]|[]| |[] mc ec]; try discriminate Pc;
    try (intros Fc; discriminate Fc).
  intros _.
  destruct (Prim2SF a1) as [[]|[]| |[] m1 e1]; try discriminate P1;
    destruct (Prim2SF a2) as [[]|[]| |[] m2 e2]; intros Le N;
    try discriminate Le; try reflexivity; elim N; reflexivity.
Qed.

(** The product does not depend on the order of its factors. *)
Lemma mul_comm x y : x * y = y * x.
Proof.
  apply Prim2SF_inj. rewrite !mul_spec. unfold SF64mul, SFmul.
  destruct (Prim2SF x) as [sx|sx| |sx mx ex],
           (Prim2SF y) as [sy|sy| |sy my ey];
    try reflexivity; rewrite (xorb_comm sx sy); try reflexivity.
  rewrite (Pos.mul_comm mx my), (Z.add_comm ex ey). reflexivity.
Qed.

(** ** Operands of a result that is a number, or finite *)

Lemma div_numbers x y :
  is_nan (x / y) = false -> is_nan x = false /\ is_nan y = false.
Proof.
  rewrite !is_nan_spec, div_spec. unfold SF64div, SFdiv. intros H.
  split; intros E; rewrite E in H; apply H; [reflexivity|].
  destruct (Prim2SF x); reflexivity.
Qed.

Lemma sub_numbers x y :
  is_nan (x - y) = false -> is_nan x = false /\ is_nan y = false.
Proof.
  intros N. split.
  - destruct (is_nan x) eqn:E; [|reflexivity].
    rewrite sub_nan in N by auto. discriminate N.
  - destruct (is_nan y) eqn:E; [|reflexivity].
    rewrite sub_nan in N by auto. discriminate N.
Qed.

(** Two products by the same factor, the first one the smaller: the factor
    and the first operand are finite. *)
Lemma mul_ltb_finite l g f :
  (0 <? l) = true -> (0 <? g) = true -> (0 <? f) = true ->
  (g * f <=? l * f) = false ->
  finitePositive f = true /\ finitePositive l = true.
Proof.
  unfold finitePositive. intros Pl Pg Pf. rewrite Pl, Pf. cbn [andb].
  rewrite !FloatAxioms.ltb_spec, FloatAxioms.leb_spec, !mul_spec.
  apply positive_gtb0 in Pl, Pg, Pf.
  pose proof (Prim2SF_valid l) as Vl. pose proof (Prim2SF_valid g) as Vg.
  pose proof (Prim2SF_valid f) as Vf.
  destruct (Prim2SF l) as [[]|[]| |[] ml el]; try discriminate Pl;
    destruct (Prim2SF g) as [[]|[]| |[] mg eg]; try discriminate Pg;
    destruct (Prim2SF f) as [[]|[]| |[] mf ef]; try discriminate Pf;
    try (intros H; discriminate H); try (split; reflexivity).
  all: destruct (SFmul_finite mg eg mf ef Vg Vf) as [E _].
  all: intros H; exfalso; revert H.
  all: change (SF64mul (S754_infinity false) (S754_finite false mf ef))
         with (S754_infinity false).
  all: rewrite E, SFleb_nonneg_infinity by apply round_pos_nonneg.
  all: discriminate.
Qed.

(** A finite product with a number > 0: a factor that is not <= 0 is a
    finite number > 0. *)
Lemma mul_finite_l x y :
  (x <=? 0) = false -> (0 <? y) = true -> (x * y <? infinity) = true ->
  finitePositive x = true.
Proof.
  unfold finitePositive.
  rewrite !FloatAxioms.ltb_spec, FloatAxioms.leb_spec, mul_spec, Prim2SF_0.
  change (Prim2SF infinity) with (S754_infinity false).
  unfold SFleb, SFltb, SF64mul, SFmul.
  destruct (Prim2SF x) as [[]|[]| |[] mx ex];
    destruct (Prim2SF y) as [[]|[]| |[] my ey]; simpl;
    try discriminate; try reflexivity.
Qed.

(** ** Comparisons as inequalities of ranks *)

Lemma leb_rank_le x y : (x <=? y) = true -> (rank x <= rank y)%Z.
Proof.
  intros L. destruct (leb_numbers _ _ L) as [Nx Ny].
  rewrite (leb_rank _ _ Nx Ny) in L. apply Z.leb_le. exact L.
Qed.

Lemma ltb_rank_lt x y : (x <? y) = true -> (rank x < rank y)%Z.
Proof.
  intros L. destruct (ltb_numbers _ _ L) as [Nx Ny].
  rewrite (ltb_rank _ _ Nx Ny) in L. apply Z.ltb_lt. exact L.
Qed.

Lemma leb_false_rank x y :
  is_nan x = false -> is_nan y = false -> (x <=? y) = false ->
  (rank y < rank x)%Z.
Proof.
  intros Nx Ny L. rewrite (leb_rank _ _ Nx Ny) in L. apply Z.leb_gt. exact L.
Qed.

Lemma rank_le_leb x y :
  is_nan x = false -> is_nan y = false -> (rank x <= rank y)%Z ->
  (x <=? y) = true.
Proof.
  intros Nx Ny L. rewrite (leb_rank _ _ Nx Ny). apply Z.leb_le. exact L.
Qed.

Lemma ltb_leb_trans x y z :
  (x <? y) = true -> (y <=? z) = true -> (x <? z) = true.
Proof.
  intros L1 L2.
  destruct (ltb_numbers _ _ L1) as [Nx _].
  destruct (leb_numbers _ _ L2) as [_ Nz].
  rewrite (ltb_rank _ _ Nx Nz). apply Z.ltb_lt.
  pose proof (ltb_rank_lt _ _ L1). pose proof (leb_rank_le _ _ L2). lia.
Qed.

Lemma leb_ltb_trans x y z :
  (x <=? y) = true -> (y <? z) = true -> (x <? z) = true.
Proof.
  intros L1 L2.
  destruct (leb_numbers _ _ L1) as [Nx _].
  destruct (ltb_numbers _ _ L2) as [_ Nz].
  rewrite (ltb_rank _ _ Nx Nz). apply Z.ltb_lt.
  pose proof (leb_rank_le _ _ L1). pose proof (ltb_rank_lt _ _ L2). lia.
Qed.

(** The difference of a value whose sign bit is clear and a finite number
    that is neither negative nor above it. *)
Lemma sub_plus a b :
  plus a = true -> (0 <=? b) = true -> (b <? infinity) = true ->
  (b <=? a) = true ->
  plus (a - b) = true /\ is_nan (a - b) = false.
Proof.
  intros Pa Pb Fb Le.
  apply nonneg_leb0 in Pb. apply ltb_infinity_finite in Fb.
  rewrite FloatAxioms.leb_spec in Le.
  unfold plus in *. rewrite is_nan_spec, sub_spec.
  apply SFsub_plus; auto using Prim2SF_valid.
Qed.

Lemma leb_refl x : is_nan x = false -> (x <=? x) = true.
Proof.
  rewrite is_nan_spec, FloatAxioms.leb_spec. apply SFleb_refl.
Qed.

End Binary64.

(** Two literals denote different doubles. *)
Ltac float_neq :=
  let H := fresh in
  intros H; apply (f_equal Prim2SF) in H; vm_compute in H; discriminate H.

(** * The fuel curve interpolator *)

(** ** The row lookup *)

Lemma find_ratingPresent table k :
  ratingPresent table k = true <->
  exists row, find (fun r => kva r =? k) table = Some row.
Proof.
  unfold ratingPresent.
  induction table as [|r rest IH]; simpl.
  - split; [discriminate | intros [row H]; discriminate].
  - destruct (kva r =? k); simpl; [|exact IH].
    split; eauto.
Qed.

Lemma find_ratingAbsent table k :
  ratingPresent table k = false <-> find (fun r => kva r =? k) table = None.
Proof.
  pose proof (find_ratingPresent table k) as P.
  destruct (ratingPresent table k), (find _ table) eqn:F.
  - split; discriminate.
  - destruct P as [P _]. destruct (P eq_refl); discriminate.
  - destruct P as [_ P]. discriminate P. eauto.
  - split; reflexivity.
Qed.

(** In a table with unique ratings the lookup of a row's key finds that
    row. *)
Lemma find_ratingsUnique table row :
  ratingsUnique table = true -> In row table ->
  find (fun r => kva r =? kva row) table = Some row.
Proof.
  induction table as [|r rest IH]; simpl; intros U HIn; [contradiction|].
  apply andb_prop in U as [U Urest]. apply andb_prop in U as [Ur Uothers].
  destruct HIn as [->|HIn].
  - rewrite Ur. reflexivity.
  - rewrite forallb_forall in Uothers. specialize (Uothers row HIn).
    assert (E : (kva r =? kva row) = false)
      by (destruct (kva r =? kva row); [discriminate Uothers | reflexivity]).
    rewrite E. auto.
Qed.

(** ** The two paths of the interpolator *)

(** What the interpolator does on the row it has found. *)
Lemma fuelLphInterpSimple_found k p table row :
  find (fun r => kva r =? k) table = Some row ->
  fuelLphInterpSimple k p table =
  if p <=? 0.25 then Ok (lph25 row)
  else if p >=? 1 then Ok (lph100 row)
  else interpLoop breakpoints (samples row) p 0 3.
Proof. unfold fuelLphInterpSimple. intros ->. reflexivity. Qed.

(** Its only errors. *)
Lemma fuelLphInterpSimple_throws k p table e :
  fuelLphInterpSimple k p table = Throw e ->
  e = UnknownGensetRating k \/ e = InterpolationFailure.
Proof.
  unfold fuelLphInterpSimple.
  destruct (find _ table) as [row|]; [|intros [= <-]; auto].
  destruct (p <=? _); [discriminate|].
  destruct (p >=? _); [discriminate|].
  simpl.
  repeat match goal with
  | |- context [if ?c then _ else _] => destruct c; [discriminate|]
  end.
  intros [= <-]. auto.
Qed.

(** Strictly inside the calibrated range the loop finds a bracket: the first
    one unless 0.5 < p, the second one unless 0.75 < p, else the third. *)
Lemma interpLoop_finds y p :
  (0.25 <? p) = true -> (p <? 1.0) = true ->
  exists j,
    (j < 3)%nat /\
    (p >=? at_index breakpoints j) = true /\
    (p <=? at_index breakpoints (j + 1)) = true /\
    interpLoop breakpoints y p 0 3 = Ok (interpolated breakpoints y p j).
Proof.
  intros Lo Hi.
  destruct (Binary64.ltb_numbers _ _ Lo) as [_ Np].
  assert (L0 : (p >=? 0.25) = true) by exact (Binary64.ltb_leb _ _ Lo).
  assert (H3 : (p <=? 1) = true) by exact (Binary64.ltb_leb _ _ Hi).
  unfold breakpoints.
  cbn [interpLoop at_index nth Nat.add]. rewrite L0. cbn [andb].
  destruct (p <=? 0.5) eqn:B1.
  { exists 0%nat. repeat split; auto. }
  assert (L1 : (p >=? 0.5) = true)
    by exact (Binary64.ltb_leb _ _ (Binary64.leb_total p 0.5 Np eq_refl B1)).
  rewrite L1. cbn [andb].
  destruct (p <=? 0.75) eqn:B2.
  { exists 1%nat. repeat split; auto. }
  assert (L2 : (p >=? 0.75) = true)
    by exact (Binary64.ltb_leb _ _ (Binary64.leb_total p 0.75 Np eq_refl B2)).
  rewrite L2, H3. cbn [andb].
  exists 2%nat. repeat split; auto.
Qed.

(** The "Interpolation failed" error is thrown exactly for a known rating
    and a [loadPct] that is NaN. *)
Lemma fuelLphInterpSimple_fails_on_nan k p table :
  fuelLphInterpSimple k p table = Throw InterpolationFailure <->
  ratingPresent table k = true /\ is_nan p = true.
Proof.
  split.
  - intros T. destruct (ratingPresent table k) eqn:P.
    + split; [reflexivity|].
      apply find_ratingPresent in P as [row F].
      rewrite (fuelLphInterpSimple_found _ _ _ _ F) in T.
      destruct (is_nan p) eqn:Np; [reflexivity|exfalso].
      destruct (p <=? 0.25) eqn:Low; [discriminate|].
      unfold geb in T. destruct (1 <=? p) eqn:High; [discriminate|].
      apply Binary64.leb_total in Low; [|exact Np|reflexivity].
      apply Binary64.leb_total in High; [|reflexivity|exact Np].
      destruct (interpLoop_finds (samples row) p Low High)
        as (j & _ & _ & _ & E).
      congruence.
    + apply find_ratingAbsent in P.
      unfold fuelLphInterpSimple in T. rewrite P in T. discriminate.
  - intros [P Np]. apply find_ratingPresent in P as [row F].
    rewrite (fuelLphInterpSimple_found _ _ _ _ F).
    cbn [interpLoop at_index nth Nat.add]. unfold geb.
    rewrite !(Binary64.nan_leb_l p _ Np), !(Binary64.nan_leb_r _ p Np).
    reflexivity.
Qed.

(** ** Rows of a table with unique ratings (C5, C6) *)

Section CalibratedRow.

Variable table : list FuelCurvePoint.
Variable row : FuelCurvePoint.
Hypothesis Unique : ratingsUnique table = true.
Hypothesis Present : In row table.

(** C5 (amended): for every row of a table with unique ratings, the
    interpolator returns exactly [lph25] at 0.25 and [lph100] at 1.00; at 0.50
    and 0.75 it goes through the interpolation formula with [t = 1] and
    returns [lph25 + 1 * (lph50 - lph25)] and [lph50 + 1 * (lph75 - lph50)],
    which are exactly [lph50] and [lph75] for every row of the built-in
    table. *)
Theorem C5_breakpoints :
  fuelLphInterpSimple (kva row) 0.25 table = Ok (lph25 row) /\
  fuelLphInterpSimple (kva row) 1.0 table = Ok (lph100 row) /\
  fuelLphInterpSimple (kva row) 0.5 table
    = Ok (lph25 row + 1 * (lph50 row - lph25 row)) /\
  fuelLphInterpSimple (kva row) 0.75 table
    = Ok (lph50 row + 1 * (lph75 row - lph50 row)) /\
  (forall builtin, In builtin fuelCurveTable ->
   fuelLphInterpSimple (kva builtin) 0.5 fuelCurveTable
     = Ok (lph50 builtin) /\
   fuelLphInterpSimple (kva builtin) 0.75 fuelCurveTable
     = Ok (lph75 builtin)).
Proof.
  rewrite !(fuelLphInterpSimple_found _ _ _ _
              (find_ratingsUnique table row Unique Present)).
  do 4 (split; [reflexivity|]).
  intros builtin HIn. simpl in HIn.
  repeat (destruct HIn as [<-|HIn]; [split; reflexivity|]). contradiction.
Qed.

(** C6: for every row of a table with unique ratings and every [loadPct]:
    if [loadPct <= 0.25] the interpolator returns the row's [lph25], and if
    [loadPct >= 1.0] it returns the row's [lph100]. *)
Theorem C6_clamp p :
  ((p <=? 0.25) = true ->
   fuelLphInterpSimple (kva row) p table = Ok (lph25 row)) /\
  ((p >=? 1.0) = true ->
   fuelLphInterpSimple (kva row) p table = Ok (lph100 row)).
Proof.
  rewrite (fuelLphInterpSimple_found _ _ _ _
             (find_ratingsUnique table row Unique Present)).
  split; intros H.
  - rewrite H. reflexivity.
  - destruct (p <=? 0.25) eqn:Low.
    + (* 1 <= p <= 0.25 is impossible *)
      pose proof (Binary64.leb_trans 1 p 0.25 H Low) as Abs. discriminate Abs.
    + rewrite H. reflexivity.
Qed.

End CalibratedRow.

(** C5, as stated, fails: the row of [smallGensetTable] has [lph50 = 1.7]
    and [lph75 = 3.9]; at [loadPct = 0.50] the interpolator returns
    [0.6 + 1 * (1.7 - 0.6) = 1.7000000000000002], and at 0.75 it returns
    [1.7 + 1 * (3.9 - 1.7) = 3.9000000000000004]. *)
Lemma C5_breakpoint_not_exact :
  exists row,
    ratingsUnique smallGensetTable = true /\ In row smallGensetTable /\
    fuelLphInterpSimple (kva row) 0.5 smallGensetTable
      = Ok 1.7000000000000002 /\
    fuelLphInterpSimple (kva row) 0.5 smallGensetTable <> Ok (lph50 row) /\
    fuelLphInterpSimple (kva row) 0.75 smallGensetTable
      = Ok 3.9000000000000004 /\
    fuelLphInterpSimple (kva row) 0.75 smallGensetTable <> Ok (lph75 row).
Proof.
  eexists. split; [reflexivity|]. split; [left; reflexivity|].
  repeat split; try reflexivity; vm_compute; discriminate.
Qed.

Lemma C5_breakpoints_witness :
  fuelLphInterpSimple 125 0.25 fuelCurveTable = Ok 9.8 /\
  fuelLphInterpSimple 125 1.0 fuelCurveTable = Ok 28.0 /\
  fuelLphInterpSimple 125 0.5 fuelCurveTable = Ok 15.5 /\
  fuelLphInterpSimple 125 0.75 fuelCurveTable = Ok 22.0.
Proof.
  pose (row := {| kva := 125; lph25 := 9.8; lph50 := 15.5;
                  lph75 := 22.0; lph100 := 28.0 |}).
  assert (U : ratingsUnique fuelCurveTable = true) by reflexivity.
  assert (HIn : In row fuelCurveTable) by (simpl; tauto).
  destruct (C5_breakpoints fuelCurveTable row U HIn)
    as (H25 & H100 & _ & _ & Hbuiltin).
  destruct (Hbuiltin row HIn) as [H50 H75].
  exact (conj H25 (conj H100 (conj H50 H75))).
Defined.

Lemma C6_clamp_witness :
  fuelLphInterpSimple 125 0.1 fuelCurveTable = Ok 9.8 /\
  fuelLphInterpSimple 125 0.1 fuelCurveTable
    = fuelLphInterpSimple 125 0 fuelCurveTable /\
  fuelLphInterpSimple 125 infinity fuelCurveTable = Ok 28.0.
Proof.
  pose (row := {| kva := 125; lph25 := 9.8; lph50 := 15.5;
                  lph75 := 22.0; lph100 := 28.0 |}).
  assert (U : ratingsUnique fuelCurveTable = true) by reflexivity.
  assert (HIn : In row fuelCurveTable) by (simpl; tauto).
  split; [|split].
  - exact (proj1 (C6_clamp fuelCurveTable row U HIn 0.1) eq_refl).
  - exact (eq_trans
             (proj1 (C6_clamp fuelCurveTable row U HIn 0.1) eq_refl)
             (eq_sym (proj1 (C6_clamp fuelCurveTable row U HIn 0) eq_refl))).
  - exact (proj2 (C6_clamp fuelCurveTable row U HIn infinity) eq_refl).
Defined.

(** ** Unknown ratings (C7) *)

(** C7: when no row key is [===] to the rating, the interpolator throws the
    "Fuel curve missing" error whatever [loadPct] is; when some row key is, it
    never throws that error; and 9999 is such an unknown rating for the
    built-in table. *)
Theorem C7_unknown_rating k p table :
  (ratingPresent table k = false ->
   fuelLphInterpSimple k p table = Throw (UnknownGensetRating k)) /\
  (ratingPresent table k = true ->
   forall k', fuelLphInterpSimple k p table <> Throw (UnknownGensetRating k')) /\
  fuelLphInterpSimple 9999 p fuelCurveTable = Throw (UnknownGensetRating 9999).
Proof.
  split; [|split].
  - intros A. apply find_ratingAbsent in A.
    unfold fuelLphInterpSimple. rewrite A. reflexivity.
  - intros P k' T. apply find_ratingPresent in P as [row F].
    rewrite (fuelLphInterpSimple_found _ _ _ _ F) in T.
    destruct (p <=? 0.25); [discriminate|].
    destruct (p >=? 1); [discriminate|].
    simpl in T.
    repeat match type of T with
    | context [if ?c then _ else _] => destruct c; [discriminate|]
    end.
    discriminate.
  - reflexivity.
Qed.

(** ** The bracket search (C8) *)

(** C8: for a rating present in the table and [0.25 < loadPct < 1.0], the
    loop over the breakpoints finds a bracket [j] (with
    [x[j] <= loadPct <= x[j+1]]) in the row found for the rating: the
    interpolator returns the value interpolated there, so it does not throw
    "Interpolation failed". *)
Theorem C8_bracket_found table k p :
  ratingPresent table k = true ->
  (0.25 <? p) = true -> (p <? 1.0) = true ->
  exists row j,
    find (fun r => kva r =? k) table = Some row /\
    (j < 3)%nat /\
    (p >=? at_index breakpoints j) = true /\
    (p <=? at_index breakpoints (j + 1)) = true /\
    fuelLphInterpSimple k p table
      = Ok (interpolated breakpoints (samples row) p j) /\
    fuelLphInterpSimple k p table <> Throw InterpolationFailure.
Proof.
  intros P Lo Hi.
  apply find_ratingPresent in P as [row F].
  rewrite (fuelLphInterpSimple_found _ _ _ _ F).
  (* neither clamp applies *)
  assert (NotLow : (p <=? 0.25) = false).
  { destruct (p <=? 0.25) eqn:H; [|reflexivity].
    apply Binary64.leb_not_gtb in H. congruence. }
  assert (NotHigh : (p >=? 1) = false).
  { unfold geb. destruct (1 <=? p) eqn:H; [|reflexivity].
    apply Binary64.leb_not_gtb in H. congruence. }
  rewrite NotLow, NotHigh.
  destruct (interpLoop_finds (samples row) p Lo Hi) as (j & Hj & Lj & Uj & E).
  exists row, j. rewrite E.
  repeat split; auto. discriminate.
Qed.

Lemma C8_bracket_found_witness :
  fuelLphInterpSimple 125 0.448 fuelCurveTable = Ok 14.3144 /\
  fuelLphInterpSimple 125 0.448 fuelCurveTable <> Throw InterpolationFailure.
Proof.
  destruct (C8_bracket_found fuelCurveTable 125 0.448 eq_refl eq_refl eq_refl)
    as (row & j & _ & _ & _ & _ & _ & NoFailure).
  split; [reflexivity | exact NoFailure].
Defined.

(** ** Every outcome of the interpolator *)

Lemma fuelLphInterpSimple_outcome k p table :
  match fuelLphInterpSimple k p table with
  | Ok _ => ratingPresent table k = true /\ is_nan p = false
  | Throw e =>
      (e = UnknownGensetRating k /\ ratingPresent table k = false) \/
      (e = InterpolationFailure /\ ratingPresent table k = true /\
       is_nan p = true)
  end.
Proof.
  pose proof (fuelLphInterpSimple_fails_on_nan k p table) as Nan.
  destruct (ratingPresent table k) eqn:P.
  - destruct (fuelLphInterpSimple k p table) as [v|e] eqn:E.
    + split; [reflexivity|].
      destruct (is_nan p); [|reflexivity].
      destruct Nan as [_ Nan]. discriminate Nan. auto.
    + right. apply find_ratingPresent in P as [row F].
      destruct (fuelLphInterpSimple_throws _ _ _ _ E) as [->| ->].
      * unfold fuelLphInterpSimple in E. rewrite F in E.
        cbn [at_index nth] in E.
        destruct (p <=? _); [discriminate|].
        destruct (p >=? _); [discriminate|].
        cbn [interpLoop] in E.
        repeat match type of E with
        | context [if ?c then _ else _] => destruct c; [discriminate|]
        end.
        discriminate.
      * split; [reflexivity|]. apply Nan. reflexivity.
  - apply find_ratingAbsent in P. unfold fuelLphInterpSimple. rewrite P.
    left. split; reflexivity.
Qed.

(** X1: [fuelLphInterpSimple] returns a value exactly when the rating is
    the key of some row and [loadPct] is not NaN; it throws "Fuel curve
    missing" exactly when no row has the rating, and "Interpolation failed"
    exactly when a row has it and [loadPct] is NaN; it throws nothing
    else. *)
Theorem X1_interpolator_outcome k p table :
  ((exists v, fuelLphInterpSimple k p table = Ok v) <->
   ratingPresent table k = true /\ is_nan p = false) /\
  (fuelLphInterpSimple k p table = Throw (UnknownGensetRating k) <->
   ratingPresent table k = false) /\
  (fuelLphInterpSimple k p table = Throw InterpolationFailure <->
   ratingPresent table k = true /\ is_nan p = true) /\
  (forall e, fuelLphInterpSimple k p table = Throw e ->
   e = UnknownGensetRating k \/ e = InterpolationFailure).
Proof.
  pose proof (fuelLphInterpSimple_outcome k p table) as O.
  destruct (fuelLphInterpSimple k p table) as [v|e].
  - destruct O as [P N]. split; [|split; [|split]].
    + split; [auto | eauto].
    + split; [discriminate | congruence].
    + split; [discriminate | intros [_ N']; congruence].
    + discriminate.
  - destruct O as [[-> A]|(-> & P & N)]; (split; [|split; [|split]]).
    + split; [intros [v H]; discriminate H | intros [P _]; congruence].
    + split; auto.
    + split; [discriminate | intros [P _]; congruence].
    + intros e [= <-]. auto.
    + split; [intros [v H]; discriminate H | intros [_ N']; congruence].
    + split; [discriminate | congruence].
    + split; auto.
    + intros e [= <-]. auto.
Qed.

(** ** Rising rows: the interpolated fuel is > 0 *)

Ltac split_all :=
  repeat match goal with
         | H : _ && _ = true |- _ => apply andb_prop in H as [? ?]
         end.

(** The value interpolated in a bracket, above its lower breakpoint [xj]:
    [w] is the width of the bracket, [yj] the sample at [xj] and [d] the
    increment to the next sample. *)
Lemma bracket_positive p xj w yj d :
  (xj <? p) = true -> finitePositive w = true ->
  finitePositive yj = true -> finitePositive d = true ->
  (0 <? yj + ((p - xj) / w) * d) = true.
Proof.
  intros Lt Fx Fy Fd.
  apply Binary64.sub_gt0 in Lt.
  pose proof (Binary64.div_pos_finite _ _ Lt Fx) as Nt.
  unfold finitePositive in Fx, Fy. split_all.
  assert (Pt : plus ((p - xj) / w) = true) by auto with binary64.
  apply Binary64.add_pos.
  - assumption.
  - unfold finitePositive in Fd. split_all. auto with binary64.
  - apply Binary64.mul_plus_finite; assumption.
Qed.

(** Past a bracket that does not hold [p], a [p] that is >= its upper
    breakpoint is > it. *)
Lemma past_bracket p a b :
  (a <=? b) = true -> (p >=? a) && (p <=? b) = false -> (p >=? b) = true ->
  (b <? p) = true.
Proof.
  unfold geb. intros AB Out Ge.
  rewrite (Binary64.leb_trans a b p AB Ge) in Out. cbn [andb] in Out.
  destruct (Binary64.leb_numbers _ _ Ge) as [Nb Np].
  apply Binary64.leb_total; assumption.
Qed.

Lemma fuelLphInterpSimple_positive table k p v :
  forallb rowRising table = true ->
  fuelLphInterpSimple k p table = Ok v -> (0 <? v) = true.
Proof.
  intros Rising. unfold fuelLphInterpSimple.
  destruct (find _ table) as [row|] eqn:F; [|discriminate].
  apply find_some in F as [HIn _].
  rewrite forallb_forall in Rising. specialize (Rising row HIn).
  unfold rowRising, samples in Rising. cbn [forallb] in Rising. split_all.
  cbn [at_index nth].
  destruct (p <=? 0.25) eqn:Low.
  { intros [= <-]. unfold finitePositive in *. split_all. assumption. }
  destruct (p >=? 1) eqn:High.
  { intros [= <-]. unfold finitePositive in *. split_all. assumption. }
  cbn [interpLoop at_index nth Nat.add].
  destruct ((p >=? 0.25) && (p <=? 0.5)) eqn:B0.
  { intros [= <-]. apply andb_prop in B0 as [Ge _].
    destruct (Binary64.leb_numbers _ _ Ge) as [_ Np].
    apply bracket_positive; auto.
    apply Binary64.leb_total; [exact Np|reflexivity|exact Low]. }
  destruct ((p >=? 0.5) && (p <=? 0.75)) eqn:B1.
  { intros [= <-]. apply andb_prop in B1 as [Ge _].
    apply bracket_positive; auto.
    exact (past_bracket p 0.25 0.5 eq_refl B0 Ge). }
  destruct ((p >=? 0.75) && (p <=? 1)) eqn:B2; [|discriminate].
  intros [= <-]. apply andb_prop in B2 as [Ge _].
  apply bracket_positive; auto.
  exact (past_bracket p 0.5 0.75 eq_refl B1 Ge).
Qed.

(** X2: on a table whose rows have finite samples > 0 that rise with the
    load, for a rating of the table and a [loadPct] that is not NaN,
    [fuelLphInterpSimple] returns a number that is > 0 (so not <= 0, and not
    NaN), at the clamps and in every bracket. *)
Theorem X2_interpolated_fuel_positive table k p :
  forallb rowRising table = true ->
  ratingPresent table k = true -> is_nan p = false ->
  exists v,
    fuelLphInterpSimple k p table = Ok v /\
    (0 <? v) = true /\ (v <=? 0) = false /\ is_nan v = false.
Proof.
  intros Rising P N.
  pose proof (fuelLphInterpSimple_outcome k p table) as O.
  destruct (fuelLphInterpSimple k p table) as [v|e] eqn:E.
  - exists v. split; [reflexivity|].
    pose proof (fuelLphInterpSimple_positive _ _ _ _ Rising E) as Pos.
    split; [exact Pos|]. split; [exact (Binary64.gtb_not_leb _ _ Pos)|].
    exact (proj2 (Binary64.ltb_numbers _ _ Pos)).
  - destruct O as [[_ A]|(_ & _ & N')]; congruence.
Qed.

Lemma X2_interpolated_fuel_positive_witness :
  exists v,
    fuelLphInterpSimple 125 0.448 fuelCurveTable = Ok v /\
    (0 <? v) = true /\ (v <=? 0) = false /\ is_nan v = false.
Proof.
  exact (X2_interpolated_fuel_positive fuelCurveTable 125 0.448
           eq_refl eq_refl eq_refl).
Defined.

(** ** The ratings of the dropdown *)

Lemma ratingsUnique_NoDup table :
  ratingsUnique table = true -> NoDup (map kva table).
Proof.
  induction table as [|r rest IH]; cbn [ratingsUnique map]; intros U;
    [constructor|].
  apply andb_prop in U as [U Urest]. apply andb_prop in U as [Ur Uothers].
  constructor; [|auto].
  intros HIn. apply in_map_iff in HIn as (r' & E & HIn).
  rewrite forallb_forall in Uothers. specialize (Uothers r' HIn).
  rewrite E, Ur in Uothers. discriminate Uothers.
Qed.

Lemma gensetSizes_present k :
  In k gensetSizes -> ratingPresent fuelCurveTable k = true.
Proof.
  unfold gensetSizes. intros HIn.
  apply in_map_iff in HIn as (row & <- & HIn).
  apply find_ratingPresent. exists row.
  apply find_ratingsUnique; [reflexivity|exact HIn].
Qed.

Lemma fuelCurveTable_rising : forallb rowRising fuelCurveTable = true.
Proof. reflexivity. Qed.

(** X3: [gensetSizes] offers no rating twice; each of its ratings is the
    key of a row of the built-in table, the row that the lookup of
    [fuelLphInterpSimple] finds; so for a rating of the dropdown the
    interpolator never throws "Fuel curve missing", and for every [loadPct]
    that is not NaN it returns a number > 0. *)
Theorem X3_dropdown_ratings k p :
  In k gensetSizes ->
  NoDup gensetSizes /\
  (exists row,
     In row fuelCurveTable /\ kva row = k /\
     find (fun r => kva r =? k) fuelCurveTable = Some row) /\
  (forall k', fuelLphInterpSimple k p fuelCurveTable
              <> Throw (UnknownGensetRating k')) /\
  (is_nan p = false ->
   exists v, fuelLphInterpSimple k p fuelCurveTable = Ok v /\
             (0 <? v) = true).
Proof.
  intros HIn.
  pose proof (gensetSizes_present k HIn) as P.
  pose proof (fuelLphInterpSimple_outcome k p fuelCurveTable) as O.
  split; [apply ratingsUnique_NoDup; reflexivity|].
  split; [|split].
  - unfold gensetSizes in HIn.
    apply in_map_iff in HIn as (row & <- & HIn).
    exists row. split; [exact HIn|]. split; [reflexivity|].
    apply find_ratingsUnique; [reflexivity|exact HIn].
  - intros k' T. rewrite T in O.
    destruct O as [[_ A]|(O & _)]; congruence.
  - intros N.
    destruct (fuelLphInterpSimple k p fuelCurveTable) as [v|e] eqn:E.
    + exists v. split; [reflexivity|].
      exact (fuelLphInterpSimple_positive _ _ _ _ fuelCurveTable_rising E).
    + destruct O as [[_ A]|(_ & _ & N')]; congruence.
Qed.

Lemma X3_dropdown_ratings_witness :
  NoDup gensetSizes /\
  (exists row,
     In row fuelCurveTable /\ kva row = 250 /\
     find (fun r => kva r =? 250) fuelCurveTable = Some row) /\
  (forall k', fuelLphInterpSimple 250 0.6 fuelCurveTable
              <> Throw (UnknownGensetRating k')) /\
  (is_nan 0.6 = false ->
   exists v, fuelLphInterpSimple 250 0.6 fuelCurveTable = Ok v /\
             (0 <? v) = true).
Proof.
  apply (X3_dropdown_ratings 250 0.6).
  unfold gensetSizes. cbn [map fuelCurveTable kva]. do 13 right. left.
  reflexivity.
Defined.

(** ** Rising rows: the interpolated fuel rises with the load *)

(** The value interpolated in a bracket, from its lower breakpoint [xj] on:
    it is not below the sample [yj], and it rises with the load, through the
    roundings of the subtraction, the division, the product and the sum. *)
Lemma bracket_monotone p1 p2 xj w yj d :
  finitePositive xj = true -> finitePositive w = true ->
  finitePositive yj = true -> finitePositive d = true ->
  (xj <=? p1) = true -> (p1 <=? p2) = true ->
  (yj <=? yj + ((p1 - xj) / w) * d) = true /\
  (yj + ((p1 - xj) / w) * d <=? yj + ((p2 - xj) / w) * d) = true.
Proof.
  intros Fx Fw Fy Fd L1 Le.
  destruct (Binary64.sub_le_mono _ _ _ Fx L1 Le) as [S0 S].
  destruct (Binary64.div_le_mono _ _ _ S0 S Fw) as [T0 T].
  destruct (Binary64.mul_le_mono _ _ _ T0 T Fd) as [M0 M].
  split.
  - rewrite <- (Binary64.add_zero_r yj Fy) at 1.
    apply Binary64.add_le_mono; [exact Fy | reflexivity | exact M0].
  - apply Binary64.add_le_mono; assumption.
Qed.

Section RisingRow.

Variable row : FuelCurvePoint.
Hypothesis Rising : rowRising row = true.
Hypothesis Closed : rowClosed row = true.

Lemma interpolated_monotone j p1 p2 :
  (j < 3)%nat ->
  (at_index breakpoints j <=? p1) = true -> (p1 <=? p2) = true ->
  (at_index (samples row) j <=? interpolated breakpoints (samples row) p1 j)
  = true /\
  (interpolated breakpoints (samples row) p1 j
   <=? interpolated breakpoints (samples row) p2 j) = true.
Proof.
  intros J L1 Le.
  unfold rowRising, samples in Rising. cbn [forallb] in Rising. split_all.
  destruct j as [|[|[|j]]]; [| | |lia].
  - exact (bracket_monotone p1 p2 0.25 (0.5 - 0.25) (lph25 row)
             (lph50 row - lph25 row) eq_refl eq_refl ltac:(assumption)
             ltac:(assumption) L1 Le).
  - exact (bracket_monotone p1 p2 0.5 (0.75 - 0.5) (lph50 row)
             (lph75 row - lph50 row) eq_refl eq_refl ltac:(assumption)
             ltac:(assumption) L1 Le).
  - exact (bracket_monotone p1 p2 0.75 (1 - 0.75) (lph75 row)
             (lph100 row - lph75 row) eq_refl eq_refl ltac:(assumption)
             ltac:(assumption) L1 Le).
Qed.

(** In a bracket, the value lies between the two samples. *)
Lemma interpolated_bounds j p :
  (j < 3)%nat -> (at_index breakpoints j <=? p) = true ->
  (p <=? at_index breakpoints (j + 1)) = true ->
  (at_index (samples row) j <=? interpolated breakpoints (samples row) p j)
  = true /\
  (interpolated breakpoints (samples row) p j
   <=? at_index (samples row) (j + 1)) = true.
Proof.
  intros J L U.
  destruct (interpolated_monotone j p _ J L U) as [Lo M].
  split; [exact Lo|].
  apply Binary64.leb_trans with (1 := M).
  unfold rowClosed in Closed. cbn [forallb] in Closed. split_all.
  destruct j as [|[|[|j]]]; [assumption|assumption|assumption|lia].
Qed.

(** The breakpoints rise, and so do the samples. *)
Lemma breakpoints_chain :
  (rank (at_index breakpoints 0) < rank (at_index breakpoints 1) /\
   rank (at_index breakpoints 1) < rank (at_index breakpoints 2) /\
   rank (at_index breakpoints 2) < rank (at_index breakpoints 3))%Z.
Proof. repeat split; vm_compute; reflexivity. Qed.

Lemma samples_chain :
  (rank (at_index (samples row) 0) <= rank (at_index (samples row) 1) /\
   rank (at_index (samples row) 1) <= rank (at_index (samples row) 2) /\
   rank (at_index (samples row) 2) <= rank (at_index (samples row) 3))%Z.
Proof.
  assert (S : forall j,
             (j < 3)%nat ->
             (rank (at_index (samples row) j)
              <= rank (at_index (samples row) (j + 1)))%Z).
  { intros j J. apply Binary64.leb_rank_le.
    assert (L : (at_index breakpoints j <=? at_index breakpoints j) = true)
      by (destruct j as [|[|[|j]]]; [reflexivity..|lia]).
    assert (U : (at_index breakpoints j <=? at_index breakpoints (j + 1))
                = true)
      by (destruct j as [|[|[|j]]]; [reflexivity..|lia]).
    destruct (interpolated_bounds j _ J L U) as [Lo Hi].
    exact (Binary64.leb_trans _ _ _ Lo Hi). }
  repeat split; [apply (S 0%nat) | apply (S 1%nat) | apply (S 2%nat)]; lia.
Qed.

Variable table : list FuelCurvePoint.
Variable k : float.
Hypothesis Found : find (fun r => kva r =? k) table = Some row.

(** Where [loadPct] lies and what the interpolator returns there: a sample
    at the two clamps, the interpolated value in the bracket that holds
    [loadPct], between the samples of that bracket. *)
Lemma fuelLphInterpSimple_regions p v :
  fuelLphInterpSimple k p table = Ok v ->
  (rank p <= rank (at_index breakpoints 0) /\
   rank v = rank (at_index (samples row) 0))%Z \/
  (exists j,
     (j < 3)%nat /\ (at_index breakpoints j <=? p) = true /\
     (rank (at_index breakpoints j) < rank p
      <= rank (at_index breakpoints (j + 1)) /\
      rank p < rank (at_index breakpoints 3))%Z /\
     v = interpolated breakpoints (samples row) p j /\
     (rank (at_index (samples row) j) <= rank v
      <= rank (at_index (samples row) (j + 1)))%Z) \/
  (rank (at_index breakpoints 3) <= rank p /\
   rank v = rank (at_index (samples row) 3))%Z.
Proof.
  intros H.
  pose proof (fuelLphInterpSimple_outcome k p table) as O.
  rewrite H in O. destruct O as [_ Np].
  rewrite (fuelLphInterpSimple_found _ _ _ _ Found) in H.
  destruct (p <=? 0.25) eqn:Low.
  { injection H as <-. left. split; [|reflexivity].
    exact (Binary64.leb_rank_le _ _ Low). }
  unfold geb in H. destruct (1 <=? p) eqn:High.
  { injection H as <-. right. right. split; [|reflexivity].
    exact (Binary64.leb_rank_le _ _ High). }
  right. left.
  apply Binary64.leb_false_rank in Low; [|exact Np|reflexivity].
  apply Binary64.leb_false_rank in High; [|reflexivity|exact Np].
  assert (In : forall j,
             (j < 3)%nat -> (rank (at_index breakpoints j) < rank p)%Z ->
             (p <=? at_index breakpoints (j + 1)) = true ->
             (at_index breakpoints j <=? p) = true /\
             (rank (at_index breakpoints j) < rank p
              <= rank (at_index breakpoints (j + 1)))%Z /\
             (rank (at_index (samples row) j)
              <= rank (interpolated breakpoints (samples row) p j)
              <= rank (at_index (samples row) (j + 1)))%Z).
  { intros j J Lo Hi.
    assert (L : (at_index breakpoints j <=? p) = true).
    { apply Binary64.rank_le_leb; [|exact Np|lia].
      destruct j as [|[|[|j]]]; [reflexivity..|lia]. }
    split; [exact L|]. split.
    - split; [exact Lo|]. exact (Binary64.leb_rank_le _ _ Hi).
    - destruct (interpolated_bounds j p J L Hi) as [A B].
      split; [exact (Binary64.leb_rank_le _ _ A)
             | exact (Binary64.leb_rank_le _ _ B)]. }
  cbn [interpLoop] in H. unfold geb in H.
  destruct (p <=? at_index breakpoints (0 + 1)) eqn:U0.
  { destruct (In 0%nat ltac:(lia) Low U0) as (L & R & B).
    rewrite L in H. injection H as <-.
    exists 0%nat. repeat split; try assumption; try lia; apply B. }
  rewrite andb_false_r in H.
  apply Binary64.leb_false_rank in U0; [|exact Np|reflexivity].
  destruct (p <=? at_index breakpoints (1 + 1)) eqn:U1.
  { destruct (In 1%nat ltac:(lia) U0 U1) as (L & R & B).
    rewrite L in H. injection H as <-.
    exists 1%nat. repeat split; try assumption; try lia; apply B. }
  rewrite andb_false_r in H.
  apply Binary64.leb_false_rank in U1; [|exact Np|reflexivity].
  destruct (p <=? at_index breakpoints (2 + 1)) eqn:U2.
  { destruct (In 2%nat ltac:(lia) U1 U2) as (L & R & B).
    rewrite L in H. injection H as <-.
    exists 2%nat. repeat split; try assumption; try lia; apply B. }
  rewrite andb_false_r in H. discriminate H.
Qed.

(** A returned value is a number. *)
Lemma fuelLphInterpSimple_number p v :
  fuelLphInterpSimple k p table = Ok v -> is_nan v = false.
Proof.
  intros H. rewrite (fuelLphInterpSimple_found _ _ _ _ Found) in H.
  assert (Table : forallb rowRising [row] = true)
    by (cbn [forallb]; rewrite Rising; reflexivity).
  assert (H' : fuelLphInterpSimple (kva row) p [row] = Ok v).
  { unfold fuelLphInterpSimple, find.
    destruct (kva row =? kva row) eqn:E; [exact H|].
    apply find_some in Found as [_ K].
    destruct (Binary64.eqb_numbers _ _ K) as [Nk _].
    unfold is_nan in Nk. apply negb_false_iff in Nk. congruence. }
  pose proof (fuelLphInterpSimple_positive _ _ _ _ Table H') as P.
  exact (proj2 (Binary64.ltb_numbers _ _ P)).
Qed.

(** Of two values that the interpolator returns, the one for the smaller
    [loadPct] is the smaller one; both lie between the first and the last
    sample of the row. *)
Lemma fuelLphInterpSimple_monotone p1 p2 v1 v2 :
  fuelLphInterpSimple k p1 table = Ok v1 ->
  fuelLphInterpSimple k p2 table = Ok v2 ->
  (p1 <=? p2) = true ->
  (lph25 row <=? v1) = true /\ (v1 <=? v2) = true /\
  (v2 <=? lph100 row) = true.
Proof.
  intros H1 H2 Le.
  pose proof (fuelLphInterpSimple_number _ _ H1) as N1.
  pose proof (fuelLphInterpSimple_number _ _ H2) as N2.
  assert (N25 : is_nan (lph25 row) = false /\ is_nan (lph100 row) = false).
  { unfold rowRising, samples in Rising. cbn [forallb] in Rising.
    unfold finitePositive in Rising. split_all.
    split; eapply proj2, Binary64.ltb_numbers; eassumption. }
  destruct N25 as [N25 N100].
  pose proof breakpoints_chain as (X01 & X12 & X23).
  pose proof samples_chain as (Y01 & Y12 & Y23).
  pose proof (Binary64.leb_rank_le _ _ Le) as R.
  pose proof (fuelLphInterpSimple_regions p1 v1 H1) as R1.
  pose proof (fuelLphInterpSimple_regions p2 v2 H2) as R2.
  assert (Ranks :
    (rank (lph25 row) <= rank v1 /\ rank v1 <= rank v2 /\
     rank v2 <= rank (lph100 row))%Z).
  { change (rank (lph25 row)) with (rank (at_index (samples row) 0)).
    change (rank (lph100 row)) with (rank (at_index (samples row) 3)).
    destruct R1 as [R1|[(j1 & J1 & L1 & P1 & E1 & B1)|R1]];
      destruct R2 as [R2|[(j2 & J2 & L2 & P2 & E2 & B2)|R2]];
      try (destruct j1 as [|[|[|j1]]]; [| | |lia]);
      try (destruct j2 as [|[|[|j2]]]; [| | |lia]);
      cbn [Nat.add] in *; try lia.
    all: split; [lia|]; split; [|lia]; subst v1 v2;
      apply Binary64.leb_rank_le.
    all: eapply proj2, interpolated_monotone; eauto. }
  destruct Ranks as (G1 & G2 & G3).
  repeat split; apply Binary64.rank_le_leb; assumption.
Qed.

End RisingRow.

Lemma fuelCurveTable_closed : forallb rowClosed fuelCurveTable = true.
Proof. reflexivity. Qed.

(** X15: on a table whose rows are rising and closed (in each bracket the
    value interpolated at the upper breakpoint does not pass the next
    sample; the built-in table is such a table), [fuelLphInterpSimple] never
    steps down: of two values that it returns for one rating, the one for the
    smaller [loadPct] is <= the other one, whatever the four roundings of an
    interpolation do; and every value lies between [lph25] and [lph100] of
    the row of the rating. *)
Theorem X15_fuel_curve_monotone table k p1 p2 v1 v2 :
  forallb rowRising table = true -> forallb rowClosed table = true ->
  fuelLphInterpSimple k p1 table = Ok v1 ->
  fuelLphInterpSimple k p2 table = Ok v2 ->
  (p1 <=? p2) = true ->
  (v1 <=? v2) = true /\
  exists row,
    find (fun r => kva r =? k) table = Some row /\
    (lph25 row <=? v1) = true /\ (v2 <=? lph100 row) = true.
Proof.
  intros Rising Closed H1 H2 Le.
  destruct (find (fun r => kva r =? k) table) as [row|] eqn:Found.
  - pose proof (find_some _ _ Found) as [HIn _].
    rewrite forallb_forall in Rising, Closed.
    destruct (fuelLphInterpSimple_monotone row (Rising row HIn)
                (Closed row HIn) table k Found p1 p2 v1 v2 H1 H2 Le)
      as (Lo & M & Hi).
    split; [exact M|]. exists row. auto.
  - unfold fuelLphInterpSimple in H1. rewrite Found in H1. discriminate H1.
Qed.

Lemma X15_fuel_curve_monotone_witness :
  exists v1 v2,
    fuelLphInterpSimple 125 0.448 fuelCurveTable = Ok v1 /\
    fuelLphInterpSimple 125 0.6 fuelCurveTable = Ok v2 /\
    (v1 <=? v2) = true.
Proof.
  eexists. eexists. split; [reflexivity|]. split; [reflexivity|].
  exact (proj1 (X15_fuel_curve_monotone fuelCurveTable 125 0.448 0.6 _ _
                  eq_refl eq_refl eq_refl eq_refl eq_refl)).
Defined.

(** * The ROI engine *)

(** Runs through the gates of [bessRoi] in a hypothesis [H] saying that it
    returned: every condition that throws is false. *)
Ltac roi_returns H :=
  unfold bessRoi in H;
  match type of H with
  | context [match ?i with Build_RoiInputs _ _ _ _ _ _ _ _ _ => _ end] =>
      destruct i as [gKVA lKVA pf hours price size unitPrice sMax sMin]
  end;
  cbv zeta in H;
  repeat match type of H with
  | (if ?c then Throw _ else _) = Ok _ =>
      let G := fresh "G" in destruct c eqn:G; [discriminate H|]
  | bind ?m _ = Ok _ =>
      let F := fresh "F" in
      destruct m as [?fuel|?] eqn:F; cbn [bind] in H; [|discriminate H]
  end;
  injection H as H; subst.

Ltac unfold_vocabulary :=
  unfold electricalInvalid, sizingInvalid, socWindowInvalid, noHeadroom,
    surplusPowerKW, usableEnergyKWh, gensetPowerKW, loadPowerKW in *;
  cbn [gensetKVA loadKVA powerFactor hoursPerDay dieselPricePerL bessSizeKWh
       bessPricePerKWh socMax socMin] in *.

Ltac split_gates :=
  repeat match goal with
         | H : _ || _ = false |- _ => apply orb_false_elim in H as [? ?]
         end.

(** ** Scenario A (C1) *)

(** C1, as stated, fails on [loadKW]: in binary64, [0.8] is
    0.8000000000000000444 and [56 * 0.8] rounds to 44.800000000000004, the
    double next above 44.8, which is not [===] to the literal [44.8]. *)
Lemma C1_loadKW_is_not_44_8 :
  exists r,
    bessRoi scenarioA fuelCurveTable = Ok r /\
    loadKW r = 44.800000000000004 /\
    (loadKW r =? 44.8) = false /\
    loadKW r <> 44.8.
Proof.
  eexists. split; [reflexivity|]. cbn [loadKW].
  split; [reflexivity|]. split; [reflexivity|]. float_neq.
Qed.

(** C1 (amended): on scenario A with the built-in table [bessRoi] returns a
    result with [loadPct = 0.448], [loadKW = 44.800000000000004] (the product
    [56 * 0.8] in binary64, one unit in the last place above 44.8),
    [capex = 338000] and a [paybackYears] that is present and > 0. *)
Theorem C1_scenarioA :
  exists r y,
    bessRoi scenarioA fuelCurveTable = Ok r /\
    loadPct r = 0.448 /\
    loadKW r = 44.800000000000004 /\
    loadKW r = next_up 44.8 /\
    capex r = 338000 /\
    paybackYears r = Some y /\ (y >? 0) = true.
Proof.
  eexists. eexists. split; [reflexivity|].
  cbn [loadPct loadKW capex paybackYears].
  repeat split; reflexivity.
Qed.

(** ** The validation gates (C3) *)

(** The gates run in order; past them, none of their four errors is thrown. *)
Lemma bessRoi_gates i t :
  if electricalInvalid i then bessRoi i t = Throw InvalidElectricalInputs
  else if sizingInvalid i then bessRoi i t = Throw InvalidSizingInputs
  else if socWindowInvalid i then bessRoi i t = Throw InvalidSocWindow
  else if noHeadroom i then bessRoi i t = Throw NoChargingHeadroom
  else forall e, bessRoi i t = Throw e ->
         e <> InvalidElectricalInputs /\ e <> InvalidSizingInputs /\
         e <> InvalidSocWindow /\ e <> NoChargingHeadroom.
Proof.
  destruct i as [gKVA lKVA pf hours price size unitPrice sMax sMin].
  unfold bessRoi. unfold_vocabulary. cbv zeta.
  destruct (_ || _ || _); [reflexivity|].
  destruct (_ || _ || _); [reflexivity|].
  destruct (_ || _ || _); [reflexivity|].
  destruct (_ >=? _); [reflexivity|].
  intros e H.
  repeat match type of H with
  | (if ?c then Throw _ else _) = Throw _ =>
      destruct c; [injection H as <-; repeat split; discriminate|]
  | bind ?m _ = Throw _ =>
      let F := fresh "F" in
      destruct m eqn:F; cbn [bind] in H;
      [|injection H as <-;
        destruct (fuelLphInterpSimple_throws _ _ _ _ F) as [->| ->];
        repeat split; discriminate]
  end.
  discriminate H.
Qed.

(** The later guard on the surplus power, which the specification files
    under the headroom error too, never fires: past the headroom gate the
    difference of the two powers is > 0, or NaN. *)
Lemma surplus_guard_never_fires i t : bessRoi i t <> Throw NoSurplusPower.
Proof.
  intros H.
  destruct i as [gKVA lKVA pf hours price size unitPrice sMax sMin].
  unfold bessRoi in H. cbv zeta in H.
  repeat match type of H with
  | (if ?c then Throw _ else _) = Throw _ =>
      let C := fresh "C" in destruct c eqn:C; [try discriminate H|]
  | bind ?m _ = Throw _ =>
      let F := fresh "F" in
      destruct m eqn:F; cbn [bind] in H;
      [|injection H as ->;
        destruct (fuelLphInterpSimple_throws _ _ _ _ F); discriminate]
  end.
  - (* the guard fired *)
    match goal with
    | G : (_ >=? _) = false, C : (_ - _ <=? 0) = true |- _ =>
        unfold geb in G; apply Binary64.sub_not_leb0 in G; congruence
    end.
  - discriminate H.
Qed.

(** C3: [bessRoi] throws the error of the first violated gate, in the order
    electrical inputs, sizing inputs, SOC window, headroom, and throws each of
    these four errors only then; the four errors have four different
    messages, and the later guard on the surplus power never fires.  (An
    error is a [Throw]: it carries no result.) *)
Theorem C3_validation_order i t show :
  (bessRoi i t = Throw InvalidElectricalInputs <->
   electricalInvalid i = true) /\
  (bessRoi i t = Throw InvalidSizingInputs <->
   electricalInvalid i = false /\ sizingInvalid i = true) /\
  (bessRoi i t = Throw InvalidSocWindow <->
   electricalInvalid i = false /\ sizingInvalid i = false /\
   socWindowInvalid i = true) /\
  (bessRoi i t = Throw NoChargingHeadroom <->
   electricalInvalid i = false /\ sizingInvalid i = false /\
   socWindowInvalid i = false /\ noHeadroom i = true) /\
  NoDup (map (message show)
           [InvalidElectricalInputs; InvalidSizingInputs; InvalidSocWindow;
            NoChargingHeadroom]) /\
  bessRoi i t <> Throw NoSurplusPower.
Proof.
  pose proof (surplus_guard_never_fires i t) as Surplus.
  assert (Messages : NoDup (map (message show)
            [InvalidElectricalInputs; InvalidSizingInputs; InvalidSocWindow;
             NoChargingHeadroom]))
    by (repeat constructor; simpl; intuition discriminate).
  pose proof (bessRoi_gates i t) as G.
  destruct (electricalInvalid i), (sizingInvalid i), (socWindowInvalid i),
    (noHeadroom i).
  all: repeat split; intros; try exact Messages; try exact Surplus.
  (* a gate fired: [G] is the error thrown *)
  all: try exact G.
  all: try (repeat match goal with H : _ /\ _ |- _ => destruct H end;
            congruence).
  (* no gate fired *)
  all: match goal with
       | H : bessRoi _ _ = Throw _ |- _ =>
           apply G in H; destruct H as (? & ? & ? & ?); congruence
       end.
Qed.

(** ** Accepted inputs *)

(** What a returned result says about the inputs: no gate or guard fired,
    and the fields the claims are about have the values of the derivation
    chain. *)
Lemma bessRoi_returns i t r :
  bessRoi i t = Ok r ->
  (electricalInvalid i = false /\ sizingInvalid i = false /\
   socWindowInvalid i = false /\ noHeadroom i = false) /\
  ((usableEnergyKWh i <=? 0) = false /\ (surplusPowerKW i <=? 0) = false /\
   (fuelSavedPerDayLitres r <=? 0) = false) /\
  (loadPct r = loadKVA i / gensetKVA i /\
   loadKW r = loadPowerKW i /\
   capex r = bessSizeKWh i * bessPricePerKWh i /\
   annualFuelSavingsLitres r = fuelSavedPerDayLitres r * 365 /\
   annualFuelSavingsCost r = annualFuelSavingsLitres r * dieselPricePerL i) /\
  paybackYears r =
    (if annualFuelSavingsCost r >? 0
     then Some (capex r / annualFuelSavingsCost r) else None) /\
  simpleFiveYearROI r =
    (if capex r >? 0
     then Some (((annualFuelSavingsCost r * 5 - capex r) / capex r) * 100)
     else None) /\
  bessCyclesPerDay r =
    (if (surplusPowerKW i >? 0) && (bessSizeKWh i >? 0) && (socMax i >? socMin i)
     then
       let denom := usableEnergyKWh i * (surplusPowerKW i + loadPowerKW i) in
       if negb (denom =? 0)
       then (hoursPerDay i * surplusPowerKW i * loadPowerKW i) / denom
       else 0
     else 0).
Proof.
  intros H. roi_returns H. unfold_vocabulary.
  cbn [loadPct loadKW capex annualFuelSavingsLitres annualFuelSavingsCost
       paybackYears simpleFiveYearROI bessCyclesPerDay fuelSavedPerDayLitres].
  repeat split; assumption || reflexivity.
Qed.

Section AcceptedInput.

Variable i : RoiInputs.
Variable t : list FuelCurvePoint.
Variable r : RoiOutputs.
Hypothesis Returned : bessRoi i t = Ok r.

(** The inputs tested against 0 have their sign bit clear, or are NaN. *)
Lemma inputs_plus :
  (plus (gensetKVA i) = true /\ plus (loadKVA i) = true /\
   plus (powerFactor i) = true) /\
  (plus (hoursPerDay i) = true /\ plus (bessSizeKWh i) = true /\
   plus (bessPricePerKWh i) = true).
Proof.
  destruct (bessRoi_returns i t r Returned) as ((G1 & G2 & _) & _).
  unfold electricalInvalid, sizingInvalid in *. split_gates.
  repeat split; auto with binary64.
Qed.

Lemma loadPowerKW_plus : plus (loadPowerKW i) = true.
Proof.
  destruct inputs_plus as ((_ & Pl & Pf) & _).
  unfold loadPowerKW. auto with binary64.
Qed.

Lemma capex_plus : plus (capex r) = true.
Proof.
  destruct inputs_plus as (_ & _ & Psize & Pprice).
  destruct (bessRoi_returns i t r Returned) as (_ & _ & (_ & _ & -> & _) & _).
  auto with binary64.
Qed.

Lemma bessCyclesPerDay_plus : plus (bessCyclesPerDay r) = true.
Proof.
  destruct inputs_plus as (_ & Phours & _ & _).
  pose proof loadPowerKW_plus as Pload.
  destruct (bessRoi_returns i t r Returned)
    as (_ & (Gusable & _) & _ & _ & _ & ->).
  destruct (_ && _ && _) eqn:Branch; [|reflexivity].
  apply andb_prop in Branch as [Branch _].
  apply andb_prop in Branch as [Psurplus _].
  cbv zeta. destruct (negb _); [|reflexivity].
  auto 6 with binary64.
Qed.

(** With no NaN among the input fields, the inputs tested against 0 are > 0,
    the SOC window is not empty and the surplus power is > 0. *)
Lemma numbers_positive :
  fieldsAreNumbers i = true ->
  ((gensetKVA i >? 0) = true /\ (loadKVA i >? 0) = true /\
   (powerFactor i >? 0) = true) /\
  ((hoursPerDay i >? 0) = true /\ (bessSizeKWh i >? 0) = true /\
   (bessPricePerKWh i >? 0) = true) /\
  (socMax i >? socMin i) = true /\
  (surplusPowerKW i >? 0) = true.
Proof.
  intros N.
  destruct (bessRoi_returns i t r Returned)
    as ((G1 & G2 & G3 & G4) & (_ & Gs & _) & _).
  unfold fieldsAreNumbers, requiredFields in N. cbn [forallb] in N.
  repeat (apply andb_prop in N as [?N N]).
  repeat match goal with
         | H : negb _ = true |- _ => apply negb_true_iff in H
         end.
  unfold electricalInvalid, sizingInvalid, socWindowInvalid, noHeadroom in *.
  split_gates. unfold gtb.
  (* numbers outside the gates are strictly inside *)
  assert (Pg : (0 <? gensetKVA i) = true) by (apply Binary64.leb_total; auto).
  assert (Pl : (0 <? loadKVA i) = true) by (apply Binary64.leb_total; auto).
  assert (Pf : (0 <? powerFactor i) = true)
    by (apply Binary64.leb_total; auto).
  repeat split; try (apply Binary64.leb_total; auto; fail).
  (* the two powers are numbers, and the load power is the smaller one *)
  unfold surplusPowerKW.
  apply Binary64.sub_gt0, Binary64.leb_total; auto;
    apply Binary64.mul_pos_number; assumption.
Qed.

(** Hence the outer test of the cycles formula
    ([headroomKW > 0 && bessSizeKWh > 0 && socMax > socMin]) holds: only a
    zero denominator leads to the fallback value 0. *)
Lemma bessCyclesPerDay_of_numbers :
  fieldsAreNumbers i = true ->
  bessCyclesPerDay r =
    (let denom := usableEnergyKWh i * (surplusPowerKW i + loadPowerKW i) in
     if denom =? 0 then 0
     else (hoursPerDay i * surplusPowerKW i * loadPowerKW i) / denom).
Proof.
  intros N.
  destruct (numbers_positive N) as (_ & (_ & Psize & _) & Psoc & Psurplus).
  destruct (bessRoi_returns i t r Returned) as (_ & _ & _ & _ & _ & ->).
  rewrite Psurplus, Psize, Psoc. cbn [andb]. cbv zeta.
  destruct (_ =? 0); reflexivity.
Qed.

(** And the capital expense is a number >= 0. *)
Lemma capex_of_numbers : fieldsAreNumbers i = true -> (capex r >=? 0) = true.
Proof.
  intros N.
  destruct (numbers_positive N) as (_ & (_ & Psize & Pprice) & _).
  apply Binary64.plus_geb0; [exact capex_plus|].
  destruct (bessRoi_returns i t r Returned) as (_ & _ & (_ & _ & -> & _) & _).
  apply Binary64.mul_pos_number; assumption.
Qed.

(** C2 (amended): for every accepted input whose [annualFuelSavingsCost] is
    0, [paybackYears] is absent; [simpleFiveYearROI] does not depend on the
    savings being 0: it is present exactly when [capex > 0] (then it is
    [((annualFuelSavingsCost * 5 - capex) / capex) * 100]), which is the case
    whenever [capex] is a number other than 0. *)
Theorem C2_payback_absent :
  (annualFuelSavingsCost r =? 0) = true ->
  paybackYears r = None /\
  simpleFiveYearROI r =
    (if capex r >? 0
     then Some (((annualFuelSavingsCost r * 5 - capex r) / capex r) * 100)
     else None) /\
  (nonzeroNumber (capex r) = true -> simpleFiveYearROI r <> None).
Proof.
  intros Z.
  destruct (bessRoi_returns i t r Returned) as (_ & _ & _ & Epay & Eroi & _).
  split; [|split].
  - rewrite Epay. unfold gtb. rewrite (Binary64.eqb_not_gtb _ _ Z). reflexivity.
  - exact Eroi.
  - intros NZ. rewrite Eroi. unfold gtb.
    rewrite (Binary64.plus_gtb0 _ capex_plus NZ). discriminate.
Qed.

(** C10 (amended): every result that [bessRoi] returns satisfies:
    [simpleFiveYearROI] is present exactly when [capex > 0]; [capex] and
    [bessCyclesPerDay] are never < 0 and [fuelSavedPerDayLitres] is never
    <= 0; hence [capex > 0] and [bessCyclesPerDay > 0] whenever the value is a
    number other than 0, and [fuelSavedPerDayLitres > 0] whenever it is not
    NaN.  When no input field is NaN, [capex >= 0], and the outer test of the
    cycles formula holds, so the zero-cycles fallback is taken only on a zero
    denominator. *)
Theorem C10_result_signs :
  (simpleFiveYearROI r <> None <-> (capex r >? 0) = true) /\
  ((capex r <? 0) = false /\ (bessCyclesPerDay r <? 0) = false /\
   (fuelSavedPerDayLitres r <=? 0) = false) /\
  ((nonzeroNumber (capex r) = true -> (capex r >? 0) = true) /\
   (nonzeroNumber (bessCyclesPerDay r) = true ->
    (bessCyclesPerDay r >? 0) = true) /\
   (is_nan (fuelSavedPerDayLitres r) = false ->
    (fuelSavedPerDayLitres r >? 0) = true)) /\
  (fieldsAreNumbers i = true ->
   (capex r >=? 0) = true /\
   bessCyclesPerDay r =
     (let denom := usableEnergyKWh i * (surplusPowerKW i + loadPowerKW i) in
      if denom =? 0 then 0
      else (hoursPerDay i * surplusPowerKW i * loadPowerKW i) / denom)).
Proof.
  destruct (bessRoi_returns i t r Returned)
    as (_ & (_ & _ & Gsaved) & _ & _ & Eroi & _).
  split; [|split; [|split]].
  - rewrite Eroi. destruct (capex r >? 0); split; congruence.
  - auto using Binary64.plus_not_neg, capex_plus, bessCyclesPerDay_plus.
  - unfold gtb. repeat split.
    + apply Binary64.plus_gtb0, capex_plus.
    + apply Binary64.plus_gtb0, bessCyclesPerDay_plus.
    + intros N. apply Binary64.leb_total; auto.
  - intros N. split;
      [exact (capex_of_numbers N) | exact (bessCyclesPerDay_of_numbers N)].
Qed.

(** C4 (amended): for every accepted input with no NaN field, the cycles
    value computed with the denominator
    [usableEnergyKWh * (surplusPowerKW + loadPowerKW)] is identical to the
    collapsed form whenever the sum [surplusPowerKW + loadPowerKW], as
    rounded, is [===] to [gensetPowerKW]. *)
Theorem C4_cycles_collapsed :
  fieldsAreNumbers i = true ->
  (surplusPowerKW i + loadPowerKW i =? gensetPowerKW i) = true ->
  bessCyclesPerDay r = cyclesPerDayCollapsed i.
Proof.
  intros N Sum.
  rewrite (bessCyclesPerDay_of_numbers N).
  destruct (bessRoi_returns i t r Returned)
    as ((_ & _ & _ & G4) & (_ & Gs & _) & _).
  unfold cyclesPerDayCollapsed. rewrite Gs.
  (* the genset power is not 0: it would be <= the load power *)
  assert (NZ : is_zero (gensetPowerKW i) = false).
  { destruct (is_zero (gensetPowerKW i)) eqn:Z; [|reflexivity].
    unfold noHeadroom, geb in G4.
    rewrite Binary64.zero_leb_plus in G4; auto using loadPowerKW_plus.
    apply Binary64.eqb_numbers in Sum as [Sum _].
    apply Binary64.add_numbers in Sum as [_ Sum]. exact Sum. }
  rewrite (Binary64.eqb_eq _ _ Sum NZ). reflexivity.
Qed.

End AcceptedInput.

(** ** Payback and ROI when nothing is saved (C2) *)

(** C2, as stated, fails: with free diesel the annual savings cost is 0,
    [paybackYears] is [null], but [simpleFiveYearROI] is present: -100. *)
Lemma C2_roi_present_without_savings :
  exists r,
    bessRoi scenarioFreeDiesel fuelCurveTable = Ok r /\
    (annualFuelSavingsCost r =? 0) = true /\
    paybackYears r = None /\
    simpleFiveYearROI r = Some (-100) /\
    simpleFiveYearROI r <> None.
Proof.
  eexists. split; [reflexivity|].
  cbn [annualFuelSavingsCost paybackYears simpleFiveYearROI].
  repeat split; try reflexivity. discriminate.
Qed.

Lemma C2_payback_absent_witness :
  exists r,
    bessRoi scenarioFreeDiesel fuelCurveTable = Ok r /\
    paybackYears r = None /\
    simpleFiveYearROI r <> None.
Proof.
  eexists. split; [reflexivity|].
  destruct (C2_payback_absent scenarioFreeDiesel fuelCurveTable _
              eq_refl eq_refl) as (P & _ & R).
  split; [exact P | exact (R eq_refl)].
Defined.

(** ** The two forms of the cycles formula (C4) *)

(** C4, as stated, fails: on [scenario180] the surplus is [110.6], the load
    power [15.399999999999999], and their sum [126] is not the genset power
    [125.99999999999999], so the two denominators differ and so do the
    quotients, in the last digit.  (And on [scenarioNaNBattery], which
    [bessRoi] accepts, the code takes the fallback value 0 where the collapsed
    form is NaN.) *)
Lemma C4_forms_differ :
  (exists r,
     bessRoi scenario180 fuelCurveTable = Ok r /\
     fieldsAreNumbers scenario180 = true /\
     surplusPowerKW scenario180 + loadPowerKW scenario180 = 126 /\
     gensetPowerKW scenario180 = 125.99999999999999 /\
     bessCyclesPerDay r = 0.32494658119658115 /\
     cyclesPerDayCollapsed scenario180 = 0.3249465811965812 /\
     bessCyclesPerDay r <> cyclesPerDayCollapsed scenario180) /\
  (exists r,
     bessRoi scenarioNaNBattery fuelCurveTable = Ok r /\
     (surplusPowerKW scenarioNaNBattery + loadPowerKW scenarioNaNBattery
      =? gensetPowerKW scenarioNaNBattery) = true /\
     bessCyclesPerDay r = 0 /\
     is_nan (cyclesPerDayCollapsed scenarioNaNBattery) = true).
Proof.
  split; eexists; (split; [reflexivity|]); cbn [bessCyclesPerDay];
    repeat split; try reflexivity.
  float_neq.
Qed.

Lemma C4_cycles_collapsed_witness :
  exists r,
    bessRoi scenarioA fuelCurveTable = Ok r /\
    bessCyclesPerDay r = cyclesPerDayCollapsed scenarioA.
Proof.
  eexists. split; [reflexivity|].
  exact (C4_cycles_collapsed scenarioA fuelCurveTable _
           eq_refl eq_refl eq_refl).
Defined.

(** ** The diesel price is not validated (C9) *)

(** C9, as stated, fails on [annualFuelSavingsCost <= 0]: on
    [scenarioHugeHours] every gate and guard passes and the fuel saved per
    day is > 0, but the annual savings overflow to Infinity, and
    [Infinity * 0] is NaN, which is not <= 0. *)
Lemma C9_savings_cost_can_be_nan :
  exists r,
    bessRoi scenarioHugeHours fuelCurveTable = Ok r /\
    (dieselPricePerL scenarioHugeHours <=? 0) = true /\
    (fuelSavedPerDayLitres r >? 0) = true /\
    annualFuelSavingsLitres r = infinity /\
    is_nan (annualFuelSavingsCost r) = true /\
    (annualFuelSavingsCost r <=? 0) = false.
Proof.
  eexists. split; [reflexivity|].
  cbn [fuelSavedPerDayLitres annualFuelSavingsLitres annualFuelSavingsCost].
  repeat split; reflexivity.
Qed.

(** No gate and no guard reads the price: with another price the run throws
    the same error, or returns with the same fuel saved per day. *)
Lemma bessRoi_price i t p :
  match bessRoi i t with
  | Throw e => bessRoi (withDieselPrice p i) t = Throw e
  | Ok r =>
      exists r',
        bessRoi (withDieselPrice p i) t = Ok r' /\
        fuelSavedPerDayLitres r' = fuelSavedPerDayLitres r /\
        annualFuelSavingsCost r' = fuelSavedPerDayLitres r * 365 * p /\
        paybackYears r' =
          (if annualFuelSavingsCost r' >? 0
           then Some (capex r' / annualFuelSavingsCost r') else None)
  end.
Proof.
  destruct i as [gKVA lKVA pf hours price size unitPrice sMax sMin].
  unfold withDieselPrice, bessRoi.
  cbn [gensetKVA loadKVA powerFactor hoursPerDay dieselPricePerL bessSizeKWh
       bessPricePerKWh socMax socMin].
  cbv zeta.
  repeat lazymatch goal with
  | |- match (if ?c then Throw _ else _) with _ => _ end =>
      destruct c; [reflexivity|]
  | |- match bind ?m _ with _ => _ end =>
      destruct m; cbn [bind]; [|reflexivity]
  end.
  eexists. split; [reflexivity|].
  cbn [fuelSavedPerDayLitres annualFuelSavingsCost paybackYears capex].
  repeat split; reflexivity.
Qed.

(** C9 (amended): [bessRoi] never validates [dieselPricePerL] and never fails
    because of it: with any other diesel price (zero, negative and NaN
    included) it throws the same error, or returns as it did, with the same
    fuel saved per day; and when the price is <= 0, [paybackYears] is [null]
    and [annualFuelSavingsCost] is never > 0: it is <= 0 unless it is NaN. *)
Theorem C9_price_not_validated i t p :
  (forall e, bessRoi i t = Throw e ->
             bessRoi (withDieselPrice p i) t = Throw e) /\
  (forall r, bessRoi i t = Ok r ->
   exists r',
     bessRoi (withDieselPrice p i) t = Ok r' /\
     fuelSavedPerDayLitres r' = fuelSavedPerDayLitres r /\
     annualFuelSavingsCost r' = fuelSavedPerDayLitres r * 365 * p /\
     ((p <=? 0) = true ->
      paybackYears r' = None /\
      (annualFuelSavingsCost r' >? 0) = false /\
      (is_nan (annualFuelSavingsCost r') = false ->
       (annualFuelSavingsCost r' <=? 0) = true))).
Proof.
  pose proof (bessRoi_price i t p) as Price.
  split.
  - intros e T. rewrite T in Price. exact Price.
  - intros r Returned. rewrite Returned in Price.
    destruct Price as (r' & Returned' & Saved & Cost & Pay).
    exists r'. do 3 (split; [assumption|]).
    intros Hp.
    (* the sign of the savings cost *)
    assert (NotPos : (annualFuelSavingsCost r' >? 0) = false).
    { rewrite Cost. unfold gtb.
      destruct (bessRoi_returns i t r Returned) as (_ & (_ & _ & Gsaved) & _).
      apply Binary64.mul_plus_nonpos; [|exact Hp].
      apply Binary64.mul_plus;
        [apply Binary64.not_leb0_plus; exact Gsaved | reflexivity]. }
    split; [rewrite Pay, NotPos; reflexivity|]. split; [exact NotPos|].
    intros N.
    destruct (annualFuelSavingsCost r' <=? 0) eqn:Le; [reflexivity|].
    apply Binary64.leb_total in Le; [|exact N|reflexivity].
    unfold gtb in NotPos. congruence.
Qed.

Lemma C9_price_not_validated_witness :
  exists r',
    bessRoi (withDieselPrice (-3) scenarioA) fuelCurveTable = Ok r' /\
    paybackYears r' = None /\
    (annualFuelSavingsCost r' <=? 0) = true.
Proof.
  destruct (proj2 (C9_price_not_validated scenarioA fuelCurveTable (-3))
              _ eq_refl)
    as (r' & Returned & _ & Cost & Neg).
  destruct (Neg eq_refl) as (Pay & _ & Le).
  exists r'. split; [exact Returned|]. split; [exact Pay|].
  apply Le. rewrite Cost. reflexivity.
Defined.

(** ** Signs of the result (C10) *)

(** C10, as stated, fails, in each of its parts.  On [scenarioTinyBattery]
    the product [1e-200 * 1e-200] underflows: the accepted input has
    [capex = 0] and no [simpleFiveYearROI].  On [scenarioTinyPower] the
    denominator of the cycles formula underflows to 0: the fallback is taken
    and [bessCyclesPerDay = 0].  On [scenarioEndlessHours] both daily fuel
    volumes overflow to Infinity and their difference, the fuel saved, is NaN,
    which passes the guard [fuelSavedPerDay_L <= 0] and is not > 0. *)
Lemma C10_positivity_can_fail :
  (exists r,
     bessRoi scenarioTinyBattery fuelCurveTable = Ok r /\
     capex r = 0 /\ (capex r >? 0) = false /\ simpleFiveYearROI r = None) /\
  (exists r,
     bessRoi scenarioTinyPower fuelCurveTable = Ok r /\
     fieldsAreNumbers scenarioTinyPower = true /\
     (usableEnergyKWh scenarioTinyPower
      * (surplusPowerKW scenarioTinyPower + loadPowerKW scenarioTinyPower)
      =? 0) = true /\
     bessCyclesPerDay r = 0 /\ (bessCyclesPerDay r >? 0) = false) /\
  (exists r,
     bessRoi scenarioEndlessHours fuelCurveTable = Ok r /\
     is_nan (fuelSavedPerDayLitres r) = true /\
     (fuelSavedPerDayLitres r >? 0) = false).
Proof.
  split; [|split]; eexists; (split; [reflexivity|]);
    cbn [capex simpleFiveYearROI bessCyclesPerDay fuelSavedPerDayLitres];
    repeat split; reflexivity.
Qed.

Lemma C10_result_signs_witness :
  exists r,
    bessRoi scenarioA fuelCurveTable = Ok r /\
    (capex r >? 0) = true /\ simpleFiveYearROI r <> None /\
    (bessCyclesPerDay r >? 0) = true /\
    (fuelSavedPerDayLitres r >? 0) = true.
Proof.
  eexists. split; [reflexivity|].
  destruct (C10_result_signs scenarioA fuelCurveTable _ eq_refl)
    as (Roi & _ & (Capex & Cycles & Saved) & _).
  split; [exact (Capex eq_refl)|].
  split; [exact (proj2 Roi (Capex eq_refl))|].
  split; [exact (Cycles eq_refl) | exact (Saved eq_refl)].
Defined.

(** * The guards of the engine past the validation gates *)

(** ** The engine, guard by guard *)

(** The errors of [bessRoi], with the conditions in the vocabulary of the
    specification. *)
Lemma bessRoi_stages i t :
  (_ <- bessRoi i t ;; Ok tt) =
  if electricalInvalid i then Throw InvalidElectricalInputs else
  if sizingInvalid i then Throw InvalidSizingInputs else
  if socWindowInvalid i then Throw InvalidSocWindow else
  if noHeadroom i then Throw NoChargingHeadroom else
  fuelBase <- fuelLphInterpSimple (gensetKVA i) (loadKVA i / gensetKVA i) t ;;
  if fuelBase <=? 0 then Throw BaselineFuelNonPositive else
  fuelFull <- fuelLphInterpSimple (gensetKVA i) 1 t ;;
  if fuelFull <=? 0 then Throw FullLoadFuelNonPositive else
  if usableEnergyKWh i <=? 0 then Throw UsableEnergyNonPositive else
  if surplusPowerKW i <=? 0 then Throw NoSurplusPower else
  if (chargeHours i <=? 0) || (dischargeHours i <=? 0)
  then Throw InvalidDutyCycle else
  let onFraction := chargeHours i / (chargeHours i + dischargeHours i) in
  if fuelBase * hoursPerDay i - fuelFull * (hoursPerDay i * onFraction) <=? 0
  then Throw StrategyDoesNotSaveFuel
  else Ok tt.
Proof.
  destruct i as [gKVA lKVA pf hours price size unitPrice sMax sMin].
  unfold chargeHours, dischargeHours. unfold_vocabulary.
  unfold bessRoi. cbv zeta.
  repeat match goal with
  | |- bind (if ?c then Throw ?e else _) _ = _ =>
      let G := fresh "G" in destruct c eqn:G; [reflexivity|]
  | |- bind (bind ?m _) _ = _ =>
      let F := fresh "F" in
      destruct m as [?fuel|] eqn:F; [|reflexivity]; cbn [bind]
  end.
  reflexivity.
Qed.

Lemma bessRoi_throws_stage i t e :
  bessRoi i t = Throw e <-> (_ <- bessRoi i t ;; Ok tt) = Throw e.
Proof. destruct (bessRoi i t); simpl; split; congruence. Qed.

Lemma gatesPass_spec i :
  gatesPass i = true <->
  electricalInvalid i = false /\ sizingInvalid i = false /\
  socWindowInvalid i = false /\ noHeadroom i = false.
Proof.
  unfold gatesPass.
  destruct (electricalInvalid i), (sizingInvalid i), (socWindowInvalid i),
    (noHeadroom i); simpl; intuition congruence.
Qed.

Lemma fieldsAreNumbers_spec i :
  fieldsAreNumbers i = true <-> forall key, is_nan (field key i) = false.
Proof.
  unfold fieldsAreNumbers, requiredFields. cbn [forallb].
  rewrite !andb_true_iff, !negb_true_iff. split.
  - intros (? & ? & ? & ? & ? & ? & ? & ? & ? & _) []; assumption.
  - intros H.
    repeat split;
      first [ exact (H GensetKVA) | exact (H LoadKVA) | exact (H PowerFactor)
            | exact (H HoursPerDay) | exact (H DieselPricePerL)
            | exact (H BessSizeKWh) | exact (H BessPricePerKWh)
            | exact (H SocMax) | exact (H SocMin) ].
Qed.

(** Past the gates, the load fraction of inputs that are numbers is a
    number: Infinity / Infinity does not pass the headroom gate. *)
Lemma loadPct_number i :
  fieldsAreNumbers i = true -> gatesPass i = true ->
  is_nan (loadKVA i / gensetKVA i) = false.
Proof.
  rewrite fieldsAreNumbers_spec, gatesPass_spec.
  intros N (G1 & _ & _ & G4).
  unfold electricalInvalid in G1. split_gates.
  assert (Pg : (0 <? gensetKVA i) = true)
    by (apply Binary64.leb_total; [exact (N GensetKVA)|reflexivity|assumption]).
  assert (Pl : (0 <? loadKVA i) = true)
    by (apply Binary64.leb_total; [exact (N LoadKVA)|reflexivity|assumption]).
  assert (Pf : (0 <? powerFactor i) = true)
    by (apply Binary64.leb_total;
        [exact (N PowerFactor)|reflexivity|assumption]).
  destruct (is_nan (loadKVA i / gensetKVA i)) eqn:D; [exfalso|reflexivity].
  destruct (Binary64.div_number _ _ Pl Pg D) as [El Eg].
  unfold noHeadroom, geb, loadPowerKW, gensetPowerKW in G4.
  rewrite FloatAxioms.leb_spec in G4.
  rewrite (Binary64.mul_infinity _ _ El Pf), (Binary64.mul_infinity _ _ Eg Pf)
    in G4.
  discriminate G4.
Qed.

(** ** The errors of the fuel lookup (X4) *)

(** [H] says that an expression of guards threw [e]: whichever guard did,
    its error is not among those of the goal. *)
Ltac thrown H :=
  injection H as <-; repeat split; try (let k := fresh in intros k);
  discriminate.

Ltac stage_guards H :=
  repeat match type of H with
  | (if ?c then Throw _ else _) = _ => destruct c; [thrown H|]
  end.

(** The four ways through the fuel lookup. *)
Lemma bessRoi_lookup i t :
  (gatesPass i = false /\
   forall e, bessRoi i t = Throw e ->
     e <> UnknownGensetRating (gensetKVA i) /\ e <> InterpolationFailure /\
     forall k, e <> UnknownGensetRating k) \/
  (gatesPass i = true /\ ratingPresent t (gensetKVA i) = false /\
   bessRoi i t = Throw (UnknownGensetRating (gensetKVA i))) \/
  (gatesPass i = true /\ ratingPresent t (gensetKVA i) = true /\
   is_nan (loadKVA i / gensetKVA i) = true /\
   bessRoi i t = Throw InterpolationFailure) \/
  (gatesPass i = true /\ ratingPresent t (gensetKVA i) = true /\
   is_nan (loadKVA i / gensetKVA i) = false /\
   forall e, bessRoi i t = Throw e ->
     e <> InterpolationFailure /\ forall k, e <> UnknownGensetRating k).
Proof.
  pose proof (bessRoi_stages i t) as S.
  pose proof (fun e => bessRoi_throws_stage i t e) as T.
  pose proof (fuelLphInterpSimple_outcome
                (gensetKVA i) (loadKVA i / gensetKVA i) t) as Base.
  pose proof (fuelLphInterpSimple_outcome (gensetKVA i) 1 t) as Full.
  unfold gatesPass. rewrite S in T.
  destruct (electricalInvalid i);
    [left; split; [reflexivity|]; intros e H; apply T in H; thrown H|].
  destruct (sizingInvalid i);
    [left; split; [reflexivity|]; intros e H; apply T in H; thrown H|].
  destruct (socWindowInvalid i);
    [left; split; [reflexivity|]; intros e H; apply T in H; thrown H|].
  destruct (noHeadroom i);
    [left; split; [reflexivity|]; intros e H; apply T in H; thrown H|].
  right. cbn [negb andb].
  destruct (fuelLphInterpSimple _ (_ / _) t) as [fuelBase|e1].
  - destruct Base as [P Np]. right. right.
    split; [reflexivity|]. split; [exact P|]. split; [exact Np|].
    intros e H. apply T in H. cbn [bind] in H.
    destruct (fuelBase <=? 0); [thrown H|].
    destruct (fuelLphInterpSimple _ 1 t) as [fuelFull|e2];
      [|destruct Full as [[_ A]|(_ & _ & N1)];
        [congruence | discriminate N1]].
    cbn [bind] in H. cbv zeta in H. stage_guards H. discriminate H.
  - cbn [bind] in T.
    destruct Base as [[-> A]|(-> & P & Np)].
    + left. repeat split; try assumption. apply T. reflexivity.
    + right. left. repeat split; try assumption. apply T. reflexivity.
Qed.

(** X4: [bessRoi] passes on the two errors of [fuelLphInterpSimple] exactly
    as follows.  It throws "Fuel curve missing" exactly when the four
    validation gates pass and no row of the table has the rating, and then
    for the rating [gensetKVA] itself; it throws "Interpolation failed"
    exactly when the gates pass, a row has the rating and
    [loadKVA / gensetKVA] is NaN; and it never throws "Interpolation failed"
    when no input field is NaN. *)
Theorem X4_engine_lookup_errors i t :
  (bessRoi i t = Throw (UnknownGensetRating (gensetKVA i)) <->
     gatesPass i = true /\ ratingPresent t (gensetKVA i) = false) /\
  (forall k, bessRoi i t = Throw (UnknownGensetRating k) -> k = gensetKVA i) /\
  (bessRoi i t = Throw InterpolationFailure <->
     gatesPass i = true /\ ratingPresent t (gensetKVA i) = true /\
     is_nan (loadKVA i / gensetKVA i) = true) /\
  (fieldsAreNumbers i = true -> bessRoi i t <> Throw InterpolationFailure).
Proof.
  pose proof (loadPct_number i) as Num.
  pose proof (bessRoi_lookup i t) as Cases.
  split; [|split; [|split]].
  - split.
    + intros H.
      destruct Cases
        as [(G & E)|[(G & A & E)|[(G & P & N & E)|(G & P & N & E)]]].
      * apply E in H. destruct H as (H & _). congruence.
      * auto.
      * congruence.
      * apply E in H. destruct H as [_ H]. elim (H _ eq_refl).
    + intros [G A].
      destruct Cases as [(G' & E)|[(_ & _ & E)|[(_ & P & _)|(_ & P & _)]]];
        congruence.
  - intros k H.
    destruct Cases
      as [(G & E)|[(G & A & E)|[(G & P & N & E)|(G & P & N & E)]]].
    + apply E in H. destruct H as (_ & _ & H). elim (H _ eq_refl).
    + congruence.
    + congruence.
    + apply E in H. destruct H as [_ H]. elim (H _ eq_refl).
  - split.
    + intros H.
      destruct Cases
        as [(G & E)|[(G & A & E)|[(G & P & N & E)|(G & P & N & E)]]].
      * apply E in H. destruct H as (_ & H & _). congruence.
      * congruence.
      * auto.
      * apply E in H. destruct H as [H _]. congruence.
    + intros (G & P & N).
      destruct Cases
        as [(G' & E)|[(_ & A & _)|[(_ & _ & _ & E)|(_ & _ & N' & _)]]];
        congruence.
  - intros F H.
    destruct Cases
      as [(G & E)|[(G & A & E)|[(G & P & N & E)|(G & P & N & E)]]].
    + apply E in H. destruct H as (_ & H & _). congruence.
    + congruence.
    + specialize (Num F G). congruence.
    + apply E in H. destruct H as [H _]. congruence.
Qed.

(** ** The errors that can be thrown (X5) *)

(** On a table of rising rows the two guards on the fuel values never
    fire. *)
Lemma bessRoi_fuel_guards i t :
  forallb rowRising t = true ->
  bessRoi i t <> Throw BaselineFuelNonPositive /\
  bessRoi i t <> Throw FullLoadFuelNonPositive.
Proof.
  intros Rising.
  pose proof (fun k p v => fuelLphInterpSimple_positive t k p v Rising) as Pos.
  rewrite !bessRoi_throws_stage, bessRoi_stages.
  repeat match goal with
  | |- context [if ?c then Throw ?e else _] =>
      lazymatch e with
      | BaselineFuelNonPositive => fail
      | _ => destruct c; [split; discriminate|]
      end
  end.
  destruct (fuelLphInterpSimple _ (_ / _) t) as [fuelBase|e1] eqn:F1;
    cbn [bind].
  2: { destruct (fuelLphInterpSimple_throws _ _ _ _ F1) as [->| ->];
       split; discriminate. }
  rewrite (Binary64.gtb_not_leb _ _ (Pos _ _ _ F1)).
  destruct (fuelLphInterpSimple _ 1 t) as [fuelFull|e2] eqn:F2; cbn [bind].
  2: { destruct (fuelLphInterpSimple_throws _ _ _ _ F2) as [->| ->];
       split; discriminate. }
  rewrite (Binary64.gtb_not_leb _ _ (Pos _ _ _ F2)). cbv zeta.
  repeat match goal with
  | |- context [if ?c then Throw ?e else _] =>
      destruct c; [split; discriminate|]
  end.
  split; discriminate.
Qed.

(** With a rating of the table, "Fuel curve missing" is not thrown. *)
Lemma bessRoi_known_rating i t e :
  ratingPresent t (gensetKVA i) = true -> bessRoi i t = Throw e ->
  forall k, e <> UnknownGensetRating k.
Proof.
  intros P T.
  destruct (bessRoi_lookup i t)
    as [(G & E)|[(G & A & E)|[(G & _ & Np & E)|(G & _ & Np & E)]]].
  - apply E in T. tauto.
  - congruence.
  - rewrite E in T. injection T as <-. discriminate.
  - apply E in T. tauto.
Qed.

(** A "Fuel curve missing" error names the rating of the inputs. *)
Lemma bessRoi_unknown_rating i t e k :
  bessRoi i t = Throw e -> e = UnknownGensetRating k -> k = gensetKVA i.
Proof.
  intros T ->.
  destruct (bessRoi_lookup i t)
    as [(G & E)|[(G & A & E)|[(G & P & Np & E)|(G & P & Np & E)]]].
  - destruct (E _ T) as (_ & _ & NU). elim (NU k). reflexivity.
  - rewrite E in T. injection T as <-. reflexivity.
  - rewrite E in T. discriminate T.
  - destruct (E _ T) as (_ & NU). elim (NU k). reflexivity.
Qed.

Lemma bessRoi_reachable i t e :
  forallb rowRising t = true -> fieldsAreNumbers i = true ->
  bessRoi i t = Throw e -> In e (reachableErrors i).
Proof.
  intros Rising N T.
  destruct (bessRoi_fuel_guards i t Rising) as [Base Full].
  pose proof (surplus_guard_never_fires i t) as Surplus.
  pose proof (bessRoi_unknown_rating i t e) as NU.
  assert (NI : e <> InterpolationFailure).
  { intros ->.
    destruct (bessRoi_lookup i t)
      as [(G & E)|[(G & A & E)|[(G & P & Np & E)|(G & P & Np & E)]]].
    - destruct (E _ T) as (_ & NI & _). congruence.
    - congruence.
    - pose proof (loadPct_number i N G). congruence.
    - destruct (E _ T) as (NI & _). congruence. }
  unfold reachableErrors.
  destruct e; try (rewrite (NU _ T eq_refl)); simpl; try congruence;
    repeat first [left; reflexivity | right].
Qed.

(** X5: on a table whose rows have finite samples > 0 that rise with the
    load (the built-in table is one), whatever the inputs are, [bessRoi] never
    throws "Baseline fuel is non-positive", "Full-load fuel is non-positive"
    or "No surplus power to charge BESS": an error it throws is one of the
    four validation errors, "Fuel curve missing" for the rating [gensetKVA],
    "Interpolation failed", "Usable BESS energy is non-positive", "Invalid
    charge/discharge time" or "Full-load strategy does not save fuel"; and it
    is not "Interpolation failed" when no input field is NaN. *)
Theorem X5_engine_errors i t e :
  forallb rowRising t = true -> bessRoi i t = Throw e ->
  In e (InterpolationFailure :: reachableErrors i) /\
  (fieldsAreNumbers i = true -> In e (reachableErrors i)) /\
  forallb rowRising fuelCurveTable = true.
Proof.
  intros Rising T.
  split; [|split; [intros N; exact (bessRoi_reachable i t e Rising N T)
                  |exact fuelCurveTable_rising]].
  destruct (bessRoi_fuel_guards i t Rising) as [Base Full].
  pose proof (surplus_guard_never_fires i t) as Surplus.
  pose proof (bessRoi_unknown_rating i t e) as NU.
  unfold reachableErrors.
  destruct e; try (rewrite (NU _ T eq_refl)); simpl; try congruence;
    repeat first [left; reflexivity | right].
Qed.

Lemma X5_engine_errors_witness :
  bessRoi scenarioNoSaving fuelCurveTable = Throw StrategyDoesNotSaveFuel /\
  In StrategyDoesNotSaveFuel (reachableErrors scenarioNoSaving).
Proof.
  split; [reflexivity|].
  exact (proj1 (proj2 (X5_engine_errors scenarioNoSaving fuelCurveTable
                         StrategyDoesNotSaveFuel eq_refl eq_refl))
           eq_refl).
Defined.

(** ** Energy and times that are 0 (X6) *)

(** X6: [bessRoi] throws "Usable BESS energy is non-positive" only when the
    product [bessSizeKWh * (socMax - socMin)] is 0 although [bessSizeKWh > 0]
    and [socMax > socMin] (the product underflows); and it throws "Invalid
    charge/discharge time" only when the usable energy is not <= 0 and the
    charge time or the discharge time, as computed, is 0. *)
Theorem X6_zero_energy_or_time i t :
  (bessRoi i t = Throw UsableEnergyNonPositive ->
   is_zero (usableEnergyKWh i) = true /\
   (bessSizeKWh i >? 0) = true /\ (socMax i >? socMin i) = true) /\
  (bessRoi i t = Throw InvalidDutyCycle ->
   (usableEnergyKWh i <=? 0) = false /\
   is_zero (chargeHours i) || is_zero (dischargeHours i) = true).
Proof.
  rewrite !bessRoi_throws_stage, bessRoi_stages.
  destruct (electricalInvalid i) eqn:G1; [split; discriminate|].
  destruct (sizingInvalid i) eqn:G2; [split; discriminate|].
  destruct (socWindowInvalid i) eqn:G3; [split; discriminate|].
  destruct (noHeadroom i) eqn:G4; [split; discriminate|].
  destruct (fuelLphInterpSimple _ (_ / _) t) as [fuelBase|e1] eqn:F1;
    cbn [bind].
  2: { destruct (fuelLphInterpSimple_throws _ _ _ _ F1) as [->| ->];
       split; discriminate. }
  destruct (fuelBase <=? 0); [split; discriminate|].
  destruct (fuelLphInterpSimple _ 1 t) as [fuelFull|e2] eqn:F2; cbn [bind].
  2: { destruct (fuelLphInterpSimple_throws _ _ _ _ F2) as [->| ->];
       split; discriminate. }
  destruct (fuelFull <=? 0); [split; discriminate|].
  unfold electricalInvalid, sizingInvalid, socWindowInvalid in *. split_gates.
  destruct (usableEnergyKWh i <=? 0) eqn:G7.
  { split; [intros _|discriminate].
    (* the energy is a number, so the size and the window are numbers *)
    destruct (Binary64.leb_numbers _ _ G7) as [Ne _].
    unfold usableEnergyKWh in *.
    assert (Nsize : is_nan (bessSizeKWh i) = false).
    { revert Ne. rewrite !Binary64.is_nan_spec, mul_spec.
      unfold SF64mul, SFmul.
      intros Ne E. rewrite E in Ne. apply Ne. reflexivity. }
    assert (Nwindow : is_nan (socMax i - socMin i) = false).
    { revert Ne. rewrite !Binary64.is_nan_spec, mul_spec.
      unfold SF64mul, SFmul.
      intros Ne E. rewrite E in Ne. apply Ne.
      destruct (Prim2SF (bessSizeKWh i)); reflexivity. }
    assert (Psize : (0 <? bessSizeKWh i) = true)
      by (apply Binary64.leb_total; auto).
    assert (Pwindow : (socMin i <? socMax i) = true).
    { destruct (is_nan (socMax i)) eqn:Nmax;
        [rewrite Binary64.sub_nan in Nwindow by auto; discriminate|].
      destruct (is_nan (socMin i)) eqn:Nmin;
        [rewrite Binary64.sub_nan in Nwindow by auto; discriminate|].
      apply Binary64.leb_total; auto. }
    split; [|split; assumption].
    apply Binary64.plus_leb0_zero; [|exact G7].
    apply Binary64.mul_plus; apply Binary64.gtb0_plus; [exact Psize|].
    apply Binary64.sub_gt0. exact Pwindow. }
  destruct (surplusPowerKW i <=? 0) eqn:G8; [split; discriminate|].
  destruct ((chargeHours i <=? 0) || (dischargeHours i <=? 0)) eqn:G9.
  { split; [discriminate|intros _]. split; [reflexivity|].
    assert (Pe : plus (usableEnergyKWh i) = true) by auto with binary64.
    assert (Ps : plus (surplusPowerKW i) = true) by auto with binary64.
    assert (Pl : plus (loadPowerKW i) = true)
      by (unfold loadPowerKW; auto with binary64).
    apply orb_true_iff. apply orb_true_iff in G9 as [G9|G9]; [left|right];
      (apply Binary64.plus_leb0_zero; [|exact G9]).
    - unfold chargeHours. auto with binary64.
    - unfold dischargeHours. auto with binary64. }
  cbv zeta.
  destruct (_ - _ <=? 0); split; discriminate.
Qed.

Lemma X6_zero_energy_or_time_witness :
  (bessRoi scenarioTinyWindow fuelCurveTable = Throw UsableEnergyNonPositive /\
   is_zero (usableEnergyKWh scenarioTinyWindow) = true) /\
  (bessRoi scenarioTinyEnergy fuelCurveTable = Throw InvalidDutyCycle /\
   is_zero (chargeHours scenarioTinyEnergy)
   || is_zero (dischargeHours scenarioTinyEnergy) = true).
Proof.
  split; (split; [reflexivity|]).
  - exact (proj1 (proj1 (X6_zero_energy_or_time scenarioTinyWindow
                           fuelCurveTable) eq_refl)).
  - exact (proj2 (proj2 (X6_zero_energy_or_time scenarioTinyEnergy
                           fuelCurveTable) eq_refl)).
Defined.

(** * The fields of a returned result *)

(** The fields that the baseline fuel determines. *)
Lemma bessRoi_fuel i t r :
  bessRoi i t = Ok r ->
  fuelLphInterpSimple (gensetKVA i) (loadPct r) t = Ok (fuelLph r) /\
  (fuelLph r <=? 0) = false /\
  annualFuelOnlyLitres r = fuelLph r * hoursPerDay i * 365 /\
  annualFuelOnlyCost r = annualFuelOnlyLitres r * dieselPricePerL i /\
  dieselKWhPerL r = loadKW r / fuelLph r /\
  dailyBESSEnergyKWh r = fuelSavedPerDayLitres r * dieselKWhPerL r.
Proof.
  intros H. roi_returns H.
  cbn [gensetKVA hoursPerDay dieselPricePerL loadPct fuelLph
       annualFuelOnlyLitres annualFuelOnlyCost dieselKWhPerL
       dailyBESSEnergyKWh loadKW fuelSavedPerDayLitres].
  repeat split; assumption || reflexivity.
Qed.

Section ResultFields.

Variable i : RoiInputs.
Variable t : list FuelCurvePoint.
Variable r : RoiOutputs.
Hypothesis Returned : bessRoi i t = Ok r.

(** X7: in every result that [bessRoi] returns, none of the nine fields
    that are no amounts of money ([loadPct], [loadKW], [fuelLph],
    [annualFuelOnlyLitres], [dieselKWhPerL], [dailyBESSEnergyKWh],
    [fuelSavedPerDayLitres], [annualFuelSavingsLitres], [bessCyclesPerDay])
    is < 0, and neither is [paybackYears] when it is present; the two annual
    costs are not < 0 unless the diesel price is; on a table of rising rows
    [fuelLph] is a number > 0; and when no input field is NaN, [loadPct] and
    [loadKW] are numbers. *)
Theorem X7_fields_not_negative :
  Forall (fun x => (x <? 0) = false) (physicalOutputs r) /\
  (forall y, paybackYears r = Some y -> (y <? 0) = false) /\
  ((dieselPricePerL i <? 0) = false ->
   (annualFuelOnlyCost r <? 0) = false /\
   (annualFuelSavingsCost r <? 0) = false) /\
  (forallb rowRising t = true -> (0 <? fuelLph r) = true) /\
  (fieldsAreNumbers i = true ->
   is_nan (loadPct r) = false /\ is_nan (loadKW r) = false).
Proof.
  destruct (inputs_plus i t r Returned)
    as ((Pg & Pl & Pf) & Phours & Psize & Pprice).
  pose proof (loadPowerKW_plus i t r Returned) as Pload.
  pose proof (capex_plus i t r Returned) as Pcapex.
  pose proof (bessCyclesPerDay_plus i t r Returned) as Pcycles.
  destruct (bessRoi_returns i t r Returned)
    as (Gates & (_ & _ & Gsaved) & (Epct & Ekw & _ & Elitres & Ecost)
        & Epay & _).
  destruct (bessRoi_fuel i t r Returned)
    as (Ffuel & Gfuel & Eonly & Eonlycost & Ekwh & Edaily).
  assert (Pfuel : plus (fuelLph r) = true) by auto with binary64.
  assert (Psaved : plus (fuelSavedPerDayLitres r) = true)
    by auto with binary64.
  assert (P365 : plus 365 = true) by reflexivity.
  assert (Pkwh : plus (dieselKWhPerL r) = true)
    by (rewrite Ekwh, Ekw; auto with binary64).
  assert (Ponly : plus (annualFuelOnlyLitres r) = true)
    by (rewrite Eonly; auto with binary64).
  assert (Plitres : plus (annualFuelSavingsLitres r) = true)
    by (rewrite Elitres; auto with binary64).
  split; [|split; [|split; [|split]]].
  - unfold physicalOutputs.
    repeat constructor; apply Binary64.plus_not_neg; try assumption.
    + rewrite Epct. auto with binary64.
    + rewrite Ekw. exact Pload.
    + rewrite Edaily. auto with binary64.
  - intros y. rewrite Epay.
    destruct (annualFuelSavingsCost r >? 0) eqn:Pos; [|discriminate].
    intros [= <-]. apply Binary64.plus_not_neg. auto with binary64.
  - intros Pdiesel. rewrite Eonlycost, Ecost.
    split; apply Binary64.mul_plus_not_neg; assumption.
  - intros Rising.
    exact (fuelLphInterpSimple_positive _ _ _ _ Rising Ffuel).
  - intros N. rewrite Epct, Ekw. split.
    + apply loadPct_number; [exact N|]. apply gatesPass_spec. exact Gates.
    + destruct (numbers_positive i t r Returned N) as ((_ & Ql & Qf) & _).
      apply Binary64.mul_pos_number; assumption.
Qed.

End ResultFields.

Lemma X7_fields_not_negative_witness :
  exists r,
    bessRoi scenarioA fuelCurveTable = Ok r /\
    Forall (fun x => (x <? 0) = false) (physicalOutputs r) /\
    (0 <? fuelLph r) = true /\
    (annualFuelOnlyCost r <? 0) = false.
Proof.
  eexists. split; [reflexivity|].
  destruct (X7_fields_not_negative scenarioA fuelCurveTable _ eq_refl)
    as (Physical & _ & Costs & Fuel & _).
  split; [exact Physical|]. split; [exact (Fuel eq_refl)|].
  exact (proj1 (Costs eq_refl)).
Defined.

(** ** The two prices (X8) *)

(** Runs [bessRoi] on an accepted input [H] with other prices, the battery
    price not being <= 0 by [Pb]: the same gates and guards are passed. *)
Ltac with_prices H Pb :=
  roi_returns H;
  unfold withPrices, withField, bessRoi;
  cbn [field gensetKVA loadKVA powerFactor hoursPerDay dieselPricePerL
       bessSizeKWh bessPricePerKWh socMax socMin];
  cbv zeta;
  match type of Pb with
  | (?b <=? 0) = false =>
      match goal with
      | G : ?c || _ = false |- context [?c || (b <=? 0)] =>
          apply orb_false_elim in G as [G _]; rewrite G, Pb
      end
  end;
  repeat match goal with
  | G : ?c = false |- context [if ?c then _ else _] => rewrite G
  | F : ?m = Ok _ |- context [bind ?m _] => rewrite F; cbn [bind]
  end;
  eexists; split; [reflexivity|].

(** The money of an accepted input at other prices. *)
Lemma bessRoi_withPrices i t r diesel battery :
  bessRoi i t = Ok r -> (battery <=? 0) = false ->
  exists r',
    bessRoi (withPrices diesel battery i) t = Ok r' /\
    capex r' = bessSizeKWh i * battery /\
    annualFuelSavingsCost r' = annualFuelSavingsLitres r * diesel.
Proof.
  intros H Pb. with_prices H Pb.
  cbn [annualFuelSavingsLitres capex annualFuelSavingsCost].
  split; reflexivity.
Qed.

(** X8: the diesel price and the battery price reach the amounts of money
    only.  An input that [bessRoi] accepts is accepted with any other diesel
    price and any other battery price that is not <= 0, and the new result has
    the same nine fields that are no amounts of money; its [capex] is
    [bessSizeKWh] times the new battery price, and its two annual costs are
    the (unchanged) annual litres times the new diesel price. *)
Theorem X8_prices_only_money i t r diesel battery :
  bessRoi i t = Ok r -> (battery <=? 0) = false ->
  exists r',
    bessRoi (withPrices diesel battery i) t = Ok r' /\
    physicalOutputs r' = physicalOutputs r /\
    capex r' = bessSizeKWh i * battery /\
    annualFuelOnlyCost r' = annualFuelOnlyLitres r * diesel /\
    annualFuelSavingsCost r' = annualFuelSavingsLitres r * diesel.
Proof.
  intros H Pb. with_prices H Pb.
  unfold physicalOutputs.
  cbn [loadPct loadKW fuelLph annualFuelOnlyLitres dieselKWhPerL
       dailyBESSEnergyKWh fuelSavedPerDayLitres annualFuelSavingsLitres
       bessCyclesPerDay capex annualFuelOnlyCost annualFuelSavingsCost].
  repeat split; reflexivity.
Qed.

Lemma X8_prices_only_money_witness :
  exists r r',
    bessRoi scenarioA fuelCurveTable = Ok r /\
    bessRoi (withPrices 0 1 scenarioA) fuelCurveTable = Ok r' /\
    physicalOutputs r' = physicalOutputs r /\
    capex r' = 520 /\ annualFuelOnlyCost r' = 0.
Proof.
  eexists.
  destruct (X8_prices_only_money scenarioA fuelCurveTable _ 0 1
              eq_refl eq_refl)
    as (r' & Returned & Physical & Capex & Cost & _).
  exists r'. split; [reflexivity|]. split; [exact Returned|].
  split; [exact Physical|]. split; [exact Capex|].
  rewrite Cost. reflexivity.
Defined.

(** * Orders that the engine keeps *)

(** ** The load and the rating (X13) *)

Section LoadFraction.

Variable i : RoiInputs.
Variable t : list FuelCurvePoint.
Variable r : RoiOutputs.
Hypothesis Returned : bessRoi i t = Ok r.
Hypothesis Factor : is_nan (powerFactor i) = false.

(** Past the headroom gate, which compares the two rounded powers, the load
    is not above the rating. *)
Lemma load_below_rating :
  (0 <? gensetKVA i) = true /\
  finitePositive (loadKVA i) = true /\ finitePositive (powerFactor i) = true /\
  (loadKVA i <=? gensetKVA i) = true /\
  is_nan (loadKVA i / gensetKVA i) = false.
Proof.
  destruct (bessRoi_returns i t r Returned)
    as ((G1 & _ & _ & G4) & _ & (Epct & _) & _).
  destruct (bessRoi_fuel i t r Returned) as (Ffuel & _).
  pose proof (fuelLphInterpSimple_outcome (gensetKVA i) (loadPct r) t) as O.
  rewrite Ffuel in O. destruct O as [_ Np]. rewrite Epct in Np.
  destruct (Binary64.div_numbers _ _ Np) as [Nl Ng].
  unfold electricalInvalid, noHeadroom, geb, gensetPowerKW, loadPowerKW in *.
  split_gates.
  assert (Pg : (0 <? gensetKVA i) = true) by (apply Binary64.leb_total; auto).
  assert (Pl : (0 <? loadKVA i) = true) by (apply Binary64.leb_total; auto).
  assert (Pf : (0 <? powerFactor i) = true)
    by (apply Binary64.leb_total; auto).
  destruct (Binary64.mul_ltb_finite _ _ _ Pl Pg Pf G4) as [Ff Fl].
  repeat split; try assumption.
  destruct (loadKVA i <=? gensetKVA i) eqn:Le; [reflexivity|exfalso].
  apply Binary64.leb_total in Le; [|assumption|assumption].
  apply Binary64.ltb_leb in Le.
  destruct (Binary64.mul_le_mono _ _ _ (Binary64.ltb_leb _ _ Pg) Le Ff)
    as [_ M].
  congruence.
Qed.

End LoadFraction.

(** X13: for every input that [bessRoi] accepts and whose power factor is
    not NaN, the load is not above the rating of the genset
    ([loadKVA <= gensetKVA]), the load and the power factor are finite, and
    [loadPct] is a number from 0 to 1: the headroom gate, which compares the
    two rounded powers, lets no overloaded genset through.  (With a NaN power
    factor the gate compares NaN with NaN and lets every load through.) *)
Theorem X13_load_fraction i t r :
  bessRoi i t = Ok r -> is_nan (powerFactor i) = false ->
  (loadKVA i <=? gensetKVA i) = true /\
  (loadKVA i <? infinity) = true /\ (powerFactor i <? infinity) = true /\
  (0 <=? loadPct r) = true /\ (loadPct r <=? 1) = true.
Proof.
  intros Returned Factor.
  destruct (load_below_rating i t r Returned Factor)
    as (Pg & Fl & Ff & Le & Np).
  destruct (bessRoi_returns i t r Returned) as (_ & _ & (-> & _) & _).
  unfold finitePositive in Fl, Ff.
  apply andb_prop in Fl as [Pl Fl]. apply andb_prop in Ff as [_ Ff].
  split; [exact Le|]. split; [exact Fl|]. split; [exact Ff|]. split.
  - apply Binary64.plus_geb0; [auto with binary64 | exact Np].
  - apply Binary64.div_le_one; auto using Binary64.ltb_leb.
Qed.

Lemma X13_load_fraction_witness :
  exists r,
    bessRoi scenarioA fuelCurveTable = Ok r /\
    (0 <=? loadPct r) = true /\ (loadPct r <=? 1) = true.
Proof.
  eexists. split; [reflexivity|].
  exact (proj2 (proj2 (proj2 (X13_load_fraction scenarioA fuelCurveTable _
                                eq_refl eq_refl)))).
Defined.

(** The hypothesis on the power factor is needed: with a NaN power factor a
    load of twice the rating is accepted. *)
Lemma loadPct_above_one_with_nan_factor :
  exists r,
    bessRoi (withField PowerFactor nan (withField LoadKVA 250 scenarioA))
      fuelCurveTable = Ok r /\
    loadPct r = 2.
Proof. eexists. split; reflexivity. Qed.

(** ** The savings and the baseline (X14) *)

(** The fuel saved per day is the baseline fuel of the day less the fuel
    burnt at full load, which is not negative. *)
Lemma bessRoi_saved i t r :
  bessRoi i t = Ok r ->
  exists new,
    plus new = true /\
    fuelSavedPerDayLitres r = fuelLph r * hoursPerDay i - new.
Proof.
  intros H. roi_returns H.
  cbn [fuelSavedPerDayLitres fuelLph hoursPerDay].
  eexists. split; [|reflexivity].
  split_gates. auto 8 with binary64.
Qed.

(** The fuel saved and the baseline fuel, per day and per year. *)
Lemma saved_below_baseline i t r :
  bessRoi i t = Ok r -> is_nan (fuelSavedPerDayLitres r) = false ->
  (fuelSavedPerDayLitres r <=? fuelLph r * hoursPerDay i) = true /\
  (0 <=? annualFuelSavingsLitres r) = true /\
  (annualFuelSavingsLitres r <=? annualFuelOnlyLitres r) = true.
Proof.
  intros Returned N.
  destruct (bessRoi_saved i t r Returned) as (new & Pnew & Esaved).
  destruct (bessRoi_returns i t r Returned)
    as ((_ & G2 & _) & (_ & _ & Gsaved) & (_ & _ & _ & Elitres & _) & _).
  destruct (bessRoi_fuel i t r Returned) as (_ & Gfuel & Eonly & _).
  unfold sizingInvalid in G2. split_gates.
  assert (P0 : (0 <=? fuelSavedPerDayLitres r) = true)
    by (apply Binary64.plus_geb0; auto with binary64).
  rewrite Esaved in N. destruct (Binary64.sub_numbers _ _ N) as [Nbase Nnew].
  assert (Le : (fuelSavedPerDayLitres r <=? fuelLph r * hoursPerDay i) = true).
  { rewrite Esaved. apply Binary64.sub_le.
    - apply Binary64.plus_geb0; auto with binary64.
    - apply Binary64.plus_geb0; auto.
    - exact N. }
  destruct (Binary64.mul_le_mono _ _ 365 P0 Le eq_refl) as [Pl Ll].
  rewrite <- Elitres, <- Eonly in Ll. rewrite <- Elitres in Pl.
  auto.
Qed.

(** X14: in every result that [bessRoi] returns with a
    [fuelSavedPerDayLitres] that is a number, the fuel saved per day is not
    above the baseline fuel of the day ([fuelLph * hoursPerDay]), the litres
    saved per year are not above the litres of the baseline year and, at a
    finite diesel price > 0, the money saved per year is not above the cost
    of the baseline year: the engine never reports saving more fuel than the
    genset alone burns. *)
Theorem X14_savings_below_baseline i t r :
  bessRoi i t = Ok r -> is_nan (fuelSavedPerDayLitres r) = false ->
  (fuelSavedPerDayLitres r <=? fuelLph r * hoursPerDay i) = true /\
  (annualFuelSavingsLitres r <=? annualFuelOnlyLitres r) = true /\
  (finitePositive (dieselPricePerL i) = true ->
   (annualFuelSavingsCost r <=? annualFuelOnlyCost r) = true).
Proof.
  intros Returned N.
  destruct (saved_below_baseline i t r Returned N) as (Le & Pl & Ll).
  destruct (bessRoi_returns i t r Returned)
    as (_ & _ & (_ & _ & _ & _ & Ecost) & _).
  destruct (bessRoi_fuel i t r Returned) as (_ & _ & _ & Eonlycost & _).
  split; [exact Le|]. split; [exact Ll|].
  intros Fd. rewrite Ecost, Eonlycost.
  exact (proj2 (Binary64.mul_le_mono _ _ _ Pl Ll Fd)).
Qed.

Lemma X14_savings_below_baseline_witness :
  exists r,
    bessRoi scenarioA fuelCurveTable = Ok r /\
    (annualFuelSavingsLitres r <=? annualFuelOnlyLitres r) = true /\
    (annualFuelSavingsCost r <=? annualFuelOnlyCost r) = true.
Proof.
  eexists. split; [reflexivity|].
  destruct (X14_savings_below_baseline scenarioA fuelCurveTable _
              eq_refl eq_refl) as (_ & Litres & Cost).
  split; [exact Litres | exact (Cost eq_refl)].
Defined.

(** ** More load, more fuel (X16) *)

(** X16: on a table whose rows are rising and closed, of two inputs that
    [bessRoi] accepts for the same genset, the one with the larger load has
    the larger (or the same) [loadPct] and the larger (or the same) baseline
    fuel rate [fuelLph]: neither the division nor the interpolation turns
    more load into less fuel. *)
Theorem X16_more_load_more_fuel i1 i2 t r1 r2 :
  forallb rowRising t = true -> forallb rowClosed t = true ->
  bessRoi i1 t = Ok r1 -> bessRoi i2 t = Ok r2 ->
  gensetKVA i1 = gensetKVA i2 -> (loadKVA i1 <=? loadKVA i2) = true ->
  (loadPct r1 <=? loadPct r2) = true /\ (fuelLph r1 <=? fuelLph r2) = true.
Proof.
  intros Rising Closed H1 H2 Eg Le.
  destruct (bessRoi_fuel i1 t r1 H1) as (F1 & _).
  destruct (bessRoi_fuel i2 t r2 H2) as (F2 & _).
  destruct (bessRoi_returns i1 t r1 H1) as ((G1 & _) & _ & (E1 & _) & _).
  destruct (bessRoi_returns i2 t r2 H2) as (_ & _ & (E2 & _) & _).
  pose proof (fuelLphInterpSimple_outcome (gensetKVA i2) (loadPct r2) t) as O.
  rewrite F2 in O. destruct O as [_ N2].
  rewrite Eg in F1.
  assert (M : (loadPct r1 <=? loadPct r2) = true).
  { rewrite E1, E2 in *. rewrite Eg in *.
    destruct (Binary64.div_numbers _ _ N2) as [_ Ng].
    destruct (Binary64.leb_numbers _ _ Le) as [Nl _].
    unfold electricalInvalid in G1. rewrite Eg in G1. split_gates.
    apply Binary64.div_le_mono_pos; [| exact Le | | exact N2].
    - apply Binary64.ltb_leb, Binary64.leb_total; auto.
    - apply Binary64.leb_total; auto. }
  split; [exact M|].
  destruct (find (fun r => kva r =? gensetKVA i2) t) as [row|] eqn:Found.
  - pose proof (find_some _ _ Found) as [HIn _].
    rewrite forallb_forall in Rising, Closed.
    exact (proj1 (proj2 (fuelLphInterpSimple_monotone row (Rising row HIn)
                           (Closed row HIn) t _ Found _ _ _ _ F1 F2 M))).
  - unfold fuelLphInterpSimple in F1. rewrite Found in F1. discriminate F1.
Qed.

Lemma X16_more_load_more_fuel_witness :
  exists r1 r2,
    bessRoi scenarioA fuelCurveTable = Ok r1 /\
    bessRoi (withField LoadKVA 80 scenarioA) fuelCurveTable = Ok r2 /\
    (loadPct r1 <=? loadPct r2) = true /\ (fuelLph r1 <=? fuelLph r2) = true.
Proof.
  eexists. eexists. split; [reflexivity|]. split; [reflexivity|].
  exact (X16_more_load_more_fuel scenarioA (withField LoadKVA 80 scenarioA)
           fuelCurveTable _ _ eq_refl eq_refl eq_refl eq_refl eq_refl
           eq_refl).
Defined.

(** ** Dearer diesel, cheaper battery: a shorter payback (X17) *)

(** X17: take an input that [bessRoi] accepts, with finite annual litres
    saved, and two pairs of prices: a diesel price [d1 >= 0] with a battery
    price [b1] that gives a finite capital expense, and a diesel price
    [d2 >= d1] with a battery price [0 < b2 <= b1].  Both are accepted; at the
    second pair the money saved per year is not less, the capital expense is
    not more, and the payback, when the first pair has one, is present and
    not longer. *)
Theorem X17_price_sensitivity i t r d1 d2 b1 b2 :
  bessRoi i t = Ok r ->
  finitePositive (annualFuelSavingsLitres r) = true ->
  (0 <=? d1) = true -> (d1 <=? d2) = true ->
  (0 <? b2) = true -> (b2 <=? b1) = true ->
  (bessSizeKWh i * b1 <? infinity) = true ->
  exists r1 r2,
    bessRoi (withPrices d1 b1 i) t = Ok r1 /\
    bessRoi (withPrices d2 b2 i) t = Ok r2 /\
    (annualFuelSavingsCost r1 <=? annualFuelSavingsCost r2) = true /\
    (capex r2 <=? capex r1) = true /\
    (forall y1, paybackYears r1 = Some y1 ->
     exists y2, paybackYears r2 = Some y2 /\ (y2 <=? y1) = true).
Proof.
  intros Returned FL P1 Ld P2 Lb Fc.
  pose proof (Binary64.ltb_leb _ _ P2) as P2'.
  pose proof (Binary64.ltb_leb_trans _ _ _ P2 Lb) as Pb1.
  destruct (bessRoi_withPrices i t r d1 b1 Returned
              (Binary64.gtb_not_leb _ _ Pb1))
    as (r1 & H1 & Ecapex1 & Ecost1).
  destruct (bessRoi_withPrices i t r d2 b2 Returned
              (Binary64.gtb_not_leb _ _ P2))
    as (r2 & H2 & Ecapex2 & Ecost2).
  exists r1, r2. split; [exact H1|]. split; [exact H2|].
  destruct (bessRoi_returns i t r Returned) as ((_ & G2 & _) & _).
  unfold sizingInvalid in G2. split_gates.
  assert (Fs : finitePositive (bessSizeKWh i) = true)
    by (eapply Binary64.mul_finite_l; eauto).
  (* the savings *)
  assert (Lcost : (annualFuelSavingsCost r1 <=? annualFuelSavingsCost r2)
                  = true).
  { rewrite Ecost1, Ecost2.
    rewrite (Binary64.mul_comm _ d1), (Binary64.mul_comm _ d2).
    exact (proj2 (Binary64.mul_le_mono _ _ _ P1 Ld FL)). }
  (* the capital expense *)
  assert (Lcapex : (0 <=? capex r2) = true /\ (capex r2 <=? capex r1) = true).
  { rewrite Ecapex1, Ecapex2.
    rewrite (Binary64.mul_comm _ b1), (Binary64.mul_comm _ b2).
    exact (Binary64.mul_le_mono _ _ _ P2' Lb Fs). }
  destruct Lcapex as [Pcapex Lcapex].
  split; [exact Lcost|]. split; [exact Lcapex|].
  (* the payback *)
  destruct (bessRoi_returns _ t r1 H1) as (_ & _ & _ & Epay1 & _).
  destruct (bessRoi_returns _ t r2 H2) as (_ & _ & _ & Epay2 & _).
  intros y1. rewrite Epay1, Epay2. unfold gtb.
  destruct (0 <? annualFuelSavingsCost r1) eqn:Pcost1; [|discriminate].
  intros [= <-].
  pose proof (Binary64.ltb_leb_trans _ _ _ Pcost1 Lcost) as Pcost2.
  rewrite Pcost2. eexists. split; [reflexivity|].
  assert (Fcapex1 : (capex r1 <? infinity) = true)
    by (rewrite Ecapex1; exact Fc).
  pose proof (Binary64.div_le_antimono (capex r1) _ _
                (Binary64.leb_trans _ _ _ Pcapex Lcapex) Fcapex1
                Pcost1 Lcost) as A.
  apply Binary64.leb_trans with (2 := A).
  apply Binary64.div_le_mono_pos; try assumption.
  exact (proj1 (Binary64.leb_numbers _ _ A)).
Qed.

Lemma X17_price_sensitivity_witness :
  exists r1 r2,
    bessRoi (withPrices 3 650 scenarioA) fuelCurveTable = Ok r1 /\
    bessRoi (withPrices 4 600 scenarioA) fuelCurveTable = Ok r2 /\
    (annualFuelSavingsCost r1 <=? annualFuelSavingsCost r2) = true /\
    (capex r2 <=? capex r1) = true /\
    (forall y1, paybackYears r1 = Some y1 ->
     exists y2, paybackYears r2 = Some y2 /\ (y2 <=? y1) = true).
Proof.
  exact (X17_price_sensitivity scenarioA fuelCurveTable _ 3 4 650 600
           eq_refl eq_refl eq_refl eq_refl eq_refl eq_refl eq_refl).
Defined.

(** ** The charts (X18) *)

(** [Math.max(c, 0)] is [c] for a number [c] whose sign bit is clear. *)
Lemma Math_max_nonneg c :
  plus c = true -> is_nan c = false -> Math_max [c; 0] = c.
Proof.
  intros P N. unfold Math_max. cbn [existsb]. rewrite N.
  change (is_nan 0) with false. cbn [orb fold_left].
  pose proof (Binary64.plus_geb0 c P N) as P0.
  assert (S1 : max_step neg_infinity c = c).
  { unfold max_step.
    change (isNegativeZero neg_infinity) with false.
    rewrite andb_false_r.
    rewrite (Binary64.ltb_rank neg_infinity c eq_refl N).
    pose proof (Binary64.leb_rank_le _ _ P0) as R.
    destruct (Z.ltb_spec (rank neg_infinity) (rank c)) as [_|L];
      [reflexivity|].
    exfalso. revert R L. change (rank 0) with 0%Z.
    change (rank neg_infinity) with (- 2 ^ 2100)%Z. lia. }
  rewrite S1. unfold max_step.
  assert (Z : isNegativeZero c = false).
  { unfold isNegativeZero, plus in *.
    destruct (Prim2SF c) as [[]|[]| |[] m e]; try discriminate P; reflexivity. }
  rewrite Z, andb_false_r, (Binary64.leb_not_gtb _ _ P0). reflexivity.
Qed.

(** X18: [ChartsSection], on a result of [bessRoi] at a finite diesel price
    > 0 whose saved fuel is a number and whose baseline cost is finite, never
    needs its clamp: [costWithBess], which is
    [Math.max(baselineCost - savings, 0)], is [baselineCost - savings], a
    number from 0 to the baseline cost, and neither slice of the pie is
    negative. *)
Theorem X18_chart_never_clamps i t r :
  bessRoi i t = Ok r ->
  finitePositive (dieselPricePerL i) = true ->
  is_nan (fuelSavedPerDayLitres r) = false ->
  (annualFuelOnlyCost r <? infinity) = true ->
  Charts.costWithBess r = annualFuelOnlyCost r - annualFuelSavingsCost r /\
  (0 <=? Charts.costWithBess r) = true /\
  (Charts.costWithBess r <=? annualFuelOnlyCost r) = true /\
  Forall (fun d => (0 <=? Charts.value d) = true) (Charts.pieData r).
Proof.
  intros Returned Fd N Fb.
  destruct (saved_below_baseline i t r Returned N) as (_ & Pl & Ll).
  destruct (bessRoi_returns i t r Returned)
    as ((_ & G2 & _) & _ & (_ & _ & _ & _ & Ecost) & _).
  destruct (bessRoi_fuel i t r Returned)
    as (_ & Gfuel & Eonly & Eonlycost & _).
  destruct (Binary64.mul_le_mono _ _ _ Pl Ll Fd) as [Ps Ls].
  rewrite <- Ecost, <- Eonlycost in Ls. rewrite <- Ecost in Ps.
  pose proof (Binary64.leb_ltb_trans _ _ _ Ls Fb) as Fs.
  assert (Pb : plus (annualFuelOnlyCost r) = true).
  { rewrite Eonlycost, Eonly.
    unfold finitePositive in Fd. apply andb_prop in Fd as [Pd _].
    unfold sizingInvalid in G2. split_gates.
    assert (plus 365 = true) by reflexivity.
    auto 6 with binary64. }
  destruct (Binary64.sub_plus _ _ Pb Ps Fs Ls) as [Pc Nc].
  assert (E : Charts.costWithBess r
              = annualFuelOnlyCost r - annualFuelSavingsCost r)
    by (apply Math_max_nonneg; assumption).
  pose proof (Binary64.plus_geb0 _ Pc Nc) as P0.
  assert (Le : (annualFuelOnlyCost r - annualFuelSavingsCost r
                <=? annualFuelOnlyCost r) = true).
  { apply Binary64.sub_le; [|exact Ps|exact Nc].
    exact (Binary64.leb_trans _ _ _ Ps Ls). }
  split; [exact E|]. rewrite E. split; [exact P0|]. split; [exact Le|].
  unfold Charts.pieData. repeat constructor; cbn [Charts.value].
  - rewrite E. exact P0.
  - exact Ps.
Qed.

Lemma X18_chart_never_clamps_witness :
  exists r,
    bessRoi scenarioA fuelCurveTable = Ok r /\
    Charts.costWithBess r = annualFuelOnlyCost r - annualFuelSavingsCost r /\
    (0 <=? Charts.costWithBess r) = true.
Proof.
  eexists. split; [reflexivity|].
  destruct (X18_chart_never_clamps scenarioA fuelCurveTable _
              eq_refl eq_refl eq_refl eq_refl) as (E & P & _).
  split; [exact E | exact P].
Defined.

(** * The route handler *)

(** ** The check of the fields *)

Lemma invalidField_spec v :
  negb (Route.typeof v =? "number")%string || Route.Number_isNaN v
  = invalidField v.
Proof. destruct v; reflexivity. Qed.

(** The loop returns at the first key, in the order of [requiredFields],
    whose property is invalid. *)
Lemma checkFields_find inputs keys :
  Route.checkFields inputs keys =
  match find (fun key => invalidField (inputs key)) keys with
  | Some key =>
      Some {| Route.body :=
                Route.Failure ("Invalid or missing field: " ++ keyName key);
              Route.status := 400 |}
  | None => None
  end.
Proof.
  induction keys as [|key rest IH]; cbn [Route.checkFields find];
    [reflexivity|].
  rewrite invalidField_spec. destruct (invalidField (inputs key));
    [reflexivity | exact IH].
Qed.

(** [requiredFields] lists every key of [RoiInputs]. *)
Lemma requiredFields_complete key : In key Route.requiredFields.
Proof. destruct key; simpl; tauto. Qed.

Lemma checked_fields inputs :
  find (fun key => invalidField (inputs key)) Route.requiredFields = None ->
  (forall key, invalidField (inputs key) = false) /\
  (forall key,
     inputs key = Route.JsNumber (field key (Route.asRoiInputs inputs))) /\
  fieldsAreNumbers (Route.asRoiInputs inputs) = true.
Proof.
  intros F.
  assert (V : forall key, invalidField (inputs key) = false).
  { intros key.
    exact (find_none _ _ F key (requiredFields_complete key)). }
  assert (E : forall key,
             inputs key
             = Route.JsNumber (field key (Route.asRoiInputs inputs))).
  { intros key. specialize (V key).
    destruct key; cbn [field Route.asRoiInputs gensetKVA loadKVA powerFactor
                       hoursPerDay dieselPricePerL bessSizeKWh bessPricePerKWh
                       socMax socMin];
      destruct (inputs _); try discriminate V; reflexivity. }
  split; [exact V|]. split; [exact E|].
  apply fieldsAreNumbers_spec. intros key.
  specialize (V key). rewrite (E key) in V. exact V.
Qed.


(** ** The three answers *)


(** ** The errors that the route reports *)



(** ** What a reply with a result says (X19) *)

(** A reply with a result: the body was parsed, its fields are numbers, and
    the engine returned the result for them. *)
Lemma POST_success show req r :
  Route.body (Route.POST show req) = Route.Success r ->
  exists inputs,
    req = Route.Body inputs /\
    fieldsAreNumbers (Route.asRoiInputs inputs) = true /\
    bessRoi (Route.asRoiInputs inputs) fuelCurveTable = Ok r.
Proof.
  destruct req as [err|inputs]; cbn [Route.POST]; [discriminate|].
  rewrite checkFields_find.
  destruct (find _ Route.requiredFields) as [key|] eqn:F; [discriminate|].
  destruct (checked_fields inputs F) as (_ & _ & N).
  destruct (bessRoi _ fuelCurveTable) as [r'|e] eqn:B; [|discriminate].
  intros [= <-]. exists inputs. repeat split; assumption.
Qed.

(** X19: whenever [POST] replies with a result, the rating of the request is
    one of the ratings of the dropdown, the key of a row of the built-in
    table; the load of the request is not above the rating, [loadPct] is a
    number from 0 to 1, and [fuelLph] lies between [lph25] and [lph100] of
    that row.  The field check of the route closes the hole that a NaN power
    factor leaves in the headroom gate of the engine. *)
Theorem X19_success_reply show req r :
  Route.body (Route.POST show req) = Route.Success r ->
  exists inputs row,
    req = Route.Body inputs /\
    In (gensetKVA (Route.asRoiInputs inputs)) gensetSizes /\
    In row fuelCurveTable /\
    kva row = gensetKVA (Route.asRoiInputs inputs) /\
    (loadKVA (Route.asRoiInputs inputs)
     <=? gensetKVA (Route.asRoiInputs inputs)) = true /\
    (0 <=? loadPct r) = true /\ (loadPct r <=? 1) = true /\
    (lph25 row <=? fuelLph r) = true /\ (fuelLph r <=? lph100 row) = true.
Proof.
  intros S. destruct (POST_success show req r S) as (inputs & -> & N & H).
  set (i := Route.asRoiInputs inputs) in *.
  pose proof (proj1 (fieldsAreNumbers_spec i) N PowerFactor) as Nf.
  destruct (load_below_rating i _ r H Nf) as (Pg & Fl & Ff & Le & Np).
  destruct (bessRoi_returns i _ r H) as (_ & _ & (Epct & _) & _).
  destruct (bessRoi_fuel i _ r H) as (Ffuel & _).
  destruct (find (fun r => kva r =? gensetKVA i) fuelCurveTable)
    as [row|] eqn:Found;
    [|unfold fuelLphInterpSimple in Ffuel; rewrite Found in Ffuel;
      discriminate Ffuel].
  pose proof (find_some _ _ Found) as [HIn K].
  assert (Ek : kva row = gensetKVA i).
  { apply Binary64.eqb_eq; [exact K|].
    unfold is_zero. change zero with 0.
    destruct (gensetKVA i =? 0) eqn:Z; [|reflexivity].
    apply Binary64.eqb_not_gtb in Z. congruence. }
  pose proof fuelCurveTable_rising as Rising.
  pose proof fuelCurveTable_closed as Closed.
  rewrite forallb_forall in Rising, Closed.
  rewrite <- Epct in Np.
  destruct (fuelLphInterpSimple_monotone row (Rising row HIn)
              (Closed row HIn) _ _ Found _ _ _ _ Ffuel Ffuel
              (Binary64.leb_refl _ Np)) as (Lo & _ & Hi).
  exists inputs, row. fold i. split; [reflexivity|]. split.
  { rewrite <- Ek. unfold gensetSizes. apply in_map. exact HIn. }
  split; [exact HIn|]. split; [exact Ek|]. split; [exact Le|].
  unfold finitePositive in Fl. apply andb_prop in Fl as [Pl Fl].
  split; [|split; [|split; assumption]].
  - apply Binary64.plus_geb0; [|exact Np].
    rewrite Epct. auto with binary64.
  - rewrite Epct. apply Binary64.div_le_one; auto using Binary64.ltb_leb.
Qed.

Lemma X19_success_reply_witness :
  exists inputs row,
    Route.Body (bodyOf scenarioA) = Route.Body inputs /\
    In (gensetKVA (Route.asRoiInputs inputs)) gensetSizes /\
    In row fuelCurveTable /\
    kva row = gensetKVA (Route.asRoiInputs inputs) /\
    (loadKVA (Route.asRoiInputs inputs)
     <=? gensetKVA (Route.asRoiInputs inputs)) = true /\
    (0 <=? 0.448) = true /\ (0.448 <=? 1) = true /\
    (lph25 row <=? 14.3144) = true /\ (14.3144 <=? lph100 row) = true.
Proof.
  exact (X19_success_reply (fun _ => EmptyString)
           (Route.Body (bodyOf scenarioA)) _ eq_refl).
Defined.

(** * The form *)

Lemma field_withField key key' v prev :
  field key' (withField key v prev) =
  if match key, key' with
     | GensetKVA, GensetKVA | LoadKVA, LoadKVA | PowerFactor, PowerFactor
     | HoursPerDay, HoursPerDay | DieselPricePerL, DieselPricePerL
     | BessSizeKWh, BessSizeKWh | BessPricePerKWh, BessPricePerKWh
     | SocMax, SocMax | SocMin, SocMin => true
     | _, _ => false
     end
  then v else field key' prev.
Proof. destruct key, key'; reflexivity. Qed.

Lemma withField_numbers key v prev :
  is_nan v = false -> fieldsAreNumbers prev = true ->
  fieldsAreNumbers (withField key v prev) = true.
Proof.
  rewrite !fieldsAreNumbers_spec. intros Nv N key'.
  rewrite field_withField.
  match goal with |- is_nan (if ?c then _ else _) = false => destruct c end;
    [exact Nv | exact (N key')].
Qed.

(** Every event that the form can raise keeps the invariant. *)
Lemma handle_invariant ev st :
  Page.raisedByForm ev = true -> formInvariant st ->
  formInvariant (Page.handle ev st).
Proof.
  unfold formInvariant. intros Raised [N P].
  destruct ev as [key value|value|]; cbn [Page.handle].
  - unfold Page.handleNumberChange, Page.setInputs. cbn [Page.inputs]. split.
    + apply withField_numbers; [|exact N].
      destruct (is_nan value) eqn:Nv; [reflexivity | exact Nv].
    + destruct key; try discriminate Raised; exact P.
  - unfold Page.handleGensetChange, Page.setInputs. cbn [Page.inputs].
    cbn [Page.raisedByForm] in Raised.
    assert (Nv : is_nan value = false).
    { apply existsb_exists in Raised as (size & _ & E).
      apply Binary64.eqb_numbers in E. tauto. }
    split; [apply withField_numbers; assumption|].
    cbn [withField gensetKVA]. exact Raised.
  - split; reflexivity.
Qed.

(** X12: from the initial state of the page, after any sequence of changes
    of the eight number inputs, selections of a genset of the dropdown and
    clicks on the reset button, no input of the form is NaN
    ([handleNumberChange] stores 0 for a text that is no number) and
    [gensetKVA] is a rating of the built-in table; so [bessRoi], given the
    inputs of the form and the built-in table, throws neither "Fuel curve
    missing" nor "Interpolation failed", nor any error of a guard that never
    fires. *)
Theorem X12_form_inputs events :
  forallb Page.raisedByForm events = true ->
  fieldsAreNumbers (Page.inputs (Page.run events Page.initial)) = true /\
  ratingPresent fuelCurveTable
    (gensetKVA (Page.inputs (Page.run events Page.initial))) = true /\
  forall e,
    bessRoi (Page.inputs (Page.run events Page.initial)) fuelCurveTable
      = Throw e ->
    In e (reachableErrors (Page.inputs (Page.run events Page.initial))) /\
    forall k, e <> UnknownGensetRating k.
Proof.
  intros Raised.
  assert (Inv : formInvariant (Page.run events Page.initial)).
  { unfold Page.run.
    assert (Init : formInvariant Page.initial) by (split; reflexivity).
    revert Raised Init. generalize Page.initial.
    induction events as [|ev events IH]; intros st Raised Init;
      cbn [fold_left]; [exact Init|].
    cbn [forallb] in Raised. apply andb_prop in Raised as [Rev Raised].
    apply IH; [exact Raised|]. apply handle_invariant; assumption. }
  destruct Inv as [N P]. split; [exact N|]. split; [exact P|].
  intros e T. split.
  - exact (bessRoi_reachable _ _ _ fuelCurveTable_rising N T).
  - exact (bessRoi_known_rating _ _ _ P T).
Qed.

Lemma X12_form_inputs_witness :
  fieldsAreNumbers (Page.inputs (Page.run sessionEvents Page.initial)) = true /\
  loadKVA (Page.inputs (Page.run [Page.NumberChange LoadKVA nan] Page.initial))
    = 0 /\
  Page.inputs (Page.run sessionEvents Page.initial)
    = withField SocMin 0.1 Page.defaultInputs.
Proof.
  split; [|split; reflexivity].
  exact (proj1 (X12_form_inputs sessionEvents eq_refl)).
Defined.
